(** * attention_keras: the training / inference script [model/train_nmt.py]

    A shallow embedding of the script's functions ([get_data],
    [preprocess_data], [train], [infer_nmt], [plot_attention_weights] and the
    [__main__] block) and the properties of them that the specification
    states.

    Conventions.
    - Python [str] is [string]; a character is a code point below 256.
    - Python [int] is [Z] where the code computes slice bounds and ranges
      with it, and [nat] for word ids, which the tokenizer never makes
      negative.
    - A Python [dict] keyed by word ids is a [gmap nat string]; a missing key
      raises [KeyError].
    - Exceptions and the calls into Keras, NumPy, Matplotlib and the file
      system are explicit: a computation yields the list of external calls it
      made, in order, and either a value or the exception that stopped it.
    - A call is listed when it returns. What a library refuses raises and
      is not listed: [np.random.seed] with a seed outside 0 .. 2**32 - 1,
      [set_xticklabels] and [set_yticklabels] with a number of labels that
      is not the number of ticks. *)

From Stdlib Require Import ZArith Ascii String.
From stdpp Require Import base tactics option list sorting strings gmap.

Local Open Scope string_scope.
Local Open Scope list_scope.
Local Open Scope nat_scope.

(** ** Python strings *)

Module PyStr.

(** [str.isspace] on one character (code points below 256): the characters
    [str.split()] breaks on. *)
Definition isspace (c : ascii) : bool :=
  let n := nat_of_ascii c in
  ((9 <=? n) && (n <=? 13)) || ((28 <=? n) && (n <=? 32))
  || (n =? 133) || (n =? 160).

(** [s.endswith(c)] for a one-character [c]. *)
Fixpoint endswith (s : string) (c : ascii) : bool :=
  match s with
  | EmptyString => false
  | String a EmptyString => Ascii.eqb a c
  | String _ r => endswith r c
  end.

(** [s[:-1]] *)
Fixpoint drop_last (s : string) : string :=
  match s with
  | EmptyString => EmptyString
  | String _ EmptyString => EmptyString
  | String a r => String a (drop_last r)
  end.

(** [s.split()]: the maximal runs of non-whitespace characters, in order.
    [cur] is the run being read. *)
Fixpoint split_from (cur : string) (s : string) : list string :=
  match s with
  | EmptyString => if String.eqb cur "" then [] else [cur]
  | String c r =>
      if isspace c
      then (if String.eqb cur "" then split_from "" r
            else cur :: split_from "" r)
      else split_from (cur ++ String c "")%string r
  end.

Definition split (s : string) : list string := split_from "" s.

(** No whitespace character occurs in [s]. *)
Fixpoint no_space (s : string) : bool :=
  match s with
  | EmptyString => true
  | String c r => negb (isspace c) && no_space r
  end.

(** A single token: non-empty and free of whitespace. *)
Definition is_token (s : string) : bool :=
  negb (String.eqb s "") && no_space s.

End PyStr.

(** ** Python slices and ranges *)

Module PySeq.

(** A slice bound [k] on a sequence of length [n], clamped as Python does:
    a negative bound counts from the end. *)
Definition bound (n : nat) (k : Z) : nat :=
  if (k <? 0)%Z then Z.to_nat (Z.max 0 (Z.of_nat n + k))
  else Nat.min n (Z.to_nat k).

(** [l[lo:hi]], either bound possibly omitted. *)
Definition slice {A} (lo hi : option Z) (l : list A) : list A :=
  let n := length l in
  let a := from_option (bound n) 0 lo in
  let b := from_option (bound n) n hi in
  take (b - a) (drop a l).

(** [range(0, stop, step)] for a positive [step]: 0, step, 2 step, ...
    below [stop]. *)
Definition range_count (stop step : Z) : nat :=
  if (stop <=? 0)%Z then 0 else Z.to_nat ((stop + step - 1) / step).

Definition range_pos (stop step : Z) : list Z :=
  (fun i => (Z.of_nat i * step)%Z) <$> seq 0 (range_count stop step).

End PySeq.

(** ** Sentence markers ([get_data], line 24) *)

(** The expression of the list comprehension that wraps a French sentence
    between the start and end markers. *)
Definition wrap_fr (sent : string) : string :=
  if PyStr.endswith sent "."
  then ("sos " ++ PyStr.drop_last sent ++ "eos .")%string
  else ("sos " ++ sent ++ " eos .")%string.


(** ** Exceptions and external calls *)

Inductive exn : Set :=
| AssertionError
| KeyError
| IndexError
| ValueError.

Inductive result (A : Type) : Type :=
| Ok (a : A)
| Raise (e : exn).
Arguments Ok {A} a.
Arguments Raise {A} e.

Global Instance result_ret : MRet result := λ A a, Ok a.
Global Instance result_bind : MBind result := λ A B f r,
  match r with
  | Ok a => f a
  | Raise e => Raise e
  end.
Global Instance result_fmap : FMap result := λ A B f r,
  match r with
  | Ok a => Ok (f a)
  | Raise e => Raise e
  end.

(** A computation that makes external calls of type [E]: the calls made, in
    order, and the value returned or the exception that ended the run. An
    exception is never caught: the script has no [try]. *)
Definition M (E A : Type) : Type := (list E * result A)%type.

Definition trace {E A} (m : M E A) : list E := m.1.
Definition outcome {E A} (m : M E A) : result A := m.2.

Global Instance M_ret {E} : MRet (M E) := λ A a, ([], Ok a).
Global Instance M_bind {E} : MBind (M E) := λ A B f m,
  match m.2 with
  | Ok a => (m.1 ++ (f a).1, (f a).2)
  | Raise e => (m.1, Raise e)
  end.

Definition perform {E} (e : E) : M E unit := ([e], Ok tt).
Definition raise {E A} (e : exn) : M E A := ([], Raise e).
Definition lift {E A} (r : result A) : M E A := ([], r).

(** [assert cond] *)
Definition assert {E} (cond : bool) : M E unit :=
  if cond then mret tt else raise AssertionError.

(** [for x in xs: s = body(x, s)] *)
Fixpoint for_each {E X S} (xs : list X) (body : X → S → M E S) (s : S) : M E S :=
  match xs with
  | [] => mret s
  | x :: xs' => s' ← body x s; for_each xs' body s'
  end.

(** A loop body that may [break]. *)
Inductive flow (S : Type) : Type :=
| Continue (s : S)
| Break (s : S).
Arguments Continue {S} s.
Arguments Break {S} s.

Fixpoint for_each_break {E X S} (xs : list X) (body : X → S → M E (flow S))
    (s : S) : M E S :=
  match xs with
  | [] => mret s
  | x :: xs' =>
      r ← body x s;
      match r with
      | Continue s' => for_each_break xs' body s'
      | Break s' => mret s'
      end
  end.

(** ** Lists, dictionaries and arrays *)

Module Py.

(** [l[i]] for a non-negative index. *)
Definition getitem {A} (l : list A) (i : nat) : result A :=
  match l !! i with
  | Some x => Ok x
  | None => Raise IndexError
  end.

(** [d[k]] *)
Definition lookup_key (d : gmap nat string) (k : nat) : result string :=
  match d !! k with
  | Some w => Ok w
  | None => Raise KeyError
  end.

(** [dict(pairs)]: a later pair overrides an earlier one with the same key. *)
Definition dict (pairs : list (nat * string)) : gmap nat string :=
  fold_left (λ d kv, <[kv.1 := kv.2]> d) pairs ∅.

(** [max(xs)] of a collection of ids. *)
Definition max_of (xs : list nat) : result nat :=
  match xs with
  | [] => Raise ValueError
  | x :: r => Ok (foldr Nat.max x r)
  end.

(** [range(0, stop, step)] *)
Definition range (stop step : Z) : result (list Z) :=
  if (step =? 0)%Z then Raise ValueError
  else if (0 <? step)%Z then Ok (PySeq.range_pos stop step)
  else Ok ((λ i, (Z.of_nat i * step)%Z) <$>
           seq 0 (if (0 <=? stop)%Z then 0
                  else Z.to_nat ((- stop + - step - 1) / - step))).

End Py.

(** A two-dimensional NumPy array: its rows and its second dimension, which
    an array without rows still has. *)
Record array2 (A : Type) : Type := Array2 {
  ncols : nat;
  rows : list (list A)
}.
Arguments Array2 {A} ncols rows.
Arguments ncols {A} a.
Arguments rows {A} a.

(** Every row has the length the shape says. *)
Definition rectangular {A} (a : array2 A) : Prop :=
  Forall (λ r, length r = ncols a) (rows a).

Module Np.

(** [a.shape] *)
Definition shape {A} (a : array2 A) : nat * nat := (length (rows a), ncols a).

(** [a.ravel()] *)
Definition ravel {A} (a : array2 A) : list A := concat (rows a).

(** [a[lo:hi, :]] *)
Definition slice_rows {A} (lo hi : option Z) (a : array2 A) : array2 A :=
  Array2 (ncols a) (PySeq.slice lo hi (rows a)).

(** [np.max(a)] of an array of ids: an array without elements has no
    maximum. *)
Definition max (a : array2 nat) : result nat := Py.max_of (ravel a).

(** [np.random.seed(seed)]: the seed must be between 0 and [2**32 - 1]. *)
Definition seed (s : Z) : result unit :=
  if ((0 <=? s) && (s <=? 4294967295))%Z then Ok tt else Raise ValueError.

(** [np.array(mats)] of a list of one-dimensional arrays, which must agree
    in length to make a matrix. ([plot_attention_weights], the one caller,
    has asserted that the list is not empty.) *)
Definition array {A} (mats : list (list A)) : result (array2 A) :=
  match mats with
  | [] => Ok (Array2 0 [])
  | m :: _ =>
      if forallb (λ r, length r =? length m) mats
      then Ok (Array2 (length m) mats)
      else Raise ValueError
  end.

Fixpoint transpose_rows {A} (n : nat) (a : list (list A)) : list (list A) :=
  match a with
  | [] => replicate n []
  | row :: a' => zip_with cons row (transpose_rows n a')
  end.

(** [np.transpose(a)] *)
Definition transpose {A} (a : array2 A) : array2 A :=
  Array2 (length (rows a)) (transpose_rows (ncols a) (rows a)).

(** Column [j] of [a], top to bottom. *)
Definition column {A} (j : nat) (a : array2 A) : option (list A) :=
  mapM (λ row : list A, row !! j) (rows a).

(** [np.argmax(v)] of a vector: the first position of a largest entry. *)
Fixpoint argmax_from {A} (ltb : A → A → bool) (best : A) (ibest i : nat)
    (v : list A) : nat :=
  match v with
  | [] => ibest
  | x :: v' =>
      if ltb best x then argmax_from ltb x i (S i) v'
      else argmax_from ltb best ibest (S i) v'
  end.

Definition argmax {A} (ltb : A → A → bool) (v : list A) : result nat :=
  match v with
  | [] => Raise ValueError
  | x :: v' => Ok (argmax_from ltb x 0 1 v')
  end.

End Np.

(** ** Keras utilities *)

(** A three-dimensional array of numbers: sentences, timesteps, classes. *)
Abbreviation tensor3 := (list (list (list nat))).

(** The value of [to_categorical]: one row of [num_classes] entries per id,
    arranged as the input was. When the last dimension of the input is 1,
    Keras drops it, and a two-dimensional input gives a two-dimensional
    result. *)
Inductive categorical : Type :=
| Cat3 (t : tensor3)
| Cat2 (t : list (list nat)).

(** The encoder input, the decoder input and the target of one batch. *)
Abbreviation batch := (categorical * tensor3 * tensor3)%type.

(** One row of [to_categorical]: a 1 at position [k]. *)
Definition one_hot (num_classes k : nat) : result (list nat) :=
  if k <? num_classes
  then Ok ((λ j, if j =? k then 1 else 0) <$> seq 0 num_classes)
  else Raise IndexError.

Definition to_categorical (y : array2 nat) (num_classes : nat) : result categorical :=
  n ← (if num_classes =? 0 then S <$> Np.max y else Ok num_classes);
  if ncols y =? 1
  then Cat2 <$> mapM (one_hot n) (Np.ravel y)
  else Cat3 <$> mapM (mapM (one_hot n)) (rows y).

(** [t[:, lo:hi, :]]: three indices need a three-dimensional array. *)
Definition slice_time (lo hi : option Z) (t : categorical)
    : result (tensor3) :=
  match t with
  | Cat3 t => Ok (PySeq.slice lo hi <$> t)
  | Cat2 _ => Raise IndexError
  end.

(** [np.expand_dims(t, 1)] *)
Inductive expanded : Type :=
| Exp4 (t : list tensor3)
| Exp3 (t : tensor3).

Definition expand_dims1 (t : categorical) : expanded :=
  match t with
  | Cat3 t => Exp4 ((λ r, [r]) <$> t)
  | Cat2 t => Exp3 ((λ r, [r]) <$> t)
  end.


(** ** The environment of the script

    What the script calls but does not define: the two corpus files, NumPy's
    random generator, the Keras tokenizer, the three models that
    [model.nmt.define_nmt] builds over one set of weights, and the file
    system. Their results are left open; only what NumPy and Keras document
    about them is assumed. *)

Inductive lang : Set := En | Fr.

Inductive padding : Set := Pre | Post.

Class Framework : Type := {
  Tokenizer : Type;
  Weights : Type;
  EncOuts : Type;
  DecState : Type;
  Score : Type;
  Loss : Type;
  (** [utils.data_helper.read_data(path)]: the lines of a corpus file *)
  read_data : string → list string;
  (** [np.random.shuffle(inds)] after [np.random.seed(seed)] rearranges
      [inds]; [get_data] checks the seed before it shuffles *)
  shuffle : Z → list nat → list nat;
  shuffle_perm : ∀ seed inds, shuffle seed inds ≡ₚ inds;
  (** [Tokenizer(oov_token='UNK')] after [fit_on_texts(texts)] *)
  fit_on_texts : list string → Tokenizer;
  (** [tokenizer.texts_to_sequences(texts)]: one id sequence per text *)
  texts_to_sequences : Tokenizer → list string → list (list nat);
  texts_to_sequences_length :
    ∀ tk texts, length (texts_to_sequences tk texts) = length texts;
  (** the items of [tokenizer.word_index] and the keys of
      [tokenizer.index_word] *)
  word_index : Tokenizer → list (string * nat);
  index_word_keys : Tokenizer → list nat;
  (** [define_nmt(hidden_size, batch_size, en_timesteps, fr_timesteps,
      en_vsize, fr_vsize)]: the initial weights *)
  define_nmt : Z → Z → nat → nat → nat → nat → Weights;
  (** [full_model.train_on_batch([enc, dec], target)]: the updated weights *)
  train_on_batch :
    Weights → categorical → tensor3 → tensor3 → Weights;
  (** [full_model.evaluate([enc, dec], target, batch_size, verbose=0)] *)
  evaluate :
    Weights → categorical → tensor3 → tensor3 → Z → Loss;
  (** [np.mean(losses)] *)
  mean : list Loss → Loss;
  (** [encoder_model.predict(x)] *)
  encoder_predict : Weights → categorical → EncOuts * DecState;
  (** [decoder_model.predict([enc_outs, dec_state, x])]: the scores of the
      next word, the attention over the source positions, the new state *)
  decoder_predict :
    Weights → EncOuts → DecState → expanded →
    list (list (list Score)) * list (list (list Score)) * DecState;
  (** the order of the scores *)
  score_ltb : Score → Score → bool;
  (** [os.path.exists(path)] when the script starts *)
  path_exists : string → bool
}.

Section Script.

Context `{F : Framework}.

Definition attention : Type := list (list (list Score)).

Inductive printed : Type :=
| TextLength (n : nat)
| VocabularySize (l : lang) (n : nat)
| TextShape (l : lang) (shape : nat * nat)
| EpochLoss (ep : Z) (l : Loss)
| Translating (s : string)
| French (s : string).

(** The external calls the script makes. A prediction is listed with what
    it returned. *)
Inductive call : Type :=
| ReadData (path : string)
| PrintLine (p : printed)
| Shuffle (seed : Z) (n : nat)
| FitOnTexts (texts : list string)
| DefineNmt (en_vsize fr_vsize : nat)
| TrainOnBatch (enc : categorical) (dec target : tensor3)
| Evaluate (enc : categorical) (dec target : tensor3)
| Mkdir (path : string)
| SaveModel (path : string)
| EncoderPredict (x : categorical)
| DecoderPredict (x : expanded)
    (out : list (list (list Score)) * attention * DecState)
| Subplots
| Imshow (mat : array2 Score)
| SetXTicks (ticks : list nat)
| SetYTicks (ticks : list nat)
| SetXTickLabels (labels : list string)
| SetYTickLabels (labels : list string)
| TickParams
| Savefig (path : string).

Definition print (p : printed) : M call unit := perform (PrintLine p).

(** [np.argmax(dec_out, axis=-1)[0, 0]] *)
Definition argmax00 (dec_out : list (list (list Score))) : result nat :=
  a ← mapM (mapM (Np.argmax score_ltb)) dec_out;
  r ← Py.getitem a 0;
  Py.getitem r 0.

(** *** [utils.data_helper.sents2sequences] *)

(** [pad_sequences] on one sequence: longer sequences lose their first
    ids, shorter ones are filled with 0 before or after. *)
Definition pad_row (padding_type : padding) (maxlen : nat) (s : list nat)
    : list nat :=
  let s' := drop (length s - maxlen) s in
  match padding_type with
  | Pre => replicate (maxlen - length s') 0 ++ s'
  | Post => s' ++ replicate (maxlen - length s') 0
  end.

(** Modelled from the spec: [utils.data_helper.sents2sequences] is not
    among the sources. The specification has the sentences tokenized and
    then padded: the tokenizer turns every sentence into its id sequence,
    every sequence is padded or cut to [pad_length] (to the longest
    sequence when no length is given), and the rows are reversed on
    request. The keyword names are those of the calls in
    [preprocess_data]; the third positional argument is taken to be
    [reverse]. *)
Definition sents2sequences (tokenizer : Tokenizer) (sentences : list string)
    (reverse : bool) (padding_type : padding) (pad_length : option nat)
    : array2 nat :=
  let encoded_text := texts_to_sequences tokenizer sentences in
  let maxlen :=
    from_option id (foldr Nat.max 0 (length <$> encoded_text)) pad_length in
  let preproc_text := pad_row padding_type maxlen <$> encoded_text in
  Array2 maxlen (if reverse then @rev nat <$> preproc_text else preproc_text).

(** *** [get_data] *)

Definition get_data (train_size : Z) (random_seed : Z)
    : M call (list string * list string * list string * list string) :=
  perform (ReadData "data/small_vocab_en.txt");;
  let en_text := read_data "data/small_vocab_en.txt" in
  perform (ReadData "data/small_vocab_fr.txt");;
  let fr_text := read_data "data/small_vocab_fr.txt" in
  print (TextLength (length en_text));;
  let fr_text := wrap_fr <$> fr_text in
  lift (Np.seed random_seed);;
  perform (Shuffle random_seed (length en_text));;
  let inds := shuffle random_seed (seq 0 (length en_text)) in
  let train_inds := PySeq.slice None (Some train_size) inds in
  let test_inds := PySeq.slice (Some train_size) None inds in
  tr_en_text ← mapM (λ ti, lift (Py.getitem en_text ti)) train_inds;
  tr_fr_text ← mapM (λ ti, lift (Py.getitem fr_text ti)) train_inds;
  ts_en_text ← mapM (λ ti, lift (Py.getitem en_text ti)) test_inds;
  ts_fr_text ← mapM (λ ti, lift (Py.getitem fr_text ti)) test_inds;
  mret (tr_en_text, tr_fr_text, ts_en_text, ts_fr_text).

(** *** [preprocess_data] *)

Definition preprocess_data (en_tokenizer fr_tokenizer : Tokenizer)
    (en_text fr_text : list string) (en_timesteps fr_timesteps : nat)
    : M call (array2 nat * array2 nat) :=
  let en_seq :=
    sents2sequences en_tokenizer en_text false Pre (Some en_timesteps) in
  let fr_seq :=
    sents2sequences fr_tokenizer fr_text false Post (Some fr_timesteps) in
  m ← lift (Np.max en_seq);
  print (VocabularySize En (m + 1));;
  m ← lift (Np.max fr_seq);
  print (VocabularySize Fr (m + 1));;
  print (TextShape En (Np.shape en_seq));;
  print (TextShape Fr (Np.shape fr_seq));;
  mret (en_seq, fr_seq).

(** *** [train]

    The Keras model is updated in place by [train_on_batch]; its weights
    are threaded through the loops here and returned. [en_vsize] and
    [fr_vsize] are globals of the script, set before [train] is called. *)

Definition train_batch (en_seq fr_seq : array2 nat) (batch_size : Z)
    (en_vsize fr_vsize : nat) (bi : Z) (st : Weights * list Loss)
    : M call (Weights * list Loss) :=
  let '(full_model, losses) := st in
  en_onehot_seq ← lift (to_categorical
    (Np.slice_rows (Some bi) (Some (bi + batch_size)%Z) en_seq) en_vsize);
  fr_onehot_seq ← lift (to_categorical
    (Np.slice_rows (Some bi) (Some (bi + batch_size)%Z) fr_seq) fr_vsize);
  dec ← lift (slice_time None (Some (-1)%Z) fr_onehot_seq);
  target ← lift (slice_time (Some 1%Z) None fr_onehot_seq);
  perform (TrainOnBatch en_onehot_seq dec target);;
  let full_model := train_on_batch full_model en_onehot_seq dec target in
  perform (Evaluate en_onehot_seq dec target);;
  let l := evaluate full_model en_onehot_seq dec target batch_size in
  mret (full_model, losses ++ [l]).

Definition train_epoch (en_seq fr_seq : array2 nat) (batch_size : Z)
    (en_vsize fr_vsize : nat) (ep : Z) (full_model : Weights)
    : M call Weights :=
  bis ← lift (Py.range (Z.of_nat (Np.shape en_seq).1 - batch_size) batch_size);
  '(full_model, losses) ←
    for_each bis (train_batch en_seq fr_seq batch_size en_vsize fr_vsize)
      (full_model, []);
  (if ((ep + 1) `mod` 1 =? 0)%Z
   then print (EpochLoss (ep + 1) (mean losses))
   else mret tt);;
  mret full_model.

Definition train (full_model : Weights) (en_seq fr_seq : array2 nat)
    (batch_size : Z) (n_epochs : Z) (en_vsize fr_vsize : nat)
    : M call Weights :=
  eps ← lift (Py.range n_epochs 1);
  for_each eps (train_epoch en_seq fr_seq batch_size en_vsize fr_vsize)
    full_model.

(** *** [infer_nmt]

    [fr_tokenizer] and [fr_index2word] are globals of the script. *)

(** Truth value of an integer. *)
Definition truthy (n : nat) : bool := negb (n =? 0).

Definition decode_state : Type :=
  DecState * expanded * list (nat * attention) * string.

Definition decode_step (decoder_model : Weights) (enc_outs : EncOuts)
    (fr_vsize : nat) (fr_tokenizer : Tokenizer)
    (fr_index2word : gmap nat string) (i : nat) (st : decode_state)
    : M call (flow decode_state) :=
  let '(dec_state, test_fr_onehot_seq, attention_weights, fr_text) := st in
  let out := decoder_predict decoder_model enc_outs dec_state test_fr_onehot_seq in
  perform (DecoderPredict test_fr_onehot_seq out);;
  let '(dec_out, attention, dec_state) := out in
  dec_ind ← lift (argmax00 dec_out);
  if dec_ind =? 0 then
    mret (Break (dec_state, test_fr_onehot_seq, attention_weights, fr_text))
  else
    word ← lift (Py.lookup_key fr_index2word dec_ind);
    let test_fr_seq :=
      sents2sequences fr_tokenizer [word] (truthy fr_vsize) Post None in
    test_fr_onehot_seq ←
      lift (expand_dims1 <$> to_categorical test_fr_seq fr_vsize);
    mret (Continue (dec_state, test_fr_onehot_seq,
                    attention_weights ++ [(dec_ind, attention)],
                    (fr_text ++ word ++ " ")%string)).

Definition infer_nmt (encoder_model decoder_model : Weights)
    (test_en_seq : array2 nat) (en_vsize fr_vsize : nat)
    (fr_tokenizer : Tokenizer) (fr_index2word : gmap nat string)
    : M call (string * list (nat * attention)) :=
  let test_fr_seq :=
    sents2sequences fr_tokenizer ["sos"] (truthy fr_vsize) Post None in
  test_en_onehot_seq ← lift (to_categorical test_en_seq en_vsize);
  test_fr_onehot_seq ←
    lift (expand_dims1 <$> to_categorical test_fr_seq fr_vsize);
  perform (EncoderPredict test_en_onehot_seq);;
  let '(enc_outs, enc_last_state) :=
    encoder_predict encoder_model test_en_onehot_seq in
  let dec_state := enc_last_state in
  '(_, _, attention_weights, fr_text) ←
    for_each_break (seq 0 20)
      (decode_step decoder_model enc_outs fr_vsize fr_tokenizer fr_index2word)
      (dec_state, test_fr_onehot_seq, [], "");
  mret (fr_text, attention_weights).

(** *** [plot_attention_weights] *)

(** [attn.reshape(-1)] *)
Definition reshape1 (attn : attention) : list Score := concat (concat attn).

(** [id2word[inp] if inp != 0 else "<Res>"] *)
Definition tick_label (id2word : gmap nat string) (inp : nat) : result string :=
  if negb (inp =? 0) then Py.lookup_key id2word inp else Ok "<Res>".

(** [ax.set_xticklabels(labels)] and [ax.set_yticklabels(labels)] on an
    axis whose [n] tick positions were fixed by [set_xticks] or
    [set_yticks]: Matplotlib refuses a list of labels that is neither empty
    nor of length [n] with a [ValueError], and labels nothing. *)
Definition tick_labels_fit (n : nat) (labels : list string) : result unit :=
  if (length labels =? n) || (length labels =? 0) then Ok tt
  else Raise ValueError.

Definition plot_attention_weights (encoder_inputs : array2 nat)
    (attention_weights : list (nat * attention))
    (en_id2word fr_id2word : gmap nat string) : M call unit :=
  assert (negb (length attention_weights =? 0));;
  let '(mats, dec_inputs) :=
    fold_left (λ '(mats, dec_inputs) '(dec_ind, attn),
                 (mats ++ [reshape1 attn], dec_inputs ++ [dec_ind]))
      attention_weights ([], []) in
  attention_mat ← lift (Np.transpose <$> Np.array mats);
  perform Subplots;;
  perform (Imshow attention_mat);;
  perform (SetXTicks (seq 0 (Np.shape attention_mat).2));;
  perform (SetYTicks (seq 0 (Np.shape attention_mat).1));;
  xlabels ← lift (mapM (tick_label fr_id2word) dec_inputs);
  lift (tick_labels_fit (Np.shape attention_mat).2 xlabels);;
  perform (SetXTickLabels xlabels);;
  ylabels ← lift (mapM (tick_label en_id2word) (Np.ravel encoder_inputs));
  lift (tick_labels_fit (Np.shape attention_mat).1 ylabels);;
  perform (SetYTickLabels ylabels);;
  perform TickParams;;
  perform TickParams;;
  (if negb (path_exists "../results")
   then perform (Mkdir "../results")
   else mret tt);;
  perform (Savefig "../results/attention.png").

(** *** The [__main__] block

    The script marks its stages with string literals ("Defining
    tokenizers", "Getting preprocessed data", "Defining the full model",
    "Save model", "Inferring with trained model", "Attention plotting").
    Every external call is listed with the stage that makes it. The
    inference models of [define_nmt] share the layers of the full model, so
    they predict with the trained weights. *)

Inductive step : Set :=
| LoadCorpus
| FitTokenizers
| Preprocess
| BuildModel
| TrainModel
| SaveWeights
| Decode
| PlotAttention.

Definition step_index (s : step) : nat :=
  match s with
  | LoadCorpus => 0
  | FitTokenizers => 1
  | Preprocess => 2
  | BuildModel => 3
  | TrainModel => 4
  | SaveWeights => 5
  | Decode => 6
  | PlotAttention => 7
  end.

Definition in_step {A} (s : step) (m : M call A) : M (step * call) A :=
  (pair s <$> m.1, m.2).

(** [Tokenizer(oov_token='UNK')] followed by [fit_on_texts(texts)] *)
Definition new_tokenizer (texts : list string) : M call Tokenizer :=
  perform (FitOnTexts texts);;
  mret (fit_on_texts texts).

(** [dict(zip(tokenizer.word_index.values(), tokenizer.word_index.keys()))] *)
Definition index2word (tokenizer : Tokenizer) : gmap nat string :=
  Py.dict (zip (word_index tokenizer).*2 (word_index tokenizer).*1).

Definition script (train_size batch_size hidden_size : Z)
    (en_timesteps fr_timesteps : nat) (n_epochs : Z) : M (step * call) unit :=
  '(tr_en_text, tr_fr_text, ts_en_text, ts_fr_text) ←
    in_step LoadCorpus (get_data train_size 100);
  '(en_tokenizer, fr_tokenizer) ←
    in_step FitTokenizers (
      en_tokenizer ← new_tokenizer tr_en_text;
      fr_tokenizer ← new_tokenizer tr_fr_text;
      mret (en_tokenizer, fr_tokenizer));
  '(en_seq, fr_seq) ←
    in_step Preprocess (
      preprocess_data en_tokenizer fr_tokenizer tr_en_text tr_fr_text
        en_timesteps fr_timesteps);
  '(en_vsize, fr_vsize, full_model) ←
    in_step BuildModel (
      en_max ← lift (Py.max_of (index_word_keys en_tokenizer));
      fr_max ← lift (Py.max_of (index_word_keys fr_tokenizer));
      let en_vsize := en_max + 1 in
      let fr_vsize := fr_max + 1 in
      perform (DefineNmt en_vsize fr_vsize);;
      mret (en_vsize, fr_vsize,
            define_nmt hidden_size batch_size en_timesteps fr_timesteps
              en_vsize fr_vsize));
  full_model ←
    in_step TrainModel (
      train full_model en_seq fr_seq batch_size n_epochs en_vsize fr_vsize);
  in_step SaveWeights (
    (if negb (path_exists "../h5.models")
     then perform (Mkdir "../h5.models")
     else mret tt);;
    perform (SaveModel "../h5.models/nmt.h5"));;
  let en_index2word := index2word en_tokenizer in
  let fr_index2word := index2word fr_tokenizer in
  '(test_en_seq, attn_weights) ←
    in_step Decode (
      test_en ← lift (Py.getitem ts_en_text 0);
      print (Translating test_en);;
      let test_en_seq :=
        sents2sequences en_tokenizer [test_en] false Post (Some en_timesteps) in
      '(test_fr, attn_weights) ←
        infer_nmt full_model full_model test_en_seq en_vsize fr_vsize
          fr_tokenizer fr_index2word;
      print (French test_fr);;
      mret (test_en_seq, attn_weights));
  in_step PlotAttention (
    plot_attention_weights test_en_seq attn_weights en_index2word fr_index2word).

(** The hyperparameters of the script. *)
Definition main : M (step * call) unit := script 100000 64 96 20 20 10.

End Script.

(** ** Vocabulary of the statements

    Readings of a run that the properties below are stated with. *)

(** *** Batches of [train] *)

Section TrainDefs.

Context `{F : Framework}.

(** The tensors [train] computes for the batch that starts at row [bi]:
    the encoder input, the decoder input and the target. *)
Definition batch_tensors (en_seq fr_seq : array2 nat) (batch_size : Z)
    (en_vsize fr_vsize : nat) (bi : Z)
    : result batch :=
  en_onehot_seq ← to_categorical
    (Np.slice_rows (Some bi) (Some (bi + batch_size)%Z) en_seq) en_vsize;
  fr_onehot_seq ← to_categorical
    (Np.slice_rows (Some bi) (Some (bi + batch_size)%Z) fr_seq) fr_vsize;
  dec ← slice_time None (Some (-1)%Z) fr_onehot_seq;
  target ← slice_time (Some 1%Z) None fr_onehot_seq;
  Ok (en_onehot_seq, dec, target).

(** The two model calls made for one batch. *)
Definition batch_calls
    (b : batch) : list call :=
  [TrainOnBatch b.1.1 b.1.2 b.2; Evaluate b.1.1 b.1.2 b.2].

Definition is_batch_call (c : call) : bool :=
  match c with
  | TrainOnBatch _ _ _ | Evaluate _ _ _ => true
  | _ => false
  end.

(** The rows of the encoder inputs that a run passed to [train_on_batch],
    in order. *)
Definition encoder_rows (t : list call) : tensor3 :=
  concat (omap (λ c, match c with
                     | TrainOnBatch (Cat3 rows) _ _ => Some rows
                     | _ => None
                     end) t).

End TrainDefs.

(** *** Decode steps of [infer_nmt] *)

Section DecodeDefs.

Context `{F : Framework}.

(** What the decoder calls of a run predicted, in order: the word id
    [np.argmax(dec_out, axis=-1)[0, 0]] and the attention. *)
Definition decode_log (t : list call) : list (result nat * attention) :=
  omap (λ c, match c with
             | DecoderPredict _ out => Some (argmax00 out.1.1, out.1.2)
             | _ => None
             end) t.

(** The log entries of the decode steps that were recorded. *)
Definition recorded (aw : list (nat * attention)) : list (result nat * attention) :=
  (λ p, (Ok p.1, p.2)) <$> aw.

(** The log entries that emit a word: those with a non-zero word id. *)
Definition emitted (log : list (result nat * attention)) : list (nat * attention) :=
  omap (λ p, match p.1 with
             | Ok (S n) => Some (S n, p.2)
             | _ => None
             end) log.

(** Each word followed by a blank. *)
Definition join_words (ws : list string) : string :=
  foldr (λ w acc, (w ++ " " ++ acc)%string) "" ws.

End DecodeDefs.

(** *** Assertion failures *)

(** A result that is not a failed assertion, and a computation that does
    not end in one. *)
Definition calm {A} (r : result A) : Prop := r ≠ Raise AssertionError.
Definition quiet {E A} (m : M E A) : Prop := calm (outcome m).

(** *** Stages of the script *)

Section StepDefs.

Context `{F : Framework}.

(** The calls that belong to each stage of the script. *)
Definition step_calls (s : step) (c : call) : bool :=
  match s, c with
  | LoadCorpus, (ReadData _ | PrintLine (TextLength _) | Shuffle _ _) => true
  | FitTokenizers, FitOnTexts _ => true
  | Preprocess, PrintLine (VocabularySize _ _ | TextShape _ _) => true
  | BuildModel, DefineNmt _ _ => true
  | TrainModel, (TrainOnBatch _ _ _ | Evaluate _ _ _ | PrintLine (EpochLoss _ _)) => true
  | SaveWeights, (Mkdir _ | SaveModel _) => true
  | Decode, (PrintLine (Translating _ | French _) | EncoderPredict _
            | DecoderPredict _ _) => true
  | PlotAttention, (Subplots | Imshow _ | SetXTicks _ | SetYTicks _
                   | SetXTickLabels _ | SetYTickLabels _ | TickParams
                   | Mkdir _ | Savefig _) => true
  | _, _ => false
  end.

(** The epoch numbers whose mean loss a run printed, in order. *)
Definition epochs_printed (t : list call) : list Z :=
  omap (λ c, match c with PrintLine (EpochLoss ep _) => Some ep | _ => None end) t.

(** Every call of the computation satisfies [P]. *)
Definition calls_only {E A} (P : E → Prop) (m : M E A) : Prop := Forall P (trace m).

(** The steps of a run never go back, do not start before step [k], and
    make only calls of their own stage. *)
Definition staged {A} (k : nat) (m : M (step * call) A) : Prop :=
  StronglySorted (λ e e', step_index e.1 ≤ step_index e'.1) (trace m)
  ∧ Forall (λ e, k ≤ step_index e.1 ∧ step_calls e.1 e.2 = true) (trace m).

End StepDefs.

(** ** A small environment

    A corpus of a few lines, a tokenizer over a fixed vocabulary and a
    decoder that replays a list of word ids: enough to run every function of
    the script on concrete data. *)

Module Toy.

(** The words of a text, as the Keras tokenizer finds them: split at
    blanks only. [cur] is the word being read. *)
Fixpoint blank_split_from (cur : string) (s : string) : list string :=
  match s with
  | EmptyString => if String.eqb cur "" then [] else [cur]
  | String c r =>
      if Ascii.eqb c " "
      then (if String.eqb cur "" then blank_split_from "" r
            else cur :: blank_split_from "" r)
      else blank_split_from (cur ++ String c "")%string r
  end.

(** Position of [w] in [vocab], counted from 1; unknown words get id 1. *)
Definition word_id (vocab : list string) (w : string) : nat :=
  match list_find (String.eqb w) vocab with
  | Some (i, _) => S i
  | None => 1
  end.

(** Scores that put the largest value at position [k]. *)
Definition scores_for (size k : nat) : tensor3 :=
  [[(λ j, if j =? k then 1 else 0) <$> seq 0 size]].

Definition framework (en_lines fr_lines : list string) (vocab : list string)
    (replay : list nat) (attn : tensor3) : Framework := {|
  Tokenizer := list string;
  Weights := nat;
  EncOuts := unit;
  DecState := nat;
  Score := nat;
  Loss := nat;
  read_data path :=
    if String.eqb path "data/small_vocab_en.txt" then en_lines else fr_lines;
  shuffle seed inds := rev inds;
  shuffle_perm seed inds := Permutation_sym (Permutation_rev inds);
  fit_on_texts texts := vocab;
  texts_to_sequences tk texts :=
    (λ t, word_id tk <$> blank_split_from "" t) <$> texts;
  texts_to_sequences_length tk texts := length_fmap _ texts;
  word_index tk := zip tk (seq 1 (length tk));
  index_word_keys tk := seq 1 (length tk);
  define_nmt _ _ _ _ _ _ := 0;
  train_on_batch w _ _ _ := S w;
  evaluate w _ _ _ _ := w;
  mean losses := foldr Nat.max 0 losses;
  encoder_predict w x := (tt, 0);
  decoder_predict w enc st x :=
    (scores_for (S (length vocab)) (nth st replay 0), attn, S st);
  score_ltb := Nat.ltb;
  path_exists path := false
|}.

Definition vocab : list string := ["UNK"; "a"; "b"; "x"; "y"; "sos"; "eos"].

(** Four sentence pairs; the decoder says "x y" and stops. *)
Definition small : Framework :=
  framework ["a b ."; "b a ."; "a a ."; "b b ."]
    ["x y ."; "y x ."; "x x ."; "y y ."] vocab [4; 5; 0] [[[7; 8; 9]]].

(** A French number written with a no-break space (code point 160) between
    the thousands and the hundreds, as one word of the vocabulary. *)
Definition ten_thousand : string :=
  String "1" (String "0" (String (ascii_of_nat 160) "000")).

Definition numbers_vocab : list string := ["UNK"; ten_thousand].

(** The decoder says that one word and stops. *)
Definition numbers : Framework :=
  framework [] [] numbers_vocab [2; 0] [[[1]]].

(** Three sentences of two, three ids. *)
Definition en3 : array2 nat := Array2 2 [[1; 0]; [0; 1]; [1; 1]].
Definition fr3 : array2 nat := Array2 3 [[1; 0; 1]; [0; 1; 1]; [1; 1; 0]].

End Toy.


(** * Properties *)

(** ** Sentence markers *)

Section Markers.

Lemma wrap_fr_prefix sent : ∃ r, wrap_fr sent = ("sos " ++ r)%string.
Proof. unfold wrap_fr. destruct (PyStr.endswith sent "."); eauto. Qed.

Lemma append_cons c (a b : string) :
  (String c a ++ b)%string = String c (a ++ b)%string.
Proof. reflexivity. Qed.

Lemma append_assoc (a b c : string) :
  ((a ++ b) ++ c)%string = (a ++ (b ++ c))%string.
Proof.
  induction a as [|x a IH]; [reflexivity|].
  by rewrite !append_cons, IH.
Qed.

Lemma wrap_fr_suffix sent : ∃ p, wrap_fr sent = (p ++ "eos .")%string.
Proof.
  unfold wrap_fr. destruct (PyStr.endswith sent ".").
  - exists ("sos " ++ PyStr.drop_last sent)%string.
    by rewrite append_assoc.
  - exists ("sos " ++ sent ++ " ")%string.
    by rewrite !append_assoc.
Qed.

(** The start marker is always a token of its own: it is followed by a
    blank. *)
Lemma wrap_fr_sos sent : ∃ ws, PyStr.split (wrap_fr sent) = "sos" :: ws.
Proof.
  destruct (wrap_fr_prefix sent) as [r ->].
  exists (PyStr.split r). reflexivity.
Qed.

Lemma split_from_end_marker cur s :
  "eos" ∈ PyStr.split_from cur (s ++ " eos .")%string.
Proof.
  revert cur. induction s as [|c s IH]; intros cur.
  - change ("" ++ " eos .")%string with " eos .". simpl.
    destruct (String.eqb cur ""); simpl; set_solver.
  - rewrite append_cons. simpl.
    destruct (PyStr.isspace c); [|apply IH].
    destruct (String.eqb cur ""); [apply IH|].
    apply list_elem_of_further, IH.
Qed.

(** On the branch for sentences without a final full stop the end marker
    is blank-separated, whatever the sentence. *)
Lemma wrap_fr_eos_no_stop sent :
  PyStr.endswith sent "." = false → "eos" ∈ PyStr.split (wrap_fr sent).
Proof.
  intros H. unfold wrap_fr. rewrite H.
  apply list_elem_of_further. apply (split_from_end_marker "" sent).
Qed.

End Markers.

(** C10. Every wrapped French sentence starts with ['sos '] and ends with
    ['eos .'] ([wrap_fr_prefix], [wrap_fr_suffix]), and ['sos'] is a token of
    it ([wrap_fr_sos]); but ['eos'] is not always one. For a sentence that
    ends in a full stop directly after a word, here ["a."], the branch of
    line 24 that strips the stop appends ['eos .'] without a blank: the
    wrapped sentence is ["sos aeos ."], its tokens are ['sos'], ['aeos'] and
    ['.'], and ['eos'] is not among them. The other branch inserts the
    blank. *)
Theorem wrap_fr_fuses_end_marker :
  wrap_fr "a." = "sos aeos ." ∧
  PyStr.split (wrap_fr "a.") = ["sos"; "aeos"; "."] ∧
  "eos" ∉ PyStr.split (wrap_fr "a.").
Proof.
  split; [reflexivity|]. split; [reflexivity|].
  change (PyStr.split (wrap_fr "a.")) with ["sos"; "aeos"; "."].
  rewrite !elem_of_cons, elem_of_nil. intros [H|[H|[H|[]]]]; discriminate H.
Qed.

(** ** Computations *)

Section Computations.

Context {E : Type}.

Lemma bind_pair {A B} (t : list E) (r : result A) (f : A → M E B) :
  ((t, r) : M E A) ≫= f =
  match r with
  | Ok a => (t ++ (f a).1, (f a).2)
  | Raise e => (t, Raise e)
  end.
Proof. reflexivity. Qed.

Lemma bind_ret {A B} (a : A) (f : A → M E B) : (mret a : M E A) ≫= f = f a.
Proof. unfold mret, M_ret. rewrite bind_pair. by destruct (f a). Qed.

Lemma bind_lift {A B} (r : result A) (f : A → M E B) :
  lift r ≫= f = match r with Ok a => f a | Raise e => ([], Raise e) end.
Proof. unfold lift. rewrite bind_pair. destruct r; [by destruct (f a)|done]. Qed.

Lemma bind_raise {A B} (e : exn) (f : A → M E B) :
  raise e ≫= f = ([], Raise e).
Proof. reflexivity. Qed.

Lemma bind_perform {B} (e : E) (k : M E B) : (perform e ;; k) = (e :: k.1, k.2).
Proof. reflexivity. Qed.

Lemma trace_perform {B} (e : E) (k : M E B) :
  trace (perform e ;; k) = e :: trace k.
Proof. reflexivity. Qed.

Lemma outcome_perform {B} (e : E) (k : M E B) :
  outcome (perform e ;; k) = outcome k.
Proof. reflexivity. Qed.

Lemma trace_bind {A B} (m : M E A) (f : A → M E B) :
  trace (m ≫= f) =
  match outcome m with
  | Ok a => trace m ++ trace (f a)
  | Raise _ => trace m
  end.
Proof. destruct m as [t [a|e]]; reflexivity. Qed.

Lemma outcome_bind {A B} (m : M E A) (f : A → M E B) :
  outcome (m ≫= f) =
  match outcome m with
  | Ok a => outcome (f a)
  | Raise e => Raise e
  end.
Proof. destruct m as [t [a|e]]; reflexivity. Qed.

(** A list comprehension over subscripts makes no external call and
    succeeds when every subscript is in range. *)
Lemma mapM_getitem {A} (l : list A) (inds : list nat) :
  Forall (λ i, i < length l) inds →
  ∃ xs, mapM (λ ti, lift (Py.getitem l ti) : M E A) inds = ([], Ok xs)
        ∧ Forall2 (λ i x, l !! i = Some x) inds xs.
Proof.
  induction 1 as [|i inds Hi _ (xs & IH & Hxs)].
  - exists []. split; [reflexivity | constructor].
  - destruct (lookup_lt_is_Some_2 l i Hi) as [x Hx].
    exists (x :: xs). split; [|by constructor].
    cbn [mapM]. rewrite IH, bind_lift.
    unfold Py.getitem. rewrite Hx. reflexivity.
Qed.

End Computations.

(** ** Slices *)

Section Slices.

Context {A : Type}.
Implicit Types l : list A.

Lemma slice_to_nonneg (k : Z) l :
  (0 ≤ k)%Z → PySeq.slice None (Some k) l = take (Z.to_nat k) l.
Proof.
  intros Hk. unfold PySeq.slice, PySeq.bound. simpl.
  destruct (Z.ltb_spec k 0); [lia|].
  rewrite Nat.sub_0_r, drop_0.
  destruct (Nat.min_spec (length l) (Z.to_nat k)) as [[? ->]|[? ->]]; [|done].
  by rewrite !take_ge by lia.
Qed.

Lemma slice_from_nonneg (k : Z) l :
  (0 ≤ k)%Z → PySeq.slice (Some k) None l = drop (Z.to_nat k) l.
Proof.
  intros Hk. unfold PySeq.slice, PySeq.bound. simpl.
  destruct (Z.ltb_spec k 0); [lia|].
  rewrite take_ge by (rewrite length_drop; lia).
  destruct (Nat.min_spec (length l) (Z.to_nat k)) as [[? ->]|[? ->]]; [|done].
  by rewrite !drop_ge by lia.
Qed.

(** [l[:-1]] and [l[1:]] *)
Lemma slice_drop_last l :
  PySeq.slice None (Some (-1)%Z) l = take (length l - 1) l.
Proof.
  unfold PySeq.slice, PySeq.bound. simpl.
  rewrite Nat.sub_0_r, drop_0. f_equal. lia.
Qed.

Lemma slice_drop_first l : PySeq.slice (Some 1%Z) None l = drop 1 l.
Proof. by rewrite slice_from_nonneg. Qed.

End Slices.

(** ** [get_data] *)

Section Seeds.

Lemma seed_in_range (s : Z) :
  (0 ≤ s ≤ 4294967295)%Z → Np.seed s = Ok tt.
Proof.
  intros Hs. unfold Np.seed.
  destruct (Z.leb_spec 0 s); [|lia].
  destruct (Z.leb_spec s 4294967295); [done | lia].
Qed.

Lemma seed_out_of_range (s : Z) :
  ¬ (0 ≤ s ≤ 4294967295)%Z → Np.seed s = Raise ValueError.
Proof.
  intros Hs. unfold Np.seed.
  destruct (Z.leb_spec 0 s); [|done].
  destruct (Z.leb_spec s 4294967295); [lia | done].
Qed.

End Seeds.

Section GetData.

Context `{F : Framework}.

(** C9, as the code has it. For a corpus of [N] parallel sentences, a
    training size between 0 and [N] and a seed that [np.random.seed] takes
    (0 to [2**32 - 1]), [get_data] returns [train_size] training pairs and
    [N - train_size] test pairs; they are read at two lists of corpus
    positions that are disjoint and together are all of [0 .. N-1]; and the
    English and the (wrapped) French sentence at the same place of the
    result come from the same corpus position. *)
Theorem get_data_split (N : nat) (train_size random_seed : Z) :
  length (read_data "data/small_vocab_en.txt") = N →
  length (read_data "data/small_vocab_fr.txt") = N →
  (0 ≤ train_size ≤ Z.of_nat N)%Z →
  (0 ≤ random_seed ≤ 4294967295)%Z →
  ∃ tr_en_text tr_fr_text ts_en_text ts_fr_text train_inds test_inds,
    outcome (get_data train_size random_seed)
      = Ok (tr_en_text, tr_fr_text, ts_en_text, ts_fr_text)
    ∧ length tr_en_text = Z.to_nat train_size
    ∧ length tr_fr_text = Z.to_nat train_size
    ∧ length ts_en_text = N - Z.to_nat train_size
    ∧ length ts_fr_text = N - Z.to_nat train_size
    ∧ (∀ i, i ∈ train_inds → i ∉ test_inds)
    ∧ (∀ i, i < N ↔ i ∈ train_inds ∨ i ∈ test_inds)
    ∧ NoDup (train_inds ++ test_inds)
    ∧ Forall2 (λ i s, read_data "data/small_vocab_en.txt" !! i = Some s)
        train_inds tr_en_text
    ∧ Forall2 (λ i s, wrap_fr <$> read_data "data/small_vocab_fr.txt" !! i = Some s)
        train_inds tr_fr_text
    ∧ Forall2 (λ i s, read_data "data/small_vocab_en.txt" !! i = Some s)
        test_inds ts_en_text
    ∧ Forall2 (λ i s, wrap_fr <$> read_data "data/small_vocab_fr.txt" !! i = Some s)
        test_inds ts_fr_text.
Proof.
  intros Hen Hfr Hsize Hseed.
  set (en_text := read_data "data/small_vocab_en.txt") in *.
  set (fr_text := read_data "data/small_vocab_fr.txt") in *.
  set (inds := shuffle random_seed (seq 0 N)).
  set (k := Z.to_nat train_size).
  assert (Hperm : inds ≡ₚ seq 0 N) by apply shuffle_perm.
  assert (Hsplit : take k inds ++ drop k inds = inds) by apply take_drop.
  assert (Hlt : Forall (λ i, i < N) inds).
  { rewrite Hperm. apply Forall_forall. intros i Hi%elem_of_seq. lia. }
  assert (Hlen : length inds = N) by (by rewrite Hperm, length_seq).
  assert (Htr : Forall (λ i, i < N) (take k inds)) by by apply Forall_take.
  assert (Hts : Forall (λ i, i < N) (drop k inds)) by by apply Forall_drop.
  destruct (mapM_getitem (E:=call) en_text (take k inds))
    as (tr_en & Etr_en & Htr_en); [by rewrite Hen|].
  destruct (mapM_getitem (E:=call) (wrap_fr <$> fr_text) (take k inds))
    as (tr_fr & Etr_fr & Htr_fr); [by rewrite length_fmap, Hfr|].
  destruct (mapM_getitem (E:=call) en_text (drop k inds))
    as (ts_en & Ets_en & Hts_en); [by rewrite Hen|].
  destruct (mapM_getitem (E:=call) (wrap_fr <$> fr_text) (drop k inds))
    as (ts_fr & Ets_fr & Hts_fr); [by rewrite length_fmap, Hfr|].
  exists tr_en, tr_fr, ts_en, ts_fr, (take k inds), (drop k inds).
  split.
  { unfold get_data. fold en_text fr_text. rewrite Hen. fold inds.
    rewrite slice_to_nonneg, slice_from_nonneg by lia. fold k.
    unfold print. rewrite !outcome_perform, (seed_in_range _ Hseed), bind_lift.
    cbv beta iota. rewrite outcome_perform.
    rewrite Etr_en, bind_pair, Etr_fr, bind_pair, Ets_en, bind_pair,
      Ets_fr, bind_pair. reflexivity. }
  assert (Hk : length (take k inds) = k) by (rewrite length_take; lia).
  assert (Hd : length (drop k inds) = N - k) by (rewrite length_drop; lia).
  assert (Hnd : NoDup (take k inds ++ drop k inds)).
  { rewrite Hsplit, Hperm. apply NoDup_seq. }
  split; [by rewrite <- (Forall2_length _ _ _ Htr_en)|].
  split; [by rewrite <- (Forall2_length _ _ _ Htr_fr)|].
  split; [by rewrite <- (Forall2_length _ _ _ Hts_en)|].
  split; [by rewrite <- (Forall2_length _ _ _ Hts_fr)|].
  split.
  { intros i Hi1 Hi2. apply NoDup_app in Hnd as (_ & Hdis & _).
    by apply (Hdis i). }
  split.
  { intros i. rewrite <- elem_of_app, Hsplit, Hperm, elem_of_seq. lia. }
  split; [done|].
  split; [done|].
  split.
  { eapply Forall2_impl; [exact Htr_fr|]. intros i s H. simpl in H.
    by rewrite list_lookup_fmap in H. }
  split; [done|].
  eapply Forall2_impl; [exact Hts_fr|]. intros i s H. simpl in H.
  by rewrite list_lookup_fmap in H.
Qed.

End GetData.

(** ** [preprocess_data] *)

Section Preprocess.

Context `{F : Framework}.

Lemma pad_row_length padding_type maxlen s :
  length (pad_row padding_type maxlen s) = maxlen.
Proof.
  unfold pad_row. destruct padding_type;
    rewrite length_app, length_replicate, length_drop; lia.
Qed.

Lemma sents2sequences_shape tk sentences reverse padding_type maxlen :
  Np.shape (sents2sequences tk sentences reverse padding_type (Some maxlen))
    = (length sentences, maxlen).
Proof.
  unfold Np.shape, sents2sequences. simpl. f_equal.
  destruct reverse; rewrite ?length_fmap; apply texts_to_sequences_length.
Qed.

Lemma sents2sequences_rectangular tk sentences reverse padding_type pad_length :
  rectangular (sents2sequences tk sentences reverse padding_type pad_length).
Proof.
  unfold rectangular, sents2sequences. simpl.
  destruct reverse; rewrite ?Forall_fmap; apply Forall_forall; intros s _;
    simpl; rewrite ?length_rev; apply pad_row_length.
Qed.

(** A rectangular array with a row and a column has a largest element. *)
Lemma np_max_defined (a : array2 nat) :
  rectangular a → 0 < length (rows a) → 0 < ncols a → ∃ m, Np.max a = Ok m.
Proof.
  unfold rectangular, Np.max, Np.ravel.
  destruct a as [n [|r rs]]; simpl; intros Hrect Hrows Hcols; [lia|].
  apply Forall_cons_1 in Hrect as [Hr _].
  destruct r as [|x r]; simpl in *; [lia|]. eauto.
Qed.

(** C6, as the code has it. For non-empty sentence lists and positive
    timestep lengths, [preprocess_data] returns two arrays of ids with one
    row per sentence, the English one with [en_timesteps] columns and the
    French one with [fr_timesteps] columns: every row has exactly that many
    ids. *)
Theorem preprocess_data_shape (en_tokenizer fr_tokenizer : Tokenizer)
    (en_text fr_text : list string) (en_timesteps fr_timesteps : nat) :
  en_text ≠ [] → fr_text ≠ [] → 0 < en_timesteps → 0 < fr_timesteps →
  ∃ en_seq fr_seq,
    outcome (preprocess_data en_tokenizer fr_tokenizer en_text fr_text
               en_timesteps fr_timesteps) = Ok (en_seq, fr_seq)
    ∧ Np.shape en_seq = (length en_text, en_timesteps)
    ∧ Np.shape fr_seq = (length fr_text, fr_timesteps)
    ∧ Forall (λ r, length r = en_timesteps) (rows en_seq)
    ∧ Forall (λ r, length r = fr_timesteps) (rows fr_seq).
Proof.
  intros Hen Hfr Hten Htfr.
  set (en_seq := sents2sequences en_tokenizer en_text false Pre (Some en_timesteps)).
  set (fr_seq := sents2sequences fr_tokenizer fr_text false Post (Some fr_timesteps)).
  assert (Sen : Np.shape en_seq = (length en_text, en_timesteps))
    by apply sents2sequences_shape.
  assert (Sfr : Np.shape fr_seq = (length fr_text, fr_timesteps))
    by apply sents2sequences_shape.
  assert (Ren : rectangular en_seq) by apply sents2sequences_rectangular.
  assert (Rfr : rectangular fr_seq) by apply sents2sequences_rectangular.
  unfold Np.shape in Sen, Sfr.
  apply pair_equal_spec in Sen as [Sen1 Sen2].
  apply pair_equal_spec in Sfr as [Sfr1 Sfr2].
  destruct (np_max_defined en_seq) as [m1 Hm1]; [done| |lia|].
  { rewrite Sen1. destruct en_text; [done | simpl; lia]. }
  destruct (np_max_defined fr_seq) as [m2 Hm2]; [done| |lia|].
  { rewrite Sfr1. destruct fr_text; [done | simpl; lia]. }
  exists en_seq, fr_seq. split.
  { unfold preprocess_data. fold en_seq fr_seq.
    rewrite Hm1, bind_lift. unfold print. rewrite bind_perform.
    rewrite Hm2, bind_lift. rewrite !bind_perform. reflexivity. }
  unfold Np.shape. rewrite Sen1, Sen2, Sfr1, Sfr2.
  repeat split; [by rewrite <- Sen2 | by rewrite <- Sfr2].
Qed.

End Preprocess.

(** ** [train] *)

Section Loops.

Context {E X S : Type}.
Implicit Types (body : X → S → M E S) (P : E → Prop).

Lemma for_each_cons body x xs s :
  for_each (x :: xs) body s = body x s ≫= for_each xs body.
Proof. reflexivity. Qed.

Lemma for_each_trace_Forall P body xs s :
  (∀ x s, Forall P (trace (body x s))) →
  Forall P (trace (for_each xs body s)).
Proof.
  intros Hbody. revert s. induction xs as [|x xs IH]; intros s.
  - constructor.
  - rewrite for_each_cons, trace_bind.
    destruct (outcome (body x s)); [|apply Hbody].
    apply Forall_app. split; [apply Hbody | apply IH].
Qed.

Lemma for_each_ok_cons body x xs s s' :
  outcome (for_each (x :: xs) body s) = Ok s' →
  ∃ s1, outcome (body x s) = Ok s1
        ∧ outcome (for_each xs body s1) = Ok s'
        ∧ trace (for_each (x :: xs) body s)
            = trace (body x s) ++ trace (for_each xs body s1).
Proof.
  rewrite for_each_cons, outcome_bind, trace_bind.
  destruct (outcome (body x s)) as [s1|e]; [|done].
  intros H. by exists s1.
Qed.

End Loops.

Section Train.

Context `{F : Framework}.
Variables (en_seq fr_seq : array2 nat) (batch_size : Z) (en_vsize fr_vsize : nat).

Abbreviation tensors_at := (batch_tensors en_seq fr_seq batch_size en_vsize fr_vsize).
Abbreviation body := (train_batch en_seq fr_seq batch_size en_vsize fr_vsize).

(** One pass through the loop body: the two calls on the tensors of the
    batch, when they can be computed. *)
Lemma train_batch_run bi w losses :
  body bi (w, losses) =
  match tensors_at bi with
  | Ok b =>
      let w' := train_on_batch w b.1.1 b.1.2 b.2 in
      (batch_calls b,
       Ok (w', losses ++ [evaluate w' b.1.1 b.1.2 b.2 batch_size]))
  | Raise e => ([], Raise e)
  end.
Proof.
  unfold train_batch, batch_tensors.
  destruct (to_categorical (Np.slice_rows _ _ en_seq) _) as [en|e];
    rewrite bind_lift; cbn [mbind result_bind]; [|done].
  destruct (to_categorical (Np.slice_rows _ _ fr_seq) _) as [fr|e];
    rewrite bind_lift; cbn [mbind result_bind]; [|done].
  destruct (slice_time None _ fr) as [dec|e];
    rewrite bind_lift; cbn [mbind result_bind]; [|done].
  destruct (slice_time (Some _) _ fr) as [tgt|e];
    rewrite bind_lift; cbn [mbind result_bind]; [|done].
  reflexivity.
Qed.

Lemma train_batches_run bis st st' :
  outcome (for_each bis body st) = Ok st' →
  ∃ bs, mapM tensors_at bis = Ok bs
        ∧ trace (for_each bis body st) = concat (batch_calls <$> bs).
Proof.
  revert st. induction bis as [|bi bis IH]; intros [w losses] Hok.
  - by exists [].
  - apply for_each_ok_cons in Hok as (s1 & H1 & Hrest & ->).
    rewrite train_batch_run in H1 |- *.
    destruct (tensors_at bi) as [b|e] eqn:Hb; [|done].
    apply IH in Hrest as (bs & Hbs & ->).
    exists (b :: bs). split; [|reflexivity].
    cbn [mapM]. rewrite Hb. simpl. by rewrite Hbs.
Qed.

End Train.

Section Binds.

Context {E : Type}.

Lemma bind_ok_inv {A B} (m : M E A) (f : A → M E B) (b : B) :
  outcome (m ≫= f) = Ok b →
  ∃ a, outcome m = Ok a ∧ outcome (f a) = Ok b
       ∧ trace (m ≫= f) = trace m ++ trace (f a).
Proof.
  rewrite outcome_bind, trace_bind.
  destruct (outcome m) as [a|e]; [|done]. intros H. by exists a.
Qed.

Lemma mapM_result_Forall2 {A B} (f : A → result B) (l : list A) (ys : list B) :
  mapM f l = Ok ys → Forall2 (λ x y, f x = Ok y) l ys.
Proof.
  revert ys. induction l as [|x l IH]; intros ys; cbn [mapM].
  - intros [= <-]. constructor.
  - destruct (f x) as [y|e] eqn:Hx; [|done]. cbn [mbind result_bind].
    destruct (mapM f l) as [ys'|e]; [|done]. cbn [mbind result_bind].
    intros [= <-]. constructor; [done | by apply IH].
Qed.

End Binds.

(** ** Batches *)

Section Windows.

Context {A : Type}.
Implicit Types l : list A.

(** A slice between two non-negative bounds inside the list. *)
Lemma slice_window l (i b : nat) :
  i * b + b ≤ length l →
  PySeq.slice (Some (Z.of_nat (i * b))) (Some (Z.of_nat (i * b) + Z.of_nat b)%Z) l
    = take b (drop (i * b) l).
Proof.
  intros Hle. unfold PySeq.slice, PySeq.bound. simpl.
  destruct (Z.ltb_spec (Z.of_nat (i * b)) 0); [lia|].
  destruct (Z.ltb_spec (Z.of_nat (i * b) + Z.of_nat b) 0); [lia|].
  rewrite Nat2Z.id, <- Nat2Z.inj_add, Nat2Z.id.
  rewrite !Nat.min_r by lia. f_equal. lia.
Qed.

Lemma window_length l (i b : nat) :
  i * b + b ≤ length l → length (take b (drop (i * b) l)) = b.
Proof. intros Hle. rewrite length_take, length_drop. lia. Qed.

(** Consecutive windows of [b] elements tile a prefix of the list. *)
Lemma windows_tile l (b k : nat) :
  concat ((λ i, take b (drop (i * b) l)) <$> seq 0 k) = take (k * b) l.
Proof.
  induction k as [|k IH]; [done|].
  rewrite seq_S, fmap_app, concat_app, IH. simpl.
  rewrite app_nil_r, take_take_drop. f_equal. lia.
Qed.

End Windows.

Lemma range_count_batches (N : nat) (batch_size : Z) :
  (0 < batch_size)%Z →
  PySeq.range_count (Z.of_nat N - batch_size) batch_size
    = (N - 1) / Z.to_nat batch_size.
Proof.
  intros Hb. unfold PySeq.range_count.
  set (b := Z.to_nat batch_size).
  assert (Hb' : batch_size = Z.of_nat b) by lia.
  destruct (Z.leb_spec (Z.of_nat N - batch_size) 0) as [Hle|Hgt].
  - symmetry. apply Nat.div_small. lia.
  - replace (Z.of_nat N - batch_size + batch_size - 1)%Z
      with (Z.of_nat (N - 1)) by lia.
    rewrite Hb', <- Nat2Z.inj_div. apply Nat2Z.id.
Qed.

Lemma batches_full (N b : nat) :
  0 < b → ∀ i, i < (N - 1) / b → i * b + b ≤ N.
Proof.
  intros Hb i Hi.
  assert (H1 : b * ((N - 1) / b) ≤ N - 1) by apply Nat.Div0.mul_div_le.
  destruct N as [|N]; [rewrite Nat.div_small in Hi; lia|]. nia.
Qed.

Lemma batches_drop_incomplete (N b : nat) :
  0 < b → N `mod` b ≠ 0 → (N - 1) / b * b = N - N `mod` b.
Proof.
  intros Hb Hmod.
  assert (Hdiv : N = b * (N / b) + N `mod` b) by (apply Nat.div_mod; lia).
  assert (Hlt : N `mod` b < b) by (apply Nat.mod_upper_bound; lia).
  assert (Hq : (N - 1) / b = N / b).
  { symmetry. apply (Nat.div_unique _ _ _ (N `mod` b - 1)); lia. }
  rewrite Hq. lia.
Qed.

Section TrainRuns.

Context `{F : Framework}.
Variables (en_seq fr_seq : array2 nat) (batch_size : Z) (en_vsize fr_vsize : nat).

Abbreviation batch_at := (batch_tensors en_seq fr_seq batch_size en_vsize fr_vsize).
Abbreviation epoch := (train_epoch en_seq fr_seq batch_size en_vsize fr_vsize).

Lemma filter_batch_calls bs :
  List.filter is_batch_call (concat (batch_calls <$> bs)) = concat (batch_calls <$> bs).
Proof.
  induction bs as [|b bs IH]; [done|].
  rewrite fmap_cons. cbn [concat batch_calls app List.filter is_batch_call].
  by rewrite IH.
Qed.

(** One epoch that runs to its end visits the starts [0, batch_size, ...]
    below [N - batch_size] and makes the two model calls of each batch, in
    order, before it prints the mean loss. *)
Lemma train_epoch_run ep w w' :
  outcome (epoch ep w) = Ok w' →
  ∃ bis bs,
    Py.range (Z.of_nat (length (rows en_seq)) - batch_size) batch_size = Ok bis
    ∧ mapM batch_at bis = Ok bs
    ∧ List.filter is_batch_call (trace (epoch ep w)) = concat (batch_calls <$> bs).
Proof.
  unfold train_epoch.
  change (Np.shape en_seq).1 with (length (rows en_seq)).
  destruct (Py.range _ batch_size) as [bis|e]; rewrite bind_lift; [|done].
  intros Hok. apply bind_ok_inv in Hok as ([w1 losses] & Hloop & Hrest & ->).
  apply train_batches_run in Hloop as (bs & Hbs & ->).
  exists bis, bs. split; [done|]. split; [done|].
  rewrite List.filter_app, filter_batch_calls.
  replace ((ep + 1) `mod` 1 =? 0)%Z with true by (rewrite Z.mod_1_r; done).
  simpl. by rewrite app_nil_r.
Qed.

Lemma train_epochs_run eps w w' :
  outcome (for_each eps epoch w) = Ok w' →
  ∃ epochs : list (list batch),
    length epochs = length eps
    ∧ List.filter is_batch_call (trace (for_each eps epoch w))
        = concat ((λ bs, concat (batch_calls <$> bs)) <$> epochs)
    ∧ Forall (λ bs, ∃ bis,
        Py.range (Z.of_nat (length (rows en_seq)) - batch_size) batch_size = Ok bis
        ∧ mapM batch_at bis = Ok bs) epochs.
Proof.
  revert w. induction eps as [|ep eps IH]; intros w Hok.
  - by exists [].
  - apply for_each_ok_cons in Hok as (w1 & H1 & Hrest & ->).
    apply train_epoch_run in H1 as (bis & bs & Hbis & Hbs & Htr).
    apply IH in Hrest as (epochs & Hlen & Htrs & Hall).
    exists (bs :: epochs). split; [simpl; by rewrite Hlen|].
    split; [rewrite List.filter_app, Htr, Htrs; done|].
    constructor; [by exists bis | done].
Qed.

(** Every model call of [train], whether or not the run reaches its end, is
    made on the tensors of some batch. *)
Lemma train_calls_on_batches full_model n_epochs :
  Forall (λ c, is_batch_call c = true → ∃ bi b, batch_at bi = Ok b ∧ c ∈ batch_calls b)
    (trace (train full_model en_seq fr_seq batch_size n_epochs en_vsize fr_vsize)).
Proof.
  unfold train. destruct (Py.range n_epochs 1) as [eps|e]; rewrite bind_lift;
    [|constructor].
  apply for_each_trace_Forall. intros ep w. unfold train_epoch.
  destruct (Py.range _ batch_size) as [bis|e]; rewrite bind_lift; [|constructor].
  rewrite trace_bind.
  assert (Hloop : ∀ st, Forall
    (λ c, is_batch_call c = true → ∃ bi b, batch_at bi = Ok b ∧ c ∈ batch_calls b)
    (trace (for_each bis
       (train_batch en_seq fr_seq batch_size en_vsize fr_vsize) st))).
  { intros st. apply for_each_trace_Forall. intros bi [w0 losses].
    rewrite train_batch_run. destruct (batch_at bi) as [b|e] eqn:Hb; [|constructor].
    apply Forall_forall. intros c Hc _. by exists bi, b. }
  destruct (outcome _) as [[w1 losses]|e]; [|apply Hloop].
  apply Forall_app. split; [apply Hloop|].
  replace ((ep + 1) `mod` 1 =? 0)%Z with true by (rewrite Z.mod_1_r; done).
  repeat constructor. discriminate.
Qed.

End TrainRuns.

Section TrainClaims.

Context `{F : Framework}.
Variables (en_seq fr_seq : array2 nat) (batch_size n_epochs : Z).
Variables (en_vsize fr_vsize : nat).

Lemma batch_tensors_shift bi b :
  batch_tensors en_seq fr_seq batch_size en_vsize fr_vsize bi = Ok b →
  ∃ fr_onehot_seq,
    to_categorical (Np.slice_rows (Some bi) (Some (bi + batch_size)%Z) fr_seq)
      fr_vsize = Ok (Cat3 fr_onehot_seq)
    ∧ b.1.2 = (λ sent, take (length sent - 1) sent) <$> fr_onehot_seq
    ∧ b.2 = drop 1 <$> fr_onehot_seq.
Proof.
  unfold batch_tensors.
  destruct (to_categorical (Np.slice_rows _ _ en_seq) _) as [en|e];
    cbn [mbind result_bind]; [|done].
  destruct (to_categorical (Np.slice_rows _ _ fr_seq) _) as [[fr|fr]|e];
    cbn [mbind result_bind slice_time]; [|done..].
  intros [= <-]. exists fr. split; [done|]. simpl. split.
  - apply list_fmap_ext. intros _ sent _. apply slice_drop_last.
  - apply list_fmap_ext. intros _ sent _. apply slice_drop_first.
Qed.

(** C5. Whenever [train] calls [train_on_batch], the decoder input is the
    one-hot French batch without its last timestep and the target is the
    same batch without its first timestep; so in every sentence of the batch
    the target at timestep [t] is the decoder input at timestep [t + 1]. *)
Theorem train_teacher_forcing (full_model : Weights) (enc : categorical)
    (dec target : tensor3) :
  TrainOnBatch enc dec target
    ∈ trace (train full_model en_seq fr_seq batch_size n_epochs en_vsize fr_vsize) →
  ∃ bi fr_onehot_seq,
    to_categorical (Np.slice_rows (Some bi) (Some (bi + batch_size)%Z) fr_seq)
      fr_vsize = Ok (Cat3 fr_onehot_seq)
    ∧ dec = (λ sent, take (length sent - 1) sent) <$> fr_onehot_seq
    ∧ target = drop 1 <$> fr_onehot_seq
    ∧ ∀ s d g, dec !! s = Some d → target !! s = Some g →
        ∀ t, t + 1 < length d → g !! t = d !! (t + 1).
Proof.
  intros Hin.
  pose proof (train_calls_on_batches en_seq fr_seq batch_size en_vsize fr_vsize
                full_model n_epochs) as Hall.
  rewrite Forall_forall in Hall.
  destruct (Hall _ Hin eq_refl) as (bi & b & Hb & Hc).
  apply batch_tensors_shift in Hb as (fr & Hfr & Hdec & Htgt).
  unfold batch_calls in Hc. rewrite !elem_of_cons, elem_of_nil in Hc.
  destruct Hc as [[= -> -> ->]|[[=]|[]]].
  exists bi, fr. split; [done|]. split; [done|]. split; [done|].
  intros s d g Hd Hg t Ht. rewrite Hdec in Hd. rewrite Htgt in Hg.
  rewrite list_lookup_fmap in Hd, Hg.
  destruct (fr !! s) as [sent|]; [|done]. simpl in Hd, Hg.
  injection Hd as <-. injection Hg as <-.
  rewrite lookup_drop, lookup_take_lt; [f_equal; lia|].
  rewrite length_take in Ht. lia.
Qed.

(** C4, as the code has it. In a run of [train] with a positive batch size
    that reaches its end, each of the [n_epochs] epochs calls
    [train_on_batch] and then [evaluate] once per batch, in order, for the
    same [k] batches. Batch [i] holds the rows [i batch_size] to
    [(i + 1) batch_size - 1]: exactly [batch_size] rows, consecutive and
    disjoint; together the batches are the first [k batch_size] rows, and
    when the number [N] of rows is not a multiple of [batch_size] they leave
    out exactly the [N mod batch_size] rows of the last, incomplete batch. *)
Theorem train_batches (full_model w' : Weights) :
  (0 < batch_size)%Z →
  outcome (train full_model en_seq fr_seq batch_size n_epochs en_vsize fr_vsize)
    = Ok w' →
  let N := length (rows en_seq) in
  let b := Z.to_nat batch_size in
  let window i := take b (drop (i * b) (rows en_seq)) in
  ∃ (k : nat)
    (epochs : list (list batch)),
    k * b ≤ N
    ∧ (N `mod` b ≠ 0 → k * b = N - N `mod` b)
    ∧ length epochs = Z.to_nat n_epochs
    ∧ List.filter is_batch_call
        (trace (train full_model en_seq fr_seq batch_size n_epochs en_vsize fr_vsize))
      = concat ((λ bs, concat (batch_calls <$> bs)) <$> epochs)
    ∧ Forall (λ bs,
        Forall2 (λ i bt,
          batch_tensors en_seq fr_seq batch_size en_vsize fr_vsize
            (Z.of_nat (i * b)) = Ok bt) (seq 0 k) bs) epochs
    ∧ (∀ i, i < k →
         rows (Np.slice_rows (Some (Z.of_nat (i * b)))
                 (Some (Z.of_nat (i * b) + batch_size)%Z) en_seq) = window i
         ∧ length (window i) = b)
    ∧ concat (window <$> seq 0 k) = take (k * b) (rows en_seq).
Proof.
  intros Hb Hok N b window.
  assert (Hb' : batch_size = Z.of_nat b) by (unfold b; lia).
  assert (Hbpos : 0 < b) by (unfold b; lia).
  set (k := (N - 1) / b).
  unfold train in Hok |- *.
  destruct (Py.range n_epochs 1) as [eps|e] eqn:Heps;
    rewrite bind_lift in Hok |- *; [|done].
  apply train_epochs_run in Hok as (epochs & Hlen & Htr & Hall).
  exists k, epochs. split.
  { pose proof (Nat.Div0.mul_div_le (N - 1) b). unfold k. lia. }
  split; [by apply batches_drop_incomplete|].
  split.
  { rewrite Hlen. unfold Py.range in Heps. simpl in Heps.
    injection Heps as <-. unfold PySeq.range_pos, PySeq.range_count.
    rewrite length_fmap, length_seq.
    destruct (Z.leb_spec n_epochs 0); [lia|].
    replace (n_epochs + 1 - 1)%Z with n_epochs by lia. by rewrite Z.div_1_r. }
  split; [done|]. split.
  { eapply Forall_impl; [exact Hall|]. intros bs (bis & Hbis & Hbs).
    unfold Py.range in Hbis.
    destruct (Z.eqb_spec batch_size 0); [lia|].
    destruct (Z.ltb_spec 0 batch_size); [|lia].
    injection Hbis as <-. apply mapM_result_Forall2 in Hbs.
    unfold PySeq.range_pos in Hbs. rewrite range_count_batches in Hbs by done.
    apply Forall2_fmap_l in Hbs. eapply Forall2_impl; [exact Hbs|].
    intros i bt Hbt. simpl in Hbt. by rewrite Nat2Z.inj_mul, <- Hb'. }
  split; [|apply windows_tile].
  intros i Hi. pose proof (batches_full N b Hbpos i Hi) as Hfull.
  split; [|by apply window_length].
  unfold Np.slice_rows. simpl. rewrite Hb'. by apply slice_window.
Qed.

End TrainClaims.

(** ** [infer_nmt] *)


Section Decode.

Context `{F : Framework}.
Variables (decoder_model : Weights) (enc_outs : EncOuts) (fr_vsize : nat).
Variables (fr_tokenizer : Tokenizer) (fr_index2word : gmap nat string).

Abbreviation dstep :=
  (decode_step decoder_model enc_outs fr_vsize fr_tokenizer fr_index2word).

Lemma append_nil_r (s : string) : (s ++ "")%string = s.
Proof. induction s as [|c s IH]; [done|]. by rewrite append_cons, IH. Qed.

Lemma join_words_app ws1 ws2 :
  join_words (ws1 ++ ws2) = (join_words ws1 ++ join_words ws2)%string.
Proof.
  induction ws1 as [|w ws1 IH]; [done|].
  cbn [join_words foldr app]. fold (join_words (ws1 ++ ws2)). fold (join_words ws1).
  by rewrite IH, !append_assoc.
Qed.

Lemma decode_log_predict x out t :
  decode_log ([DecoderPredict x out] ++ t)
    = (argmax00 out.1.1, out.1.2) :: decode_log t.
Proof. reflexivity. Qed.

(** One decode step makes one decoder call; it breaks on word id 0 without
    recording anything, and otherwise records the id with the attention and
    appends the word and a blank. *)
Lemma decode_step_run i st x aw text :
  ∃ out,
    trace (dstep i (st, x, aw, text)) = [DecoderPredict x out]
    ∧ match outcome (dstep i (st, x, aw, text)) with
      | Ok (Break (_, _, aw', text')) =>
          argmax00 out.1.1 = Ok 0 ∧ aw' = aw ∧ text' = text
      | Ok (Continue (_, _, aw', text')) =>
          ∃ id w, argmax00 out.1.1 = Ok id ∧ id ≠ 0
                  ∧ fr_index2word !! id = Some w
                  ∧ aw' = aw ++ [(id, out.1.2)]
                  ∧ text' = (text ++ w ++ " ")%string
      | Raise _ => True
      end.
Proof.
  unfold decode_step.
  destruct (decoder_predict decoder_model enc_outs st x)
    as [[dec_out attn] st'] eqn:Hout.
  exists (dec_out, attn, st'). rewrite bind_perform. cbn [fst snd].
  destruct (argmax00 dec_out) as [dec_ind|e] eqn:Hind; rewrite bind_lift;
    [|done].
  destruct (Nat.eqb_spec dec_ind 0) as [->|Hne]; [done|].
  unfold Py.lookup_key.
  destruct (fr_index2word !! dec_ind) as [w|] eqn:Hw; rewrite bind_lift;
    [|done].
  destruct (to_categorical _ fr_vsize) as [c|e]; cbn [fmap result_fmap];
    rewrite bind_lift; [|done].
  split; [done|]. cbn [outcome snd mret M_ret]. by exists dec_ind, w.
Qed.

Lemma decode_loop_run xs st x aw text :
  length (decode_log (trace (for_each_break xs dstep (st, x, aw, text))))
    ≤ length xs
  ∧ ∀ st' x' aw' text',
      outcome (for_each_break xs dstep (st, x, aw, text))
        = Ok (st', x', aw', text') →
      ∃ new words,
        aw' = aw ++ new
        ∧ Forall (λ p, p.1 ≠ 0) new
        ∧ Forall2 (λ p w, fr_index2word !! p.1 = Some w) new words
        ∧ text' = (text ++ join_words words)%string
        ∧ ((∃ a, decode_log (trace (for_each_break xs dstep (st, x, aw, text)))
                   = recorded new ++ [(Ok 0, a)]
                 ∧ length new < length xs)
           ∨ (decode_log (trace (for_each_break xs dstep (st, x, aw, text)))
                = recorded new
              ∧ length new = length xs)).
Proof.
  revert st x aw text. induction xs as [|i xs IH]; intros st x aw text.
  { split; [simpl; lia|]. intros st' x' aw' text' [= <- <- <- <-].
    exists [], []. rewrite app_nil_r, append_nil_r.
    split; [done|]. split; [constructor|]. split; [constructor|].
    split; [done|]. by right. }
  cbn [for_each_break].
  destruct (decode_step_run i st x aw text) as (out & Htr & Hout).
  rewrite trace_bind, outcome_bind.
  destruct (dstep i (st, x, aw, text)) as [t [[[[[st1 x1] aw1] text1]|[[[st1 x1] aw1] text1]]|e]];
    cbn [trace outcome fst snd] in *; subst t.
  - (* continue *)
    destruct Hout as (id & w & Hid & Hne & Hw & -> & ->).
    destruct (IH st1 x1 (aw ++ [(id, out.1.2)]) (text ++ w ++ " ")%string)
      as [Hlen Hok].
    split.
    { rewrite decode_log_predict. simpl. lia. }
    intros st' x' aw' text' Hrun.
    destruct (Hok _ _ _ _ Hrun) as (new & words & -> & Hnz & Hws & -> & Hlog).
    exists ((id, out.1.2) :: new), (w :: words).
    split; [by rewrite <- app_assoc|].
    split; [by constructor|]. split; [by constructor|].
    split.
    { cbn [join_words foldr]. fold (join_words words).
      by rewrite !append_assoc. }
    rewrite decode_log_predict, Hid. unfold recorded. rewrite fmap_cons.
    fold (recorded new). cbn [fst snd length].
    destruct Hlog as [(a & -> & Hlt)|[-> Hlt]]; [left|right].
    + exists a. split; [done | lia].
    + split; [done | lia].
  - (* break *)
    destruct Hout as (Hid & -> & ->).
    split; [simpl; lia|].
    intros st' x' aw' text' [= <- <- <- <-].
    exists [], []. rewrite app_nil_r, append_nil_r.
    split; [done|]. split; [constructor|]. split; [constructor|].
    split; [done|].
    left. exists out.1.2. cbn. rewrite Hid. split; [done | lia].
  - split; [simpl; lia | done].
Qed.

End Decode.

Section Tokens.

Lemma split_from_token cur w s :
  PyStr.no_space w = true →
  PyStr.split_from cur (w ++ s)%string = PyStr.split_from (cur ++ w)%string s.
Proof.
  revert cur. induction w as [|c w IH]; intros cur Hw.
  - by rewrite append_nil_r.
  - cbn [PyStr.no_space] in Hw. apply andb_true_iff in Hw as [Hc Hw].
    rewrite append_cons. cbn [PyStr.split_from].
    destruct (PyStr.isspace c); [done|].
    rewrite IH by done. by rewrite append_assoc.
Qed.

Lemma split_from_blank cur s :
  cur ≠ "" →
  PyStr.split_from cur (" " ++ s)%string = cur :: PyStr.split_from "" s.
Proof.
  intros Hcur. change (" " ++ s)%string with (String " " s).
  cbn [PyStr.split_from]. change (PyStr.isspace " ") with true.
  destruct (String.eqb_spec cur ""); done.
Qed.

(** Words that are tokens are what [split] finds in their blank-separated
    concatenation. *)
Lemma split_join_words ws :
  Forall (λ w, PyStr.is_token w = true) ws →
  PyStr.split (join_words ws) = ws.
Proof.
  unfold PyStr.split. induction 1 as [|w ws Hw _ IH]; [done|].
  apply andb_true_iff in Hw as [Hne Hns].
  cbn [join_words foldr]. fold (join_words ws).
  rewrite split_from_token by done.
  change ("" ++ w)%string with w.
  rewrite split_from_blank, IH; [done|].
  intros ->. discriminate Hne.
Qed.

End Tokens.

Section Infer.

Context `{F : Framework}.
Variables (encoder_model decoder_model : Weights) (test_en_seq : array2 nat).
Variables (en_vsize fr_vsize : nat).
Variables (fr_tokenizer : Tokenizer) (fr_index2word : gmap nat string).

Abbreviation run :=
  (infer_nmt encoder_model decoder_model test_en_seq en_vsize fr_vsize
     fr_tokenizer fr_index2word).

Lemma emitted_cons id (a : attention) log :
  id ≠ 0 → emitted ((Ok id, a) :: log) = (id, a) :: emitted log.
Proof. intros Hid. destruct id as [|n]; [done | reflexivity]. Qed.

Lemma emitted_recorded aw tail :
  Forall (λ p : nat * attention, p.1 ≠ 0) aw →
  emitted (recorded aw ++ tail) = aw ++ emitted tail.
Proof.
  induction 1 as [|[id a] aw Hid _ IH]; [done|].
  unfold recorded. rewrite fmap_cons. fold (recorded aw).
  rewrite <- app_comm_cons. cbn [fst snd] in *.
  by rewrite emitted_cons, IH.
Qed.

Lemma infer_nmt_run :
  length (decode_log (trace run)) ≤ 20
  ∧ ∀ fr_text aw,
      outcome run = Ok (fr_text, aw) →
      ∃ words,
        Forall (λ p, p.1 ≠ 0) aw
        ∧ Forall2 (λ p w, fr_index2word !! p.1 = Some w) aw words
        ∧ fr_text = join_words words
        ∧ ((∃ a, decode_log (trace run) = recorded aw ++ [(Ok 0, a)]
                 ∧ length aw < 20)
           ∨ (decode_log (trace run) = recorded aw ∧ length aw = 20)).
Proof.
  unfold infer_nmt.
  destruct (to_categorical test_en_seq en_vsize) as [en|e]; rewrite bind_lift;
    [|split; [simpl; lia | done]].
  destruct (to_categorical _ fr_vsize) as [fr|e]; cbn [fmap result_fmap];
    rewrite bind_lift; [|split; [simpl; lia | done]].
  rewrite !trace_perform, !outcome_perform.
  destruct (encoder_predict encoder_model en) as [enc_outs enc_last_state].
  cbv beta iota.
  destruct (decode_loop_run decoder_model enc_outs fr_vsize fr_tokenizer
              fr_index2word (seq 0 20) enc_last_state (expand_dims1 fr) [] "")
    as [Hlen Hok].
  rewrite trace_bind, outcome_bind.
  destruct (for_each_break _ _ _) as [t [[[[st' x'] aw'] text']|e]];
    cbn [trace outcome fst snd] in *.
  - rewrite app_nil_r. split; [exact Hlen|].
    intros fr_text aw [= <- <-].
    destruct (Hok _ _ _ _ eq_refl) as (new & words & -> & Hnz & Hws & -> & Hlog).
    exists words. rewrite length_seq in Hlog. done.
  - split; [exact Hlen | done].
Qed.

(** C2. The decode loop of [infer_nmt] calls the decoder at most 20 times.
    When [infer_nmt] returns, fewer than 20 iterations ran to their end
    exactly when a decoder call predicted word id 0; the loop then stopped at
    that call, which is the last one, and recorded neither its id nor its
    attention: what was recorded are the calls before it, none of which
    predicted 0. Otherwise all 20 calls were recorded. *)
Theorem infer_nmt_stops :
  length (decode_log (trace run)) ≤ 20
  ∧ ∀ fr_text aw,
      outcome run = Ok (fr_text, aw) →
      (length aw < 20 ↔ ∃ a, (Ok 0, a) ∈ decode_log (trace run))
      ∧ (∀ a, (Ok 0, a) ∈ decode_log (trace run) →
           decode_log (trace run) = recorded aw ++ [(Ok 0, a)])
      ∧ Forall (λ p, p.1 ≠ 0) aw
      ∧ (length aw = 20 → decode_log (trace run) = recorded aw).
Proof.
  destruct infer_nmt_run as [Hlen Hok]. split; [exact Hlen|].
  intros fr_text aw Hrun.
  destruct (Hok _ _ Hrun) as (words & Hnz & _ & _ & Hlog).
  assert (Hrec : ∀ a, (Ok 0, a) ∉ recorded aw).
  { intros a Hin. unfold recorded in Hin.
    apply list_elem_of_fmap in Hin as ([id a'] & [= <- _] & Hin).
    rewrite Forall_forall in Hnz. by apply (Hnz _ Hin). }
  destruct Hlog as [(a & Hlog & Hlt)|[Hlog Hfull]].
  - split; [|split; [|split; [done | lia]]].
    + split; [|done]. intros _. exists a. rewrite Hlog. set_solver.
    + intros a' Hin. rewrite Hlog in Hin |- *.
      apply elem_of_app in Hin as [Hin|Hin]; [by apply Hrec in Hin|].
      apply list_elem_of_singleton in Hin as [= <-]. done.
  - split; [|split; [|split; done]].
    + split; [lia|]. intros [a Hin]. rewrite Hlog in Hin. by apply Hrec in Hin.
    + intros a Hin. rewrite Hlog in Hin. by apply Hrec in Hin.
Qed.

(** C1, as the code has it. When [infer_nmt] returns, every decoder call
    that predicted a non-zero word id has put exactly one pair of that id
    and its attention on [attention_weights] and exactly one word, followed
    by a blank, on the translation, in the order of the calls, and nothing
    else was put there: this holds for every vocabulary. Hence, when every
    word of [fr_index2word] is a single token (not empty, no whitespace in
    it), the whitespace-separated words of the translation are these words,
    as many as there are pairs. *)
Theorem infer_nmt_words (fr_text : string) (aw : list (nat * attention)) :
  outcome run = Ok (fr_text, aw) →
  aw = emitted (decode_log (trace run))
  ∧ ∃ words,
      Forall2 (λ p w, fr_index2word !! p.1 = Some w) aw words
      ∧ fr_text = join_words words
      ∧ (map_Forall (λ _ w, PyStr.is_token w = true) fr_index2word →
         PyStr.split fr_text = words
         ∧ length (PyStr.split fr_text) = length aw).
Proof.
  intros Hrun.
  destruct infer_nmt_run as [_ Hok].
  destruct (Hok _ _ Hrun) as (words & Hnz & Hws & -> & Hlog).
  split.
  { destruct Hlog as [(a & -> & _)|[-> _]].
    - rewrite emitted_recorded by done. by rewrite app_nil_r.
    - rewrite <- (app_nil_r (recorded aw)), emitted_recorded by done.
      by rewrite app_nil_r. }
  exists words. split; [done|]. split; [done|].
  intros Hvocab.
  assert (Hsplit : PyStr.split (join_words words) = words).
  { apply split_join_words.
    clear Hlog Hrun. induction Hws as [|[id a] w aw ws Hw _ IH]; [constructor|].
    apply Forall_cons_1 in Hnz as [_ Hnz].
    constructor; [exact (Hvocab _ _ Hw) | by apply IH]. }
  split; [done|]. rewrite Hsplit. symmetry. by eapply Forall2_length.
Qed.

End Infer.

(** ** [plot_attention_weights] *)

Section Transpose.

Context {A : Type}.
Implicit Types (a : list (list A)) (r v : list A).

Lemma transpose_rows_length (n : nat) a :
  Forall (λ r, length r = n) a → length (Np.transpose_rows n a) = n.
Proof.
  induction 1 as [|r a Hr _ IH]; simpl; [apply length_replicate|].
  rewrite length_zip_with. lia.
Qed.

Lemma zip_cons_first r (t : list (list A)) :
  length r = length t →
  Forall2 (λ row y, row !! 0 = Some y) (zip_with cons r t) r.
Proof.
  revert t. induction r as [|x r IH]; intros [|row t] Hlen; simpl in *;
    try lia; constructor; try done.
  apply IH. lia.
Qed.

Lemma zip_cons_later j r (t : list (list A)) v :
  length r = length t →
  Forall2 (λ row y, row !! j = Some y) t v →
  Forall2 (λ row y, row !! S j = Some y) (zip_with cons r t) v.
Proof.
  intros Hlen Hcol. revert r Hlen.
  induction Hcol as [|row y t v Hy _ IH]; intros [|x r] Hlen; simpl in *;
    try lia; constructor; try done.
  apply IH. lia.
Qed.

(** Column [j] of the transpose is row [j]. *)
Lemma transpose_column (n j : nat) a v :
  Forall (λ r, length r = n) a → a !! j = Some v →
  Np.column j (Np.transpose (Array2 n a)) = Some v.
Proof.
  intros Hrect Hj. unfold Np.column, Np.transpose. cbn [rows ncols].
  apply mapM_Some. revert j Hj.
  induction Hrect as [|r a Hr Hrect IH]; intros j Hj; [done|].
  cbn [Np.transpose_rows].
  pose proof (transpose_rows_length n a Hrect) as Hlen.
  destruct j as [|j]; simpl in Hj.
  - injection Hj as <-. apply zip_cons_first. lia.
  - apply zip_cons_later; [lia | by apply IH].
Qed.

Lemma np_array_rectangular (n : nat) (mats : list (list A)) :
  mats ≠ [] → Forall (λ r, length r = n) mats →
  Np.array mats = Ok (Array2 n mats).
Proof.
  intros Hne Hrect. destruct mats as [|m mats]; [done|]. unfold Np.array.
  pose proof (Forall_inv Hrect) as Hm. simpl in Hm. subst n.
  replace (forallb _ _) with true; [done|].
  symmetry. apply forallb_forall. intros r Hr.
  rewrite Forall_forall in Hrect. apply Nat.eqb_eq, Hrect.
  by apply list_elem_of_In.
Qed.

End Transpose.

Section Plot.

Context `{F : Framework}.

(** The loop over [attention_weights] collects the flattened attention
    vectors and the word ids, in order. *)
Lemma plot_collect (aw : list (nat * attention)) mats dec_inputs :
  fold_left (λ '(mats, dec_inputs) '(dec_ind, attn),
               (mats ++ [reshape1 attn], dec_inputs ++ [dec_ind]))
    aw (mats, dec_inputs)
  = (mats ++ ((λ p, reshape1 p.2) <$> aw), dec_inputs ++ aw.*1).
Proof.
  revert mats dec_inputs. induction aw as [|[id a] aw IH]; intros mats ids.
  - by rewrite !app_nil_r.
  - cbn [fold_left]. rewrite IH, !fmap_cons, <- !app_assoc. done.
Qed.

End Plot.

(** ** Where an assertion can fail *)

Section Calm.

Lemma calm_ok {A} (a : A) : calm (Ok a).
Proof. done. Qed.

Lemma calm_bind {A B} (r : result A) (f : A → result B) :
  calm r → (∀ a, calm (f a)) → calm (r ≫= f).
Proof.
  unfold calm. destruct r; cbn; [intros _ H; apply H | congruence].
Qed.

Lemma calm_fmap {A B} (f : A → B) (r : result A) : calm r → calm (f <$> r).
Proof. unfold calm. destruct r; cbn; congruence. Qed.

Lemma calm_mapM {A B} (f : A → result B) (l : list A) :
  (∀ x, calm (f x)) → calm (mapM f l).
Proof.
  intros Hf. induction l as [|x l IH]; [done|]. cbn [mapM].
  apply calm_bind; [apply Hf|]. intros y.
  apply calm_bind; [apply IH | done].
Qed.

Lemma calm_getitem {A} (l : list A) i : calm (Py.getitem l i).
Proof. unfold Py.getitem. by destruct (l !! i). Qed.

Lemma calm_lookup_key d k : calm (Py.lookup_key d k).
Proof. unfold Py.lookup_key. by destruct (d !! k). Qed.

Lemma calm_max_of xs : calm (Py.max_of xs).
Proof. by destruct xs. Qed.

Lemma calm_range stop step : calm (Py.range stop step).
Proof. unfold Py.range. by repeat case_match. Qed.

Lemma calm_one_hot n k : calm (one_hot n k).
Proof. unfold one_hot. by case_match. Qed.

Lemma calm_to_categorical y n : calm (to_categorical y n).
Proof.
  unfold to_categorical. apply calm_bind.
  - case_match; [apply calm_fmap, calm_max_of | done].
  - intros m. case_match; apply calm_fmap, calm_mapM; intros;
      try apply calm_mapM; intros; apply calm_one_hot.
Qed.

Lemma calm_slice_time lo hi t : calm (slice_time lo hi t).
Proof. by destruct t. Qed.

Lemma calm_array {A} (mats : list (list A)) : calm (Np.array mats).
Proof. unfold Np.array. by repeat case_match. Qed.

Lemma calm_argmax {A} (ltb : A → A → bool) v : calm (Np.argmax ltb v).
Proof. by destruct v. Qed.

Lemma calm_seed s : calm (Np.seed s).
Proof. unfold Np.seed. by case_match. Qed.

Lemma calm_tick_labels_fit n labels : calm (tick_labels_fit n labels).
Proof. unfold tick_labels_fit. by case_match. Qed.

End Calm.

Section Quiet.

Context {E : Type}.

Lemma quiet_ret {A} (a : A) : quiet (mret a : M E A).
Proof. done. Qed.

Lemma quiet_perform (e : E) : quiet (perform e).
Proof. done. Qed.

Lemma quiet_lift {A} (r : result A) : calm r → quiet (lift r : M E A).
Proof. done. Qed.

Lemma quiet_bind {A B} (m : M E A) (f : A → M E B) :
  quiet m → (∀ a, quiet (f a)) → quiet (m ≫= f).
Proof.
  unfold quiet. rewrite outcome_bind.
  unfold calm. destruct (outcome m); [intros _ H; apply H | congruence].
Qed.

Lemma quiet_mapM {A B} (f : A → M E B) (l : list A) :
  (∀ x, quiet (f x)) → quiet (mapM f l).
Proof.
  intros Hf. induction l as [|x l IH]; [done|]. cbn [mapM].
  apply quiet_bind; [apply Hf|]. intros y.
  apply quiet_bind; [apply IH | done].
Qed.

Lemma quiet_for_each {X S} (xs : list X) (body : X → S → M E S) s :
  (∀ x s, quiet (body x s)) → quiet (for_each xs body s).
Proof.
  intros Hbody. revert s. induction xs as [|x xs IH]; intros s; [done|].
  cbn [for_each]. apply quiet_bind; [apply Hbody | apply IH].
Qed.

Lemma quiet_for_each_break {X S} (xs : list X) (body : X → S → M E (flow S)) s :
  (∀ x s, quiet (body x s)) → quiet (for_each_break xs body s).
Proof.
  intros Hbody. revert s. induction xs as [|x xs IH]; intros s; [done|].
  cbn [for_each_break]. apply quiet_bind; [apply Hbody|].
  intros [s'|s']; [apply IH | done].
Qed.

(** A failed assertion after a quiet computation comes from what follows
    it. *)
Lemma quiet_bind_inv {A B} (m : M E A) (f : A → M E B) :
  quiet m → outcome (m ≫= f) = Raise AssertionError →
  ∃ a, outcome m = Ok a ∧ outcome (f a) = Raise AssertionError.
Proof.
  unfold quiet, calm. rewrite outcome_bind.
  destruct (outcome m) as [a|e]; [by exists a | congruence].
Qed.

End Quiet.

Ltac quiet_step :=
  first
    [ apply quiet_ret | apply quiet_perform
    | apply quiet_lift
    | apply quiet_bind; [|intros ?]
    | apply quiet_mapM; intros ?
    | apply quiet_for_each; intros ? ?
    | apply quiet_for_each_break; intros ? ?
    | apply calm_ok | apply calm_getitem | apply calm_lookup_key
    | apply calm_max_of | apply calm_range | apply calm_to_categorical
    | apply calm_slice_time | apply calm_array | apply calm_argmax
    | apply calm_seed | apply calm_tick_labels_fit
    | apply calm_fmap
    | apply calm_bind; [|intros ?]
    | apply calm_mapM; intros ?
    | progress case_match ].

Ltac quiet := repeat quiet_step.

Section QuietScript.

Context `{F : Framework}.

Lemma quiet_get_data train_size random_seed :
  quiet (get_data train_size random_seed).
Proof. unfold get_data, print. quiet. Qed.

Lemma quiet_preprocess_data tk1 tk2 en_text fr_text en_timesteps fr_timesteps :
  quiet (preprocess_data tk1 tk2 en_text fr_text en_timesteps fr_timesteps).
Proof. unfold preprocess_data, print, Np.max. quiet. Qed.

Lemma quiet_train w en_seq fr_seq batch_size n_epochs en_vsize fr_vsize :
  quiet (train w en_seq fr_seq batch_size n_epochs en_vsize fr_vsize).
Proof. unfold train, train_epoch, train_batch, print. quiet. Qed.

Lemma quiet_infer_nmt w1 w2 test_en_seq en_vsize fr_vsize tk d :
  quiet (infer_nmt w1 w2 test_en_seq en_vsize fr_vsize tk d).
Proof. unfold infer_nmt, decode_step, argmax00. quiet. Qed.

End QuietScript.

Section PlotClaims.

Context `{F : Framework}.
Variables (encoder_inputs : array2 nat) (en_id2word fr_id2word : gmap nat string).

Abbreviation plot_of := (λ aw,
  plot_attention_weights encoder_inputs aw en_id2word fr_id2word).

Lemma calm_tick_label d k : calm (tick_label d k).
Proof. unfold tick_label. case_match; [apply calm_lookup_key | done]. Qed.

Lemma tick_label_ok d k l :
  tick_label d k = Ok l →
  if k =? 0 then l = "<Res>" else d !! k = Some l.
Proof.
  unfold tick_label, Py.lookup_key. destruct (k =? 0); simpl.
  - by intros [= <-].
  - destruct (d !! k); [by intros [= <-] | done].
Qed.

(** As many labels as ticks are accepted; so is an empty list of labels. *)
Lemma tick_labels_fit_iff n labels :
  tick_labels_fit n labels = Ok tt ↔ length labels = n ∨ labels = [].
Proof.
  unfold tick_labels_fit.
  destruct (Nat.eqb_spec (length labels) n) as [Hn|Hn]; cbn [orb].
  - split; [by left | done].
  - destruct labels as [|l labels]; cbn [length Nat.eqb].
    + split; [by right | done].
    + split; [done|]. intros [?|?]; done.
Qed.

Lemma tick_labels_fit_refused n labels :
  tick_labels_fit n labels ≠ Ok tt → tick_labels_fit n labels = Raise ValueError.
Proof. unfold tick_labels_fit. by case_match. Qed.

Lemma tick_labels_of_ids d (ids : list nat) labels :
  mapM (tick_label d) ids = Ok labels →
  tick_labels_fit (length ids) labels = Ok tt.
Proof.
  intros Hl. apply tick_labels_fit_iff. left.
  apply mapM_result_Forall2, Forall2_length in Hl. done.
Qed.

Lemma tick_label_defined d k :
  k = 0 ∨ is_Some (d !! k) → ∃ l, tick_label d k = Ok l.
Proof.
  unfold tick_label, Py.lookup_key.
  destruct (Nat.eqb_spec k 0) as [->|Hk]; simpl; [by eauto|].
  intros [?|[l ->]]; [done | by eauto].
Qed.

(** Past the assertion the function makes its calls and may still fail, but
    not with an assertion. *)
Lemma plot_past_assertion (aw : list (nat * attention)) :
  aw ≠ [] → quiet (plot_of aw).
Proof.
  destruct aw as [|p aw]; [done|]. intros _.
  unfold plot_attention_weights, assert. cbn [length Nat.eqb negb].
  rewrite bind_ret, plot_collect.
  quiet; apply calm_tick_label.
Qed.

Lemma plot_assertion_iff (aw : list (nat * attention)) :
  outcome (plot_of aw) = Raise AssertionError ↔ aw = [].
Proof.
  split; [|by intros ->].
  intros Hfail. destruct aw as [|p aw]; [done|].
  by destruct (plot_past_assertion (p :: aw)).
Qed.

End PlotClaims.

Section Heatmap.

Context `{F : Framework}.
Variables (encoder_inputs : array2 nat) (en_id2word fr_id2word : gmap nat string).

(** C7. For a non-empty [attention_weights] whose attention arrays have the
    same number [L] of entries, [plot_attention_weights] shows the transpose
    of the matrix whose rows are the flattened attention arrays: a matrix
    with [L] rows and one column per decode step, column [j] being the
    flattened attention of step [j]. The x ticks are the decode steps, and the x tick
    labels, when they are set, are the words of the decoded ids in decode
    order, with ["<Res>"] for id 0; they are set when every decoded id is 0
    or a key of [fr_id2word]. *)
Theorem plot_heatmap (aw : list (nat * attention)) (L : nat) :
  aw ≠ [] →
  Forall (λ p, length (reshape1 p.2) = L) aw →
  ∃ mat rest,
    trace (plot_attention_weights encoder_inputs aw en_id2word fr_id2word)
      = Subplots :: Imshow mat :: SetXTicks (seq 0 (length aw))
          :: SetYTicks (seq 0 L) :: rest
    ∧ mat = Np.transpose (Array2 L ((λ p, reshape1 p.2) <$> aw))
    ∧ Np.shape mat = (L, length aw)
    ∧ (∀ j p, aw !! j = Some p → Np.column j mat = Some (reshape1 p.2))
    ∧ (∀ labels, SetXTickLabels labels ∈ rest →
         Forall2 (λ p l, if p.1 =? 0 then l = "<Res>"
                         else fr_id2word !! p.1 = Some l) aw labels)
    ∧ (Forall (λ p, p.1 = 0 ∨ is_Some (fr_id2word !! p.1)) aw →
         ∃ labels, head rest = Some (SetXTickLabels labels)).
Proof.
  intros Hne Hrect.
  set (mats := (λ p : nat * attention, reshape1 p.2) <$> aw).
  assert (Hmats : Forall (λ r, length r = L) mats).
  { unfold mats. by rewrite Forall_fmap. }
  assert (Hlen : length mats = length aw) by apply length_fmap.
  unfold plot_attention_weights, assert.
  replace (negb (length aw =? 0)) with true
    by (destruct aw; [done | reflexivity]).
  rewrite bind_ret, plot_collect. cbn [app]. fold mats.
  rewrite (np_array_rectangular L mats) by (unfold mats; by destruct aw).
  cbn [fmap result_fmap]. rewrite bind_lift.
  set (mat := Np.transpose (Array2 L mats)).
  assert (Hshape : Np.shape mat = (L, length aw)).
  { unfold Np.shape, mat, Np.transpose. cbn [rows ncols].
    by rewrite transpose_rows_length, Hlen. }
  rewrite Hshape. cbn [fst snd]. rewrite !trace_perform.
  eexists mat, _. split; [reflexivity|]. split; [done|]. split; [done|]. split.
  { intros j p Hj. apply transpose_column; [done|].
    unfold mats. by rewrite list_lookup_fmap, Hj. }
  destruct (mapM (tick_label fr_id2word) aw.*1) as [xl|e] eqn:Hxl;
    rewrite bind_lift.
  2:{ split; [by intros labels Hin%elem_of_nil|].
      intros Hkeys. exfalso.
      assert (Hall : ∀ ids : list nat,
        Forall (λ k, k = 0 ∨ is_Some (fr_id2word !! k)) ids →
        ∃ ls, mapM (tick_label fr_id2word) ids = Ok ls).
      { induction 1 as [|k ids Hk _ [ls IH]]; [by exists []|].
        destruct (tick_label_defined _ _ Hk) as [l Hl].
        exists (l :: ls). cbn [mapM]. rewrite Hl. cbn [mbind result_bind].
        by rewrite IH. }
      destruct (Hall aw.*1) as [ls Hls]; [by rewrite Forall_fmap|].
      congruence. }
  pose proof (tick_labels_of_ids _ _ _ Hxl) as Hfit.
  rewrite length_fmap in Hfit. rewrite Hfit, bind_lift. cbv beta iota.
  rewrite trace_perform. split; [|by eauto].
  intros labels Hin.
  assert (labels = xl) as ->.
  { apply elem_of_cons in Hin as [[= ->]|Hin]; [done|]. exfalso.
    destruct (mapM (tick_label en_id2word) _) as [yl|e]; rewrite bind_lift in Hin;
      [|by apply elem_of_nil in Hin].
    destruct (tick_labels_fit L yl) as [[]|e]; rewrite bind_lift in Hin;
      [|by apply elem_of_nil in Hin].
    rewrite !trace_perform in Hin.
    repeat (apply elem_of_cons in Hin as [[=]|Hin]).
    destruct (path_exists "../results"); cbn in Hin;
      repeat (apply elem_of_cons in Hin as [[=]|Hin]);
      by apply elem_of_nil in Hin. }
  apply mapM_result_Forall2, Forall2_fmap_l in Hxl.
  eapply Forall2_impl; [exact Hxl|]. intros p l Hl. by apply tick_label_ok.
Qed.

End Heatmap.

(** ** The order of the script *)


Section Only.

Context {E : Type} (P : E → Prop).

Lemma only_ret {A} (a : A) : calls_only P (mret a : M E A).
Proof. constructor. Qed.

Lemma only_perform (e : E) : P e → calls_only P (perform e).
Proof. by repeat constructor. Qed.

Lemma only_lift {A} (r : result A) : calls_only P (lift r : M E A).
Proof. constructor. Qed.

Lemma only_bind {A B} (m : M E A) (f : A → M E B) :
  calls_only P m → (∀ a, calls_only P (f a)) → calls_only P (m ≫= f).
Proof.
  unfold calls_only. rewrite trace_bind. intros Hm Hf.
  destruct (outcome m); [|done]. apply Forall_app. split; [done | apply Hf].
Qed.

Lemma only_mapM {A B} (f : A → M E B) (l : list A) :
  (∀ x, calls_only P (f x)) → calls_only P (mapM f l).
Proof.
  intros Hf. induction l as [|x l IH]; [constructor|]. cbn [mapM].
  apply only_bind; [apply Hf|]. intros y.
  apply only_bind; [apply IH | intros; constructor].
Qed.

Lemma only_for_each {X S} (xs : list X) (body : X → S → M E S) s :
  (∀ x s, calls_only P (body x s)) → calls_only P (for_each xs body s).
Proof. intros Hbody. by apply for_each_trace_Forall. Qed.

Lemma only_for_each_break {X S} (xs : list X) (body : X → S → M E (flow S)) s :
  (∀ x s, calls_only P (body x s)) → calls_only P (for_each_break xs body s).
Proof.
  intros Hbody. revert s. induction xs as [|x xs IH]; intros s; [constructor|].
  cbn [for_each_break]. apply only_bind; [apply Hbody|].
  intros [s'|s']; [apply IH | constructor].
Qed.

End Only.

Ltac only_step :=
  first
    [ apply only_ret | apply only_lift
    | apply only_perform; reflexivity
    | apply only_bind; [|intros ?]
    | apply only_mapM; intros ?
    | apply only_for_each; intros ? ?
    | apply only_for_each_break; intros ? ?
    | progress case_match ].

Ltac solve_calls := repeat only_step.

Section OnlyScript.

Context `{F : Framework}.

Lemma only_get_data train_size random_seed :
  calls_only (λ c, step_calls LoadCorpus c = true) (get_data train_size random_seed).
Proof. unfold get_data, print. solve_calls. Qed.

Lemma only_new_tokenizer texts :
  calls_only (λ c, step_calls FitTokenizers c = true) (new_tokenizer texts).
Proof. unfold new_tokenizer. solve_calls. Qed.

Lemma only_preprocess_data tk1 tk2 en_text fr_text en_timesteps fr_timesteps :
  calls_only (λ c, step_calls Preprocess c = true)
    (preprocess_data tk1 tk2 en_text fr_text en_timesteps fr_timesteps).
Proof. unfold preprocess_data, print. solve_calls. Qed.

Lemma only_train w en_seq fr_seq batch_size n_epochs en_vsize fr_vsize :
  calls_only (λ c, step_calls TrainModel c = true)
    (train w en_seq fr_seq batch_size n_epochs en_vsize fr_vsize).
Proof. unfold train, train_epoch, train_batch, print. solve_calls. Qed.

Lemma only_infer_nmt w1 w2 test_en_seq en_vsize fr_vsize tk d :
  calls_only (λ c, step_calls Decode c = true)
    (infer_nmt w1 w2 test_en_seq en_vsize fr_vsize tk d).
Proof. unfold infer_nmt, decode_step. solve_calls. Qed.

Lemma only_plot enc aw d1 d2 :
  calls_only (λ c, step_calls PlotAttention c = true)
    (plot_attention_weights enc aw d1 d2).
Proof. unfold plot_attention_weights, assert. rewrite plot_collect. solve_calls. Qed.

End OnlyScript.

Section Staged.

Context `{F : Framework}.

Lemma trace_in_step {A} s (m : M call A) :
  trace (in_step s m) = pair s <$> trace m.
Proof. reflexivity. Qed.

Lemma outcome_in_step {A} s (m : M call A) :
  outcome (in_step s m) = outcome m.
Proof. reflexivity. Qed.

Lemma one_step_sorted s (t : list call) :
  StronglySorted (λ e e' : step * call, step_index e.1 ≤ step_index e'.1)
    (pair s <$> t).
Proof.
  induction t as [|c t IH]; [constructor|].
  rewrite fmap_cons. constructor; [done|].
  apply Forall_fmap, Forall_true. intros c'. simpl. lia.
Qed.

(** The last stage. *)
Lemma staged_last {A} s k (m : M call A) :
  k ≤ step_index s →
  calls_only (λ c, step_calls s c = true) m →
  staged k (in_step s m).
Proof.
  intros Hk Hm. split; rewrite trace_in_step; [apply one_step_sorted|].
  apply Forall_fmap. eapply Forall_impl; [exact Hm|]. by intros c Hc.
Qed.

(** A stage followed by stages that are not earlier. *)
Lemma staged_then {A B} s k (m : M call A) (f : A → M (step * call) B) :
  k ≤ step_index s →
  calls_only (λ c, step_calls s c = true) m →
  (∀ a, staged (step_index s) (f a)) →
  staged k (in_step s m ≫= f).
Proof.
  intros Hk Hm Hf. destruct (staged_last s k m Hk Hm) as [Hs Hall].
  unfold staged. rewrite trace_bind.
  destruct (outcome (in_step s m)) as [a|e]; [|done].
  destruct (Hf a) as [Hs' Hall']. split.
  - apply StronglySorted_app_2; [|done..].
    intros e e' He He'. rewrite trace_in_step in He.
    apply list_elem_of_fmap in He as (c & -> & _).
    rewrite Forall_forall in Hall'. by apply Hall'.
  - apply Forall_app. split; [done|].
    eapply Forall_impl; [exact Hall'|]. intros e [? ?]. split; [lia | done].
Qed.

Lemma sorted_lookup {A} (R : A → A → Prop) (l : list A) i j x y :
  (∀ a, R a a) →
  StronglySorted R l → i ≤ j → l !! i = Some x → l !! j = Some y → R x y.
Proof.
  intros Hrefl Hs. revert i j. induction Hs as [|a l Hs IH Hall]; intros i j Hij Hi Hj.
  - done.
  - destruct i as [|i], j as [|j]; simpl in *; try lia.
    + simplify_eq. apply Hrefl.
    + simplify_eq. rewrite Forall_forall in Hall.
      apply Hall. by eapply list_elem_of_lookup_2.
    + apply (IH i j); [lia | done..].
Qed.

(** The script goes through its stages in order, whatever happens. *)
Lemma script_staged train_size batch_size hidden_size en_timesteps
    fr_timesteps n_epochs :
  staged 0
    (script train_size batch_size hidden_size en_timesteps fr_timesteps n_epochs).
Proof.
  unfold script.
  apply staged_then; [simpl; lia | apply only_get_data|].
  intros [[[tr_en tr_fr] ts_en] ts_fr].
  apply staged_then; [simpl; lia | |].
  { apply only_bind; [apply only_new_tokenizer|]. intros tk1.
    apply only_bind; [apply only_new_tokenizer|]. intros tk2. apply only_ret. }
  intros [tk1 tk2].
  apply staged_then; [simpl; lia | apply only_preprocess_data|].
  intros [en_seq fr_seq].
  apply staged_then; [simpl; lia | solve_calls|].
  intros [[en_vsize fr_vsize] w].
  apply staged_then; [simpl; lia | apply only_train|].
  intros w'.
  apply staged_then; [simpl; lia | solve_calls|].
  intros _.
  apply staged_then; [simpl; lia | |].
  { unfold print. apply only_bind; [solve_calls|]. intros test_en.
    apply only_bind; [solve_calls|]. intros _.
    apply only_bind; [apply only_infer_nmt|]. intros [test_fr aw].
    solve_calls. }
  intros [test_en_seq aw].
  apply staged_last; [simpl; lia | apply only_plot].
Qed.

(** So does the [__main__] block. *)
Lemma main_staged : staged 0 main.
Proof. apply script_staged. Qed.

End Staged.

Section Completion.

Context `{F : Framework}.

Lemma get_data_reads train_size random_seed :
  ReadData "data/small_vocab_en.txt" ∈ trace (get_data train_size random_seed)
  ∧ ReadData "data/small_vocab_fr.txt" ∈ trace (get_data train_size random_seed).
Proof.
  unfold get_data, print. rewrite !trace_perform. set_solver.
Qed.

Lemma preprocess_data_prints tk1 tk2 en_text fr_text en_timesteps fr_timesteps r :
  outcome (preprocess_data tk1 tk2 en_text fr_text en_timesteps fr_timesteps)
    = Ok r →
  PrintLine (TextShape En (Np.shape r.1))
    ∈ trace (preprocess_data tk1 tk2 en_text fr_text en_timesteps fr_timesteps)
  ∧ PrintLine (TextShape Fr (Np.shape r.2))
    ∈ trace (preprocess_data tk1 tk2 en_text fr_text en_timesteps fr_timesteps).
Proof.
  unfold preprocess_data, print.
  destruct (Np.max (sents2sequences tk1 _ _ _ _)) as [m1|e]; rewrite bind_lift;
    [|done].
  rewrite !trace_perform, !outcome_perform.
  destruct (Np.max (sents2sequences tk2 _ _ _ _)) as [m2|e]; rewrite bind_lift;
    [|done].
  rewrite !trace_perform, !outcome_perform.
  intros [= <-]. cbn [fst snd]. set_solver.
Qed.

Lemma epochs_printed_app t1 t2 :
  epochs_printed (t1 ++ t2) = epochs_printed t1 ++ epochs_printed t2.
Proof. apply omap_app. Qed.

Lemma epochs_printed_batches t :
  Forall (λ c, is_batch_call c = true) t → epochs_printed t = [].
Proof.
  induction 1 as [|c t Hc _ IH]; [done|].
  destruct c; try discriminate Hc; exact IH.
Qed.

Lemma train_epoch_prints en_seq fr_seq batch_size en_vsize fr_vsize ep w w' :
  outcome (train_epoch en_seq fr_seq batch_size en_vsize fr_vsize ep w) = Ok w' →
  epochs_printed
    (trace (train_epoch en_seq fr_seq batch_size en_vsize fr_vsize ep w))
    = [(ep + 1)%Z].
Proof.
  unfold train_epoch.
  destruct (Py.range _ batch_size) as [bis|e]; rewrite bind_lift; [|done].
  intros Hok. apply bind_ok_inv in Hok as ([w1 losses] & Hloop & Hrest & ->).
  apply train_batches_run in Hloop as (bs & Hbs & ->).
  rewrite epochs_printed_app, epochs_printed_batches.
  - replace ((ep + 1) `mod` 1 =? 0)%Z with true by (rewrite Z.mod_1_r; done).
    reflexivity.
  - apply Forall_concat, Forall_fmap, Forall_true. intros b.
    by repeat constructor.
Qed.

Lemma train_prints w en_seq fr_seq batch_size n_epochs en_vsize fr_vsize w' :
  outcome (train w en_seq fr_seq batch_size n_epochs en_vsize fr_vsize) = Ok w' →
  epochs_printed
    (trace (train w en_seq fr_seq batch_size n_epochs en_vsize fr_vsize))
    = (λ i, (Z.of_nat i + 1)%Z) <$> seq 0 (Z.to_nat n_epochs).
Proof.
  unfold train, Py.range. cbn [Z.eqb Z.ltb Z.compare]. rewrite bind_lift.
  unfold PySeq.range_pos, PySeq.range_count.
  replace (if (n_epochs <=? 0)%Z then 0 else Z.to_nat ((n_epochs + 1 - 1) / 1))
    with (Z.to_nat n_epochs).
  2:{ destruct (Z.leb_spec n_epochs 0); [lia|].
      replace (n_epochs + 1 - 1)%Z with n_epochs by lia. by rewrite Z.div_1_r. }
  generalize (Z.to_nat n_epochs) as n. intros n. generalize 0 as start.
  revert w. induction n as [|n IH]; intros w start Hok; [done|].
  cbn [seq fmap list_fmap] in Hok |- *.
  apply for_each_ok_cons in Hok as (w1 & H1 & Hrest & ->).
  rewrite epochs_printed_app, (train_epoch_prints _ _ _ _ _ _ _ _ H1).
  rewrite (IH _ _ Hrest). cbn [app]. f_equal. lia.
Qed.

Lemma infer_nmt_encodes w1 w2 test_en_seq en_vsize fr_vsize tk d r :
  outcome (infer_nmt w1 w2 test_en_seq en_vsize fr_vsize tk d) = Ok r →
  ∃ x, EncoderPredict x ∈ trace (infer_nmt w1 w2 test_en_seq en_vsize fr_vsize tk d).
Proof.
  unfold infer_nmt.
  destruct (to_categorical test_en_seq en_vsize) as [en|e]; rewrite bind_lift;
    [|done].
  destruct (to_categorical _ fr_vsize) as [fr|e]; cbn [fmap result_fmap];
    rewrite bind_lift; [|done].
  rewrite trace_perform. intros _. exists en. set_solver.
Qed.

Lemma plot_saves enc aw d1 d2 :
  outcome (plot_attention_weights enc aw d1 d2) = Ok tt →
  last (trace (plot_attention_weights enc aw d1 d2))
    = Some (Savefig "../results/attention.png").
Proof.
  unfold plot_attention_weights, assert.
  destruct (negb (length aw =? 0)); cbv iota; [|by rewrite bind_raise].
  rewrite bind_ret, plot_collect.
  destruct (Np.array _) as [mat|e]; cbn [fmap result_fmap]; rewrite bind_lift;
    [|done].
  rewrite !trace_perform, !outcome_perform.
  destruct (mapM (tick_label d2) _) as [xl|e]; rewrite bind_lift; [|done].
  destruct (tick_labels_fit _ xl) as [[]|e]; rewrite bind_lift; [|done].
  rewrite !trace_perform, !outcome_perform.
  destruct (mapM (tick_label d1) _) as [yl|e]; rewrite bind_lift; [|done].
  destruct (tick_labels_fit _ yl) as [[]|e]; rewrite bind_lift; [|done].
  intros _. by destruct (path_exists "../results").
Qed.

End Completion.

Section ScriptOrder.

Context `{F : Framework}.
Variables (train_size batch_size hidden_size : Z).
Variables (en_timesteps fr_timesteps : nat) (n_epochs : Z).

Abbreviation the_script :=
  (script train_size batch_size hidden_size en_timesteps fr_timesteps n_epochs).

Lemma in_step_ok_inv {A B} s (m : M call A) (f : A → M (step * call) B) b :
  outcome (in_step s m ≫= f) = Ok b →
  ∃ a, outcome m = Ok a ∧ outcome (f a) = Ok b
       ∧ trace (in_step s m ≫= f) = (pair s <$> trace m) ++ trace (f a).
Proof. intros H. apply bind_ok_inv in H as (a & H1 & H2 & H3). by exists a. Qed.

(** C8. In every run of the script (the [__main__] block is the script at
    its hyperparameters) the calls are made stage by stage in the order
    corpus loading, tokenizer fitting, preprocessing, model building,
    training, saving, decoding, plotting: no call of a later stage comes
    before a call of an earlier one, and every call belongs to the stage
    that makes it. A run that reaches the end has gone through all eight
    stages: it read both corpus files, fitted the two tokenizers, printed
    the shapes of the padded data, built the model, trained for the epochs
    1 to [n_epochs], saved the model, ran the encoder for one test sentence,
    and saved the heatmap last. *)
Theorem script_steps_in_order :
  (∀ i j e e',
     i ≤ j → trace the_script !! i = Some e → trace the_script !! j = Some e' →
     step_index e.1 ≤ step_index e'.1)
  ∧ Forall (λ e, step_calls e.1 e.2 = true) (trace the_script)
  ∧ (outcome the_script = Ok tt →
     ∃ load fit pre build training save decode plot,
       trace the_script
         = (pair LoadCorpus <$> load) ++ (pair FitTokenizers <$> fit)
           ++ (pair Preprocess <$> pre) ++ (pair BuildModel <$> build)
           ++ (pair TrainModel <$> training) ++ (pair SaveWeights <$> save)
           ++ (pair Decode <$> decode) ++ (pair PlotAttention <$> plot)
       ∧ ReadData "data/small_vocab_en.txt" ∈ load
       ∧ ReadData "data/small_vocab_fr.txt" ∈ load
       ∧ (∃ en_texts fr_texts, fit = [FitOnTexts en_texts; FitOnTexts fr_texts])
       ∧ (∃ en_shape fr_shape,
            PrintLine (TextShape En en_shape) ∈ pre
            ∧ PrintLine (TextShape Fr fr_shape) ∈ pre)
       ∧ (∃ en_vsize fr_vsize, build = [DefineNmt en_vsize fr_vsize])
       ∧ epochs_printed training
           = (λ i, (Z.of_nat i + 1)%Z) <$> seq 0 (Z.to_nat n_epochs)
       ∧ last save = Some (SaveModel "../h5.models/nmt.h5")
       ∧ (∃ x, EncoderPredict x ∈ decode)
       ∧ last plot = Some (Savefig "../results/attention.png")).
Proof.
  destruct (script_staged train_size batch_size hidden_size en_timesteps
              fr_timesteps n_epochs) as [Hsorted Hcalls].
  split; [|split].
  - intros i j e e' Hij Hi Hj.
    by apply (sorted_lookup
      (λ e e' : step * call, step_index e.1 ≤ step_index e'.1)
      (trace the_script) i j e e').
  - eapply Forall_impl; [exact Hcalls|]. by intros e [_ ?].
  - unfold script. intros Hok.
    apply in_step_ok_inv in Hok as ([[[tr_en tr_fr] ts_en] ts_fr] & H1 & Hok & ->).
    apply in_step_ok_inv in Hok as ([tk1 tk2] & H2 & Hok & ->).
    apply in_step_ok_inv in Hok as ([en_seq fr_seq] & H3 & Hok & ->).
    apply in_step_ok_inv in Hok as ([[en_vsize fr_vsize] w] & H4 & Hok & ->).
    apply in_step_ok_inv in Hok as (w' & H5 & Hok & ->).
    apply in_step_ok_inv in Hok as ([] & H6 & Hok & ->).
    apply in_step_ok_inv in Hok as ([test_en_seq aw] & H7 & Hok & ->).
    rewrite trace_in_step.
    eexists _, _, _, _, _, _, _, _. split; [reflexivity|].
    destruct (get_data_reads train_size 100) as [Hen Hfr].
    split; [exact Hen|]. split; [exact Hfr|].
    split; [by exists tr_en, tr_fr|].
    split.
    { destruct (preprocess_data_prints _ _ _ _ _ _ _ H3) as [? ?]. eauto. }
    split.
    { exists en_vsize, fr_vsize. revert H4.
      destruct (Py.max_of (index_word_keys tk1)) as [m1|e]; rewrite bind_lift;
        [|done].
      destruct (Py.max_of (index_word_keys tk2)) as [m2|e]; rewrite bind_lift;
        [|done].
      rewrite outcome_perform, trace_perform. by intros [= <- <- _]. }
    split; [by eapply train_prints|].
    split; [by destruct (path_exists "../h5.models")|].
    split.
    { revert H7. unfold print.
      destruct (Py.getitem ts_en 0) as [test_en|e]; rewrite bind_lift; [|done].
      rewrite outcome_perform, trace_perform. intros H7.
      apply bind_ok_inv in H7 as ([test_fr aw'] & Hinfer & _ & ->).
      destruct (infer_nmt_encodes _ _ _ _ _ _ _ _ Hinfer) as [x Hx].
      exists x. apply list_elem_of_further, elem_of_app. by left. }
    by apply plot_saves.
Qed.

End ScriptOrder.

Section Assertion.

Context `{F : Framework}.

Lemma in_step_assert_inv {A B} s (m : M call A) (f : A → M (step * call) B) :
  quiet m →
  outcome (in_step s m ≫= f) = Raise AssertionError →
  ∃ a, outcome m = Ok a ∧ outcome (f a) = Raise AssertionError
       ∧ trace (in_step s m ≫= f) = (pair s <$> trace m) ++ trace (f a).
Proof.
  intros Hm Hfail.
  apply quiet_bind_inv in Hfail as (a & Ha & Hfa); [|exact Hm].
  exists a. split; [exact Ha|]. split; [exact Hfa|].
  rewrite trace_bind, Ha. reflexivity.
Qed.

(** Without a recorded decode step the translation is empty. *)
Lemma infer_nmt_nothing w1 w2 test_en_seq en_vsize fr_vsize tk d fr_text :
  outcome (infer_nmt w1 w2 test_en_seq en_vsize fr_vsize tk d) = Ok (fr_text, []) →
  fr_text = "".
Proof.
  intros Hrun.
  destruct (infer_nmt_run w1 w2 test_en_seq en_vsize fr_vsize tk d) as [_ Hok].
  destruct (Hok _ _ Hrun) as (words & _ & Hws & -> & _).
  by apply Forall2_nil_inv_l in Hws as ->.
Qed.

(** C3. [plot_attention_weights] ends in an assertion failure exactly when
    [attention_weights] is empty, and then before it has made any call; for
    a non-empty [attention_weights] it goes on past the assertion. No other
    function of the script ends in an assertion failure, and nothing
    catches one: a run of the script that ends in one has got as far as the
    plot after a decoding that emitted no word. *)
Theorem plot_assertion (encoder_inputs : array2 nat)
    (aw : list (nat * attention)) (en_id2word fr_id2word : gmap nat string) :
  (outcome (plot_attention_weights encoder_inputs aw en_id2word fr_id2word)
     = Raise AssertionError ↔ aw = [])
  ∧ (aw = [] →
     trace (plot_attention_weights encoder_inputs aw en_id2word fr_id2word) = [])
  ∧ (∀ train_size random_seed,
       outcome (get_data train_size random_seed) ≠ Raise AssertionError)
  ∧ (∀ tk1 tk2 en_text fr_text en_timesteps fr_timesteps,
       outcome (preprocess_data tk1 tk2 en_text fr_text en_timesteps fr_timesteps)
         ≠ Raise AssertionError)
  ∧ (∀ w en_seq fr_seq batch_size n_epochs en_vsize fr_vsize,
       outcome (train w en_seq fr_seq batch_size n_epochs en_vsize fr_vsize)
         ≠ Raise AssertionError)
  ∧ (∀ w1 w2 test_en_seq en_vsize fr_vsize tk d,
       outcome (infer_nmt w1 w2 test_en_seq en_vsize fr_vsize tk d)
         ≠ Raise AssertionError)
  ∧ (∀ train_size batch_size hidden_size en_timesteps fr_timesteps n_epochs,
       outcome (script train_size batch_size hidden_size en_timesteps
                  fr_timesteps n_epochs) = Raise AssertionError →
       (Decode, PrintLine (French ""))
         ∈ trace (script train_size batch_size hidden_size en_timesteps
                    fr_timesteps n_epochs)).
Proof.
  split; [apply plot_assertion_iff|]. split; [by intros ->|].
  split; [intros; apply quiet_get_data|].
  split; [intros; apply quiet_preprocess_data|].
  split; [intros; apply quiet_train|].
  split; [intros; apply quiet_infer_nmt|].
  intros train_size batch_size hidden_size en_timesteps fr_timesteps n_epochs.
  unfold script. intros Hfail.
  apply in_step_assert_inv in Hfail
    as ([[[tr_en tr_fr] ts_en] ts_fr] & _ & Hfail & ->); [|apply quiet_get_data].
  apply in_step_assert_inv in Hfail as ([tk1 tk2] & _ & Hfail & ->);
    [|unfold new_tokenizer; quiet].
  apply in_step_assert_inv in Hfail as ([en_seq fr_seq] & _ & Hfail & ->);
    [|apply quiet_preprocess_data].
  apply in_step_assert_inv in Hfail as ([[en_vsize fr_vsize] w] & _ & Hfail & ->);
    [|quiet].
  apply in_step_assert_inv in Hfail as (w' & _ & Hfail & ->);
    [|apply quiet_train].
  apply in_step_assert_inv in Hfail as ([] & _ & Hfail & ->); [|quiet].
  apply in_step_assert_inv in Hfail as ([test_en_seq aw'] & Hdec & Hfail & ->).
  2:{ unfold print. apply quiet_bind; [quiet|]. intros test_en.
      apply quiet_bind; [quiet|]. intros _.
      apply quiet_bind; [apply quiet_infer_nmt|]. intros [test_fr aw']. quiet. }
  rewrite outcome_in_step in Hfail. apply plot_assertion_iff in Hfail.
  subst aw'.
  do 6 (apply elem_of_app; right). apply elem_of_app. left.
  apply list_elem_of_fmap. exists (PrintLine (French "")). split; [done|].
  revert Hdec. unfold print.
  destruct (Py.getitem ts_en 0) as [test_en|e]; rewrite bind_lift; [|done].
  rewrite outcome_perform, trace_perform. intros Hdec.
  apply bind_ok_inv in Hdec as ([test_fr aw'] & Hinfer & Hrest & ->).
  rewrite outcome_perform in Hrest. injection Hrest as Hseq Haw. subst aw'.
  apply infer_nmt_nothing in Hinfer. subst test_fr.
  apply list_elem_of_further, elem_of_app. right.
  rewrite trace_perform. by left.
Qed.

End Assertion.

(** * Concrete runs

    The statements above at the small environment. *)

Section Runs.


(** C9: a training size of -1 is at most the corpus size, and [inds[:-1]]
    is all of the shuffled corpus but its last position: of four pairs,
    three are training pairs, not -1, and one is a test pair, not five. A
    seed that [np.random.seed] refuses ends the run before any list is
    made. *)
Lemma get_data_negative_train_size :
  (-1 ≤ 4)%Z
  ∧ length (@read_data Toy.small "data/small_vocab_en.txt") = 4
  ∧ length (@read_data Toy.small "data/small_vocab_fr.txt") = 4
  ∧ outcome (@get_data Toy.small (-1) 100)
      = Ok (["b b ."; "a a ."; "b a ."],
            ["sos y y eos ."; "sos x x eos ."; "sos y x eos ."],
            ["a b ."], ["sos x y eos ."])
  ∧ Z.of_nat (length ["b b ."; "a a ."; "b a ."]) ≠ (-1)%Z
  ∧ Z.of_nat (length ["a b ."]) ≠ (4 - -1)%Z
  ∧ outcome (@get_data Toy.small 3 (-1)) = Raise ValueError.
Proof.
  split; [lia|]. split; [reflexivity|]. split; [reflexivity|].
  split; [reflexivity|]. split; [simpl; lia|]. split; [simpl; lia|].
  reflexivity.
Qed.

(** C9 at a corpus of four pairs, a training size of three and the seed of
    the script. *)
Lemma get_data_split_witness :
  length (@read_data Toy.small "data/small_vocab_en.txt") = 4
  ∧ length (@read_data Toy.small "data/small_vocab_fr.txt") = 4
  ∧ (0 ≤ 3 ≤ Z.of_nat 4)%Z
  ∧ (0 ≤ 100 ≤ 4294967295)%Z
  ∧ ∃ tr_en_text tr_fr_text ts_en_text ts_fr_text,
      outcome (@get_data Toy.small 3 100)
        = Ok (tr_en_text, tr_fr_text, ts_en_text, ts_fr_text)
      ∧ length tr_en_text = 3 ∧ length tr_fr_text = 3
      ∧ length ts_en_text = 1 ∧ length ts_fr_text = 1.
Proof.
  split; [reflexivity|]. split; [reflexivity|]. split; [lia|]. split; [lia|].
  destruct (@get_data_split Toy.small 4 3 100)
    as (a & b & c & d & i1 & i2 & H & Ha & Hb & Hc & Hd & _);
    [reflexivity | reflexivity | lia | lia |].
  exists a, b, c, d. repeat split; assumption.
Defined.

(** C6: without sentences, or with no timestep, there is no array to
    return; [np.max] of an array without elements fails first. *)
Lemma preprocess_data_empty_corpus :
  outcome (@preprocess_data Toy.small Toy.vocab Toy.vocab [] [] 20 20)
    = Raise ValueError
  ∧ outcome (@preprocess_data Toy.small Toy.vocab Toy.vocab ["a b"] ["x y"] 0 0)
    = Raise ValueError
  ∧ ¬ ∃ en_seq fr_seq,
        outcome (@preprocess_data Toy.small Toy.vocab Toy.vocab [] [] 20 20)
          = Ok (en_seq, fr_seq).
Proof.
  split; [reflexivity|]. split; [reflexivity|].
  intros (en_seq & fr_seq & H). discriminate H.
Qed.

(** C6 at two sentences each and three, five timesteps. *)
Lemma preprocess_data_shape_witness :
  ["a b"; "b"] ≠ [] ∧ ["x"; "y x y x y x"] ≠ [] ∧ 0 < 3 ∧ 0 < 5
  ∧ ∃ en_seq fr_seq,
      outcome (@preprocess_data Toy.small Toy.vocab Toy.vocab
                 ["a b"; "b"] ["x"; "y x y x y x"] 3 5) = Ok (en_seq, fr_seq)
      ∧ Np.shape en_seq = (2, 3) ∧ Np.shape fr_seq = (2, 5).
Proof.
  split; [done|]. split; [done|]. split; [lia|]. split; [lia|].
  destruct (@preprocess_data_shape Toy.small Toy.vocab Toy.vocab
              ["a b"; "b"] ["x"; "y x y x y x"] 3 5)
    as (en_seq & fr_seq & H & Hen & Hfr & _); [done | done | lia | lia |].
  exists en_seq, fr_seq. repeat split; assumption.
Defined.

(** C4: of three sentences and a batch size of two, one batch of two is
    trained on; the third sentence is in no batch. *)
Lemma train_leaves_rows_out :
  to_categorical Toy.en3 2
    = Ok (Cat3 [[[0; 1]; [1; 0]]; [[1; 0]; [0; 1]]; [[0; 1]; [0; 1]]])
  ∧ outcome (@train Toy.small 0 Toy.en3 Toy.fr3 2 1 2 2) = Ok 1
  ∧ encoder_rows (trace (@train Toy.small 0 Toy.en3 Toy.fr3 2 1 2 2))
      = [[[0; 1]; [1; 0]]; [[1; 0]; [0; 1]]]
  ∧ [[0; 1]; [0; 1]]
      ∉ encoder_rows (trace (@train Toy.small 0 Toy.en3 Toy.fr3 2 1 2 2)).
Proof.
  split; [reflexivity|]. split; [reflexivity|]. split; [reflexivity|].
  change (encoder_rows _) with [[[0; 1]; [1; 0]]; [[1; 0]; [0; 1]]].
  rewrite !elem_of_cons, elem_of_nil. intros [H|[H|[]]]; discriminate H.
Qed.

(** C4 at the same run. *)
Lemma train_batches_witness :
  (0 < 2)%Z
  ∧ outcome (@train Toy.small 0 Toy.en3 Toy.fr3 2 1 2 2) = Ok 1
  ∧ ∃ epochs,
      length epochs = 1
      ∧ List.filter is_batch_call
          (trace (@train Toy.small 0 Toy.en3 Toy.fr3 2 1 2 2))
        = concat ((λ bs, concat (batch_calls <$> bs)) <$> epochs).
Proof.
  split; [lia|]. split; [reflexivity|].
  destruct (@train_batches Toy.small Toy.en3 Toy.fr3 2 1 2 2 0 1)
    as (k & epochs & _ & _ & Hlen & Htr & _); [lia | reflexivity |].
  exists epochs. split; assumption.
Defined.

(** C5 at the same run. *)
Lemma train_teacher_forcing_witness :
  TrainOnBatch (Cat3 [[[0; 1]; [1; 0]]; [[1; 0]; [0; 1]]])
      [[[0; 1]; [1; 0]]; [[1; 0]; [0; 1]]]
      [[[1; 0]; [0; 1]]; [[0; 1]; [0; 1]]]
    ∈ trace (@train Toy.small 0 Toy.en3 Toy.fr3 2 1 2 2)
  ∧ ∃ fr_onehot_seq,
      [[[0; 1]; [1; 0]]; [[1; 0]; [0; 1]]]
        = (λ sent, take (length sent - 1) sent) <$> fr_onehot_seq
      ∧ [[[1; 0]; [0; 1]]; [[0; 1]; [0; 1]]] = drop 1 <$> fr_onehot_seq.
Proof.
  assert (Hin : TrainOnBatch (Cat3 [[[0; 1]; [1; 0]]; [[1; 0]; [0; 1]]])
      [[[0; 1]; [1; 0]]; [[1; 0]; [0; 1]]]
      [[[1; 0]; [0; 1]]; [[0; 1]; [0; 1]]]
    ∈ trace (@train Toy.small 0 Toy.en3 Toy.fr3 2 1 2 2))
    by (apply (list_elem_of_lookup_2 _ 0); reflexivity).
  split; [exact Hin|].
  destruct (@train_teacher_forcing Toy.small Toy.en3 Toy.fr3 2 1 2 2 0 _ _ _ Hin)
    as (bi & fr & _ & Hdec & Htgt & _).
  exists fr. split; assumption.
Defined.

(** C1: the word ["10 000"], written with a no-break space, is one decode
    step and one pair, but two whitespace-separated words. *)
Lemma infer_nmt_word_with_space :
  ∃ fr_text aw,
    outcome (@infer_nmt Toy.numbers 0 0 (Array2 2 [[1; 1]]) 3 3
               Toy.numbers_vocab (@index2word Toy.numbers Toy.numbers_vocab))
      = Ok (fr_text, aw)
    ∧ length aw = 1
    ∧ PyStr.split fr_text = ["10"; "000"]
    ∧ length (PyStr.split fr_text) ≠ length aw.
Proof.
  eexists _, _. split; [vm_compute; reflexivity|].
  split; [reflexivity|]. split; [reflexivity|]. simpl. lia.
Qed.

Lemma small_vocab_tokens :
  map_Forall (λ _ w, PyStr.is_token w = true) (@index2word Toy.small Toy.vocab).
Proof. apply (bool_decide_unpack _). vm_compute. exact I. Defined.

(** C1 at the small environment: "x y" and two pairs. *)
Lemma infer_nmt_words_witness :
  outcome (@infer_nmt Toy.small 0 0 (Array2 2 [[1; 1]]) 8 8 Toy.vocab
             (@index2word Toy.small Toy.vocab))
    = Ok ("x y ", [(4, [[[7; 8; 9]]]); (5, [[[7; 8; 9]]])])
  ∧ map_Forall (λ _ w, PyStr.is_token w = true) (@index2word Toy.small Toy.vocab)
  ∧ length (PyStr.split "x y ") = 2.
Proof.
  assert (Hrun : outcome (@infer_nmt Toy.small 0 0 (Array2 2 [[1; 1]]) 8 8
             Toy.vocab (@index2word Toy.small Toy.vocab))
    = Ok ("x y ", [(4, [[[7; 8; 9]]]); (5, [[[7; 8; 9]]])]))
    by (vm_compute; reflexivity).
  split; [exact Hrun|]. split; [exact small_vocab_tokens|].
  destruct (@infer_nmt_words Toy.small 0 0 (Array2 2 [[1; 1]]) 8 8 Toy.vocab
              (@index2word Toy.small Toy.vocab) _ _ Hrun)
    as (_ & words & _ & _ & Hcount).
  exact (proj2 (Hcount small_vocab_tokens)).
Defined.

(** C2 at the small environment: the third decoder call predicts 0 and two
    steps are recorded. *)
Lemma infer_nmt_stops_witness :
  outcome (@infer_nmt Toy.small 0 0 (Array2 2 [[1; 1]]) 8 8 Toy.vocab
             (@index2word Toy.small Toy.vocab))
    = Ok ("x y ", [(4, [[[7; 8; 9]]]); (5, [[[7; 8; 9]]])])
  ∧ ∃ a, (Ok 0, a)
      ∈ decode_log (trace (@infer_nmt Toy.small 0 0 (Array2 2 [[1; 1]]) 8 8
                             Toy.vocab (@index2word Toy.small Toy.vocab))).
Proof.
  assert (Hrun : outcome (@infer_nmt Toy.small 0 0 (Array2 2 [[1; 1]]) 8 8
             Toy.vocab (@index2word Toy.small Toy.vocab))
    = Ok ("x y ", [(4, [[[7; 8; 9]]]); (5, [[[7; 8; 9]]])]))
    by (vm_compute; reflexivity).
  split; [exact Hrun|].
  destruct (@infer_nmt_stops Toy.small 0 0 (Array2 2 [[1; 1]]) 8 8 Toy.vocab
              (@index2word Toy.small Toy.vocab)) as [_ Hok].
  destruct (Hok _ _ Hrun) as ([Hearly _] & _).
  apply Hearly. simpl. lia.
Defined.

(** C3 at an empty and at a non-empty list. *)
Lemma plot_assertion_witness :
  outcome (@plot_attention_weights Toy.small (Array2 3 [[1; 2; 0]]) [] ∅ ∅)
    = Raise AssertionError
  ∧ outcome (@plot_attention_weights Toy.small (Array2 3 [[1; 2; 0]])
               [(4, [[[7; 8; 9]]])] ∅ ∅) ≠ Raise AssertionError.
Proof.
  split.
  - by apply (@plot_assertion Toy.small (Array2 3 [[1; 2; 0]]) [] ∅ ∅).
  - intros H.
    by apply (@plot_assertion Toy.small (Array2 3 [[1; 2; 0]])
                [(4, [[[7; 8; 9]]])] ∅ ∅) in H.
Defined.

(** C7 at two decode steps over three source positions. *)
Lemma plot_heatmap_witness :
  ∃ mat,
    Imshow mat
      ∈ trace (@plot_attention_weights Toy.small (Array2 3 [[1; 2; 0]])
                 [(4, [[[7; 8; 9]]]); (5, [[[1; 2; 3]]])]
                 (@index2word Toy.small Toy.vocab)
                 (@index2word Toy.small Toy.vocab))
    ∧ Np.column 0 mat = Some [7; 8; 9]
    ∧ Np.column 1 mat = Some [1; 2; 3].
Proof.
  destruct (@plot_heatmap Toy.small (Array2 3 [[1; 2; 0]])
              (@index2word Toy.small Toy.vocab) (@index2word Toy.small Toy.vocab)
              [(4, [[[7; 8; 9]]]); (5, [[[1; 2; 3]]])] 3)
    as (mat & rest & Htr & _ & _ & Hcol & _).
  - done.
  - repeat constructor.
  - exists mat. split; [rewrite Htr; apply list_elem_of_further, list_elem_of_here|].
    split; [exact (Hcol 0 _ eq_refl) | exact (Hcol 1 _ eq_refl)].
Defined.

(** C8 at the small environment, with three training pairs, batches of
    one, and two epochs. *)
Lemma script_steps_in_order_witness :
  outcome (@script Toy.small 3 1 96 3 5 2) = Ok tt
  ∧ ∃ training save plot : list (@call Toy.small),
      epochs_printed training = [1; 2]%Z
      ∧ last save = Some (SaveModel "../h5.models/nmt.h5")
      ∧ last plot = Some (Savefig "../results/attention.png").
Proof.
  assert (Hrun : outcome (@script Toy.small 3 1 96 3 5 2) = Ok tt)
    by (vm_compute; reflexivity).
  split; [exact Hrun|].
  destruct (@script_steps_in_order Toy.small 3 1 96 3 5 2) as (_ & _ & Hdone).
  destruct (Hdone Hrun)
    as (load & fit & pre & build & training & save & decode & plot & _ & _ & _
        & _ & _ & _ & Hep & Hsave & _ & Hplot).
  exists training, save, plot. split; [exact Hep|]. split; assumption.
Defined.

End Runs.

(** * Further properties *)

(** ** The tokens of a wrapped sentence *)

Section WrappedTokens.

Lemma split_from_blank_app cur a b :
  PyStr.split_from cur (a ++ String " " b)%string
    = PyStr.split_from cur a ++ PyStr.split b.
Proof.
  revert cur. induction a as [|c a IH]; intros cur.
  - change ("" ++ String " " b)%string with (String " " b).
    cbn [PyStr.split_from]. change (PyStr.isspace " ") with true.
    unfold PyStr.split. by destruct (String.eqb cur "").
  - rewrite append_cons. cbn [PyStr.split_from].
    destruct (PyStr.isspace c); [|apply IH].
    destruct (String.eqb cur ""); [apply IH|].
    rewrite <- app_comm_cons. f_equal. apply IH.
Qed.

Lemma endswith_spaced_stop body : PyStr.endswith (body ++ " .")%string "." = true.
Proof.
  induction body as [|c body IH]; [reflexivity|].
  rewrite append_cons. cbn [PyStr.endswith].
  destruct (body ++ " .")%string eqn:Hrest; [|exact IH].
  destruct body; discriminate Hrest.
Qed.

Lemma drop_last_spaced_stop body :
  PyStr.drop_last (body ++ " .")%string = (body ++ " ")%string.
Proof.
  induction body as [|c body IH]; [reflexivity|].
  rewrite !append_cons. cbn [PyStr.drop_last]. rewrite IH.
  destruct (body ++ " .")%string eqn:Hrest; [|reflexivity].
  destruct body; discriminate Hrest.
Qed.

(** X1. A sentence written as the corpus writes them, with a blank before
    the final full stop, and a sentence without a final full stop are both
    wrapped into the start marker, the words of the sentence, the end marker
    and a full stop, each a token of its own. *)
Theorem wrap_fr_tokens :
  (∀ body,
     PyStr.split (wrap_fr (body ++ " .")%string)
       = "sos" :: PyStr.split body ++ ["eos"; "."])
  ∧ (∀ sent,
       PyStr.endswith sent "." = false →
       PyStr.split (wrap_fr sent) = "sos" :: PyStr.split sent ++ ["eos"; "."]).
Proof.
  assert (Hwrapped : ∀ s,
    PyStr.split ("sos " ++ s ++ " eos .")%string
      = "sos" :: PyStr.split s ++ ["eos"; "."]).
  { intros s. unfold PyStr.split at 1.
    change ("sos " ++ s ++ " eos .")%string
      with ("sos" ++ String " " (s ++ String " " "eos ."))%string.
    rewrite split_from_blank_app. unfold PyStr.split at 1.
    rewrite split_from_blank_app. reflexivity. }
  split.
  - intros body. unfold wrap_fr.
    rewrite endswith_spaced_stop, drop_last_spaced_stop.
    rewrite append_assoc. apply Hwrapped.
  - intros sent Hstop. unfold wrap_fr. rewrite Hstop. apply Hwrapped.
Qed.

End WrappedTokens.

(** ** The inverted word index *)

Section WordIndex.

Context `{F : Framework}.

Lemma dict_list_to_map (pairs : list (nat * string)) (d : gmap nat string) :
  fold_left (λ d kv, <[kv.1 := kv.2]> d) pairs d
    = foldr (λ kv d, <[kv.1 := kv.2]> d) d (reverse pairs).
Proof.
  revert d. induction pairs as [|kv pairs IH]; intros d; [done|].
  cbn [fold_left]. rewrite IH, reverse_cons, foldr_app. done.
Qed.

Lemma zip_swapped (wi : list (string * nat)) :
  zip wi.*2 wi.*1 = prod_swap <$> wi.
Proof.
  induction wi as [|[w i] wi IH]; [done|].
  rewrite !fmap_cons. cbn [zip_with]. f_equal. exact IH.
Qed.

(** X2. When no id occurs twice in the tokenizer's word index, the
    dictionary [index2word] is its inverse: it maps an id to a word exactly
    when the word index maps that word to that id. *)
Theorem index2word_inverts (tokenizer : Tokenizer) (i : nat) (w : string) :
  NoDup (word_index tokenizer).*2 →
  index2word tokenizer !! i = Some w ↔ (w, i) ∈ word_index tokenizer.
Proof.
  intros Hnd. unfold index2word, Py.dict.
  rewrite dict_list_to_map, zip_swapped.
  change (foldr _ ∅ ?l) with (list_to_map (M:=gmap nat string) l).
  rewrite <- elem_of_list_to_map.
  - rewrite elem_of_reverse, list_elem_of_fmap. split.
    + intros ([w' i'] & [= -> ->] & Hin). exact Hin.
    + intros Hin. by exists (w, i).
  - rewrite <- fmap_reverse, reverse_Permutation.
    rewrite <- list_fmap_compose.
    replace (fst ∘ prod_swap) with (@snd string nat); [exact Hnd|].
    done.
Qed.

End WordIndex.

(** ** [get_data] on any corpus and any training size *)

Section Subscripts.

Context {E A : Type}.

Lemma mapM_getitem_all (l : list A) (d : A) (inds : list nat) :
  Forall (λ i, i < length l) inds →
  mapM (λ ti, lift (Py.getitem l ti) : M E A) inds
    = ([], Ok ((λ i, default d (l !! i)) <$> inds)).
Proof.
  induction 1 as [|i inds Hi _ IH]; [reflexivity|].
  destruct (lookup_lt_is_Some_2 l i Hi) as [x Hx].
  cbn [mapM]. rewrite IH, bind_lift. unfold Py.getitem. rewrite Hx.
  rewrite fmap_cons, Hx. reflexivity.
Qed.

(** One subscript out of range fails the whole comprehension. *)
Lemma mapM_getitem_out_of_range (l : list A) (inds : list nat) :
  Exists (λ i, length l ≤ i) inds →
  mapM (λ ti, lift (Py.getitem l ti) : M E A) inds = ([], Raise IndexError).
Proof.
  induction inds as [|i inds IH]; intros Hex; [by apply Exists_nil in Hex|].
  cbn [mapM]. rewrite bind_lift.
  destruct (Py.getitem l i) as [x|e] eqn:Hx.
  - apply Exists_cons in Hex as [Hi|Hex].
    + unfold Py.getitem in Hx. rewrite lookup_ge_None_2 in Hx by done. discriminate Hx.
    + rewrite (IH Hex). reflexivity.
  - unfold Py.getitem in Hx. destruct (l !! i); congruence.
Qed.

Lemma slice_split (k : Z) (l : list A) :
  PySeq.slice None (Some k) l ++ PySeq.slice (Some k) None l = l.
Proof.
  unfold PySeq.slice. simpl.
  set (a := PySeq.bound (length l) k).
  rewrite Nat.sub_0_r, drop_0.
  rewrite (take_ge (drop a l)) by (rewrite length_drop; lia).
  apply take_drop.
Qed.

End Subscripts.

Section GetDataAnySize.

Context `{F : Framework}.
Variables (train_size random_seed : Z).

Abbreviation en_lines := (read_data "data/small_vocab_en.txt").
Abbreviation fr_lines := (read_data "data/small_vocab_fr.txt").
Abbreviation shuffled := (shuffle random_seed (seq 0 (length en_lines))).
Abbreviation train_part := (PySeq.slice None (Some train_size) shuffled).
Abbreviation test_part := (PySeq.slice (Some train_size) None shuffled).

Lemma parts_shuffled : train_part ++ test_part ≡ₚ seq 0 (length en_lines).
Proof. rewrite slice_split. apply shuffle_perm. Qed.

Lemma parts_in_range :
  Forall (λ i, i < length en_lines) train_part
  ∧ Forall (λ i, i < length en_lines) test_part.
Proof.
  apply Forall_app. rewrite parts_shuffled.
  apply Forall_forall. intros i Hi%elem_of_seq. lia.
Qed.

Abbreviation seed_taken := ((0 ≤ random_seed ≤ 4294967295)%Z).

(** A seed that [np.random.seed] refuses ends the run after the corpus has
    been read and its length printed. *)
Lemma get_data_seed_refused :
  ¬ seed_taken →
  get_data train_size random_seed
    = ([ReadData "data/small_vocab_en.txt"; ReadData "data/small_vocab_fr.txt";
        PrintLine (TextLength (length en_lines))],
       Raise ValueError).
Proof.
  intros Hseed. unfold get_data, print.
  rewrite !bind_perform, (seed_out_of_range _ Hseed), bind_lift. reflexivity.
Qed.

(** What [get_data] returns when the French file has a line for every
    English line. *)
Lemma get_data_run :
  seed_taken →
  length en_lines ≤ length fr_lines →
  outcome (get_data train_size random_seed)
    = Ok ((λ i, default "" (en_lines !! i)) <$> train_part,
          (λ i, default "" ((wrap_fr <$> fr_lines) !! i)) <$> train_part,
          (λ i, default "" (en_lines !! i)) <$> test_part,
          (λ i, default "" ((wrap_fr <$> fr_lines) !! i)) <$> test_part).
Proof.
  intros Hseed Hlen. destruct parts_in_range as [Htr Hts].
  assert (Htr' : Forall (λ i, i < length (wrap_fr <$> fr_lines)) train_part).
  { rewrite length_fmap. eapply Forall_impl; [exact Htr|]. intros i Hi. simpl in *. lia. }
  assert (Hts' : Forall (λ i, i < length (wrap_fr <$> fr_lines)) test_part).
  { rewrite length_fmap. eapply Forall_impl; [exact Hts|]. intros i Hi. simpl in *. lia. }
  unfold get_data, print.
  rewrite !outcome_perform, (seed_in_range _ Hseed), bind_lift.
  cbv beta iota. rewrite outcome_perform.
  rewrite (mapM_getitem_all (E:=call) en_lines "" train_part Htr), bind_pair.
  rewrite (mapM_getitem_all (E:=call) (wrap_fr <$> fr_lines) "" train_part Htr'),
    bind_pair.
  rewrite (mapM_getitem_all (E:=call) en_lines "" test_part Hts), bind_pair.
  rewrite (mapM_getitem_all (E:=call) (wrap_fr <$> fr_lines) "" test_part Hts'),
    bind_pair.
  reflexivity.
Qed.

Lemma get_data_short_french :
  seed_taken →
  length fr_lines < length en_lines →
  outcome (get_data train_size random_seed) = Raise IndexError.
Proof.
  intros Hseed Hlen. destruct parts_in_range as [Htr Hts].
  assert (Hbad : Exists (λ i, length (wrap_fr <$> fr_lines) ≤ i)
                   (train_part ++ test_part)).
  { apply Exists_exists. exists (length fr_lines). split.
    - rewrite parts_shuffled. apply elem_of_seq. lia.
    - by rewrite length_fmap. }
  unfold get_data, print.
  rewrite !outcome_perform, (seed_in_range _ Hseed), bind_lift.
  cbv beta iota. rewrite outcome_perform.
  rewrite (mapM_getitem_all (E:=call) en_lines "" train_part Htr), bind_pair.
  apply Exists_app in Hbad as [Hbad|Hbad].
  - by rewrite (mapM_getitem_out_of_range _ _ Hbad).
  - destruct (decide (Forall (λ i, i < length (wrap_fr <$> fr_lines)) train_part))
      as [Hok|Hno].
    + rewrite (mapM_getitem_all (E:=call) _ "" train_part Hok), bind_pair.
      rewrite (mapM_getitem_all (E:=call) en_lines "" test_part Hts), bind_pair.
      by rewrite (mapM_getitem_out_of_range _ _ Hbad).
    + apply not_Forall_Exists in Hno; [|intros i; apply _].
      rewrite (mapM_getitem_out_of_range (wrap_fr <$> fr_lines) train_part).
      * reflexivity.
      * eapply Exists_impl; [exact Hno|]. intros i Hi. simpl in *. lia.
Qed.

(** X3. How [get_data] ends, whatever the training size. It ends in a
    [ValueError] exactly when the seed is not one that [np.random.seed]
    takes (0 to [2**32 - 1]), and then no index has been drawn. With a seed
    that is taken, it ends in an [IndexError] exactly when the French file
    has fewer lines than the English one, and it returns its four lists
    exactly when the French file has a line for every English line: the
    subscripts are drawn from the English file alone, so surplus French
    lines go unnoticed and missing ones stop the run even when only the test
    part would use them. *)
Theorem get_data_index_error :
  (outcome (get_data train_size random_seed) = Raise ValueError
   ↔ ¬ seed_taken)
  ∧ (outcome (get_data train_size random_seed) = Raise IndexError
     ↔ seed_taken ∧ length fr_lines < length en_lines)
  ∧ ((∃ r, outcome (get_data train_size random_seed) = Ok r)
     ↔ seed_taken ∧ length en_lines ≤ length fr_lines).
Proof.
  destruct (decide seed_taken) as [Hseed|Hseed].
  2: { rewrite (get_data_seed_refused Hseed). cbn [outcome snd].
       split; [done|]. split; [split; [done | by intros [? _]]|].
       split; [by intros [r ?] | by intros [? _]]. }
  destruct (decide (length en_lines ≤ length fr_lines)) as [Hlen|Hlen].
  - rewrite (get_data_run Hseed Hlen).
    split; [done|]. split; [split; [done | intros [_ ?]; lia]|].
    split; [done | by eauto].
  - rewrite (get_data_short_french Hseed) by lia.
    split; [done|]. split; [split; [intros _; split; [done | lia] | done]|].
    split; [by intros [r ?] | by intros [_ ?]].
Qed.

Lemma zip_same_indices {B C} (f : nat → B) (g : nat → C) (inds : list nat) :
  zip (f <$> inds) (g <$> inds) = (λ i, (f i, g i)) <$> inds.
Proof.
  induction inds as [|i inds IH]; [done|].
  rewrite !fmap_cons. cbn [zip_with]. f_equal. exact IH.
Qed.

Lemma zip_by_index {B C} (l : list B) (k : list C) (b : B) (c : C) :
  length l ≤ length k →
  zip l k = (λ i, (default b (l !! i), default c (k !! i))) <$> seq 0 (length l).
Proof.
  intros Hlen. apply list_eq. intros i.
  rewrite lookup_zip_with, list_lookup_fmap.
  destruct (l !! i) as [x|] eqn:Hx; simpl.
  - pose proof (lookup_lt_Some _ _ _ Hx) as Hi.
    destruct (lookup_lt_is_Some_2 k i) as [y Hy]; [lia|].
    rewrite Hy, lookup_seq_lt by done. simpl. by rewrite Hx, Hy.
  - apply lookup_ge_None in Hx. by rewrite lookup_ge_None_2 by (rewrite length_seq; lia).
Qed.

(** X4. For a seed that [np.random.seed] takes, and whatever the training
    size, negative or beyond the corpus, the
    sentence pairs that [get_data] returns, training pairs followed by test
    pairs, are the sentence pairs of the corpus (English line [i] with the
    wrapped French line [i]) in another order: no pair is lost, doubled or
    mismatched. With a training size of at least the corpus size the test
    set is empty. *)
Theorem get_data_keeps_pairs :
  seed_taken →
  length en_lines ≤ length fr_lines →
  ∃ tr_en_text tr_fr_text ts_en_text ts_fr_text,
    outcome (get_data train_size random_seed)
      = Ok (tr_en_text, tr_fr_text, ts_en_text, ts_fr_text)
    ∧ length tr_en_text = length tr_fr_text
    ∧ length ts_en_text = length ts_fr_text
    ∧ zip (tr_en_text ++ ts_en_text) (tr_fr_text ++ ts_fr_text)
        ≡ₚ zip en_lines (wrap_fr <$> fr_lines)
    ∧ ((Z.of_nat (length en_lines) ≤ train_size)%Z →
       ts_en_text = [] ∧ ts_fr_text = []).
Proof.
  intros Hseed Hlen. eexists _, _, _, _. split; [by apply get_data_run|].
  split; [by rewrite !length_fmap|]. split; [by rewrite !length_fmap|].
  split.
  - rewrite <- !fmap_app, zip_same_indices, parts_shuffled.
    rewrite (zip_by_index en_lines (wrap_fr <$> fr_lines) "" "")
      by (rewrite length_fmap; lia).
    done.
  - intros Hall.
    assert (Hnone : test_part = []).
    { rewrite slice_from_nonneg by lia. apply drop_ge.
      rewrite shuffle_perm, length_seq. lia. }
    by rewrite Hnone.
Qed.

End GetDataAnySize.

(** ** How far a run of the script gets *)

Section Reached.

Context `{F : Framework}.

(** A call of a later stage is reached only through the normal end of
    every earlier stage. *)
Lemma stage_reached {A B} (s s' : step) (m : M call A)
    (f : A → M (step * call) B) (c : call) :
  s ≠ s' →
  (s, c) ∈ trace (in_step s' m ≫= f) →
  ∃ a, outcome m = Ok a
       ∧ (s, c) ∈ trace (f a)
       ∧ trace (in_step s' m ≫= f) = (pair s' <$> trace m) ++ trace (f a)
       ∧ outcome (in_step s' m ≫= f) = outcome (f a).
Proof.
  intros Hs. rewrite trace_bind, outcome_bind, outcome_in_step, trace_in_step.
  assert (Hnot : (s, c) ∉ pair s' <$> trace m).
  { intros (c' & Heq & _)%list_elem_of_fmap. congruence. }
  destruct (outcome m) as [a|e]; [|done].
  intros [Hin|Hin]%elem_of_app; [done|]. by exists a.
Qed.

Lemma get_data_no_test_set train_size random_seed a b c d :
  (Z.of_nat (length (read_data "data/small_vocab_en.txt")) ≤ train_size)%Z →
  outcome (get_data train_size random_seed) = Ok (a, b, c, d) →
  c = [].
Proof.
  intros Hall Hrun.
  destruct (decide (0 ≤ random_seed ≤ 4294967295)%Z) as [Hseed|Hseed].
  2: { rewrite (get_data_seed_refused _ _ Hseed) in Hrun. discriminate Hrun. }
  destruct (decide (length (read_data "data/small_vocab_en.txt")
                    ≤ length (read_data "data/small_vocab_fr.txt"))) as [Hlen|Hlen].
  - rewrite get_data_run in Hrun by done.
    injection Hrun as _ _ Hc _. subst c.
    rewrite slice_from_nonneg by lia. rewrite drop_ge; [done|].
    rewrite shuffle_perm, length_seq. lia.
  - rewrite get_data_short_french in Hrun by (done || lia). discriminate Hrun.
Qed.

Abbreviation stops_early m :=
  ((∃ e, outcome m = Raise e)
   ∧ Forall (λ e : step * call, e.1 ≠ Decode ∧ e.1 ≠ PlotAttention) (trace m)
   ∧ (∀ c, (SaveWeights, c) ∈ trace m → outcome m = Raise IndexError)).

Lemma stops_early_bind {A B} (s' : step) (m : M call A)
    (f : A → M (step * call) B) :
  step_index s' < 5 →
  (∀ a, outcome m = Ok a → stops_early (f a)) →
  stops_early (in_step s' m ≫= f).
Proof.
  intros Hs Hf. rewrite trace_bind, outcome_bind, outcome_in_step, trace_in_step.
  assert (Hm : Forall (λ e : step * call, e.1 ≠ Decode ∧ e.1 ≠ PlotAttention)
                 (pair s' <$> trace m)).
  { apply Forall_fmap, Forall_forall. intros c _. simpl.
    destruct s'; simpl in Hs; first [lia | done]. }
  assert (Hnot : ∀ c, (SaveWeights, c) ∉ pair s' <$> trace m).
  { intros c (c' & Heq & _)%list_elem_of_fmap.
    injection Heq as <- _. simpl in Hs. lia. }
  destruct (outcome m) as [a|e].
  2: { split; [by eauto|]. split; [done|]. intros c Hin. by apply Hnot in Hin. }
  destruct (Hf a eq_refl) as (Hraise & Hall & Hsaved).
  split; [done|]. split; [by apply Forall_app|].
  intros c [Hin|Hin]%elem_of_app; [by apply Hnot in Hin | eauto].
Qed.

Variables (train_size batch_size hidden_size : Z).
Variables (en_timesteps fr_timesteps : nat) (n_epochs : Z).

Abbreviation this_script :=
  (script train_size batch_size hidden_size en_timesteps fr_timesteps n_epochs).

(** X5. With a training size that is at least the number of sentences of
    the corpus (the [__main__] block asks for 100000) the test set is empty
    and the script cannot end normally: no sentence is translated, neither
    the encoder nor the decoder is called and nothing is plotted. If the run
    gets as far as saving the model, it then ends in an [IndexError] at
    [ts_en_text[0]]. *)
Theorem script_without_test_sentence :
  (Z.of_nat (length (read_data "data/small_vocab_en.txt")) ≤ train_size)%Z →
  (∃ e, outcome this_script = Raise e)
  ∧ Forall (λ e, e.1 ≠ Decode ∧ e.1 ≠ PlotAttention) (trace this_script)
  ∧ (∀ c, (SaveWeights, c) ∈ trace this_script →
          outcome this_script = Raise IndexError).
Proof.
  intros Hall. unfold script.
  apply stops_early_bind; [simpl; lia|].
  intros [[[tr_en tr_fr] ts_en] ts_fr] Hdata.
  apply get_data_no_test_set in Hdata as ->; [|done].
  apply stops_early_bind; [simpl; lia|]. intros [tk1 tk2] _.
  apply stops_early_bind; [simpl; lia|]. intros [en_seq fr_seq] _.
  apply stops_early_bind; [simpl; lia|]. intros [[en_vsize fr_vsize] w] _.
  apply stops_early_bind; [simpl; lia|]. intros w' _.
  destruct (path_exists "../h5.models"); cbn; (split; [by eauto|]);
    (split; [repeat constructor; done | done]).
Qed.

Abbreviation saves_first m :=
  (∀ s c,
     (s, c) ∈ trace m → s = Decode ∨ s = PlotAttention →
     ∃ before after,
       trace m = before ++ (SaveWeights, SaveModel "../h5.models/nmt.h5") :: after
       ∧ Forall (λ e : step * call, e.1 ≠ Decode ∧ e.1 ≠ PlotAttention) before
       ∧ (s, c) ∈ after).

Lemma saves_first_bind {A B} (s' : step) (m : M call A)
    (f : A → M (step * call) B) :
  step_index s' < 5 →
  (∀ a, saves_first (f a)) →
  saves_first (in_step s' m ≫= f).
Proof.
  intros Hs Hf s c Hin Hlate.
  apply stage_reached in Hin as (a & _ & Hin & -> & _).
  2: { intros ->. destruct Hlate as [->| ->]; simpl in Hs; lia. }
  destruct (Hf a s c Hin Hlate) as (before & after & -> & Hbefore & Hafter).
  exists ((pair s' <$> trace m) ++ before), after.
  split; [by rewrite app_assoc|]. split; [|done].
  apply Forall_app. split; [|done].
  apply Forall_fmap, Forall_forall. intros c' _. simpl.
  destruct s'; simpl in Hs; first [lia | done].
Qed.

(** X6. In every run of the script, also one that fails later, a call of
    the decoding or the plotting stage (a translation printed, an encoder or
    decoder prediction, a plotting call) comes only after the trained model
    has been saved to "../h5.models/nmt.h5", and no such call was made
    before the model was saved. *)
Theorem script_saves_before_decoding (s : step) (c : call) :
  (s, c) ∈ trace this_script →
  s = Decode ∨ s = PlotAttention →
  ∃ before after,
    trace this_script
      = before ++ (SaveWeights, SaveModel "../h5.models/nmt.h5") :: after
    ∧ Forall (λ e, e.1 ≠ Decode ∧ e.1 ≠ PlotAttention) before
    ∧ (s, c) ∈ after.
Proof.
  revert s c. unfold script.
  apply saves_first_bind; [simpl; lia|]. intros [[[tr_en tr_fr] ts_en] ts_fr].
  apply saves_first_bind; [simpl; lia|]. intros [tk1 tk2].
  apply saves_first_bind; [simpl; lia|]. intros [en_seq fr_seq].
  apply saves_first_bind; [simpl; lia|]. intros [[en_vsize fr_vsize] w].
  apply saves_first_bind; [simpl; lia|]. intros w'.
  intros s c Hin Hlate.
  apply stage_reached in Hin as (_ & _ & Hin & -> & _).
  2: { by destruct Hlate as [->| ->]. }
  destruct (path_exists "../h5.models"); cbn [negb].
  - eexists [], _.
    split; [reflexivity|]. split; [constructor | exact Hin].
  - eexists [(SaveWeights, Mkdir "../h5.models")], _.
    split; [reflexivity|]. split; [|exact Hin].
    repeat constructor; done.
Qed.

End Reached.

(** ** How much [train] trains *)

Section TrainEdges.

Context `{F : Framework}.
Variables (en_seq fr_seq : array2 nat) (batch_size : Z) (en_vsize fr_vsize : nat).

Abbreviation one_epoch := (train_epoch en_seq fr_seq batch_size en_vsize fr_vsize).
Abbreviation one_batch := (train_batch en_seq fr_seq batch_size en_vsize fr_vsize).
Abbreviation is_train_call :=
  (λ c : call, match c with TrainOnBatch _ _ _ => true | _ => false end).
Abbreviation is_evaluate_call :=
  (λ c : call, match c with Evaluate _ _ _ => true | _ => false end).

Lemma epochs_range (n_epochs : Z) :
  Py.range n_epochs 1 = Ok (Z.of_nat <$> seq 0 (Z.to_nat n_epochs)).
Proof.
  unfold Py.range, PySeq.range_pos, PySeq.range_count. simpl. f_equal.
  destruct (Z.leb_spec n_epochs 0) as [Hle|Hgt].
  - by replace (Z.to_nat n_epochs) with 0 by lia.
  - replace (n_epochs + 1 - 1)%Z with n_epochs by lia. rewrite Z.div_1_r.
    apply list_fmap_ext. intros _ i _. lia.
Qed.

Lemma no_batch_starts (N : nat) :
  batch_size ≠ 0%Z →
  (batch_size < 0)%Z ∨ (Z.of_nat N ≤ batch_size)%Z →
  Py.range (Z.of_nat N - batch_size) batch_size = Ok [].
Proof.
  intros Hnz Hcase. unfold Py.range.
  destruct (Z.eqb_spec batch_size 0) as [|_]; [done|].
  destruct (Z.ltb_spec 0 batch_size) as [Hpos|Hneg].
  - unfold PySeq.range_pos, PySeq.range_count.
    destruct (Z.leb_spec (Z.of_nat N - batch_size) 0); [done | lia].
  - destruct (Z.leb_spec 0 (Z.of_nat N - batch_size)); [done | lia].
Qed.

Lemma idle_epoch (ep : Z) (w : Weights) :
  Py.range (Z.of_nat (Np.shape en_seq).1 - batch_size) batch_size = Ok [] →
  one_epoch ep w = ([PrintLine (EpochLoss (ep + 1) (mean []))], Ok w).
Proof.
  intros Hnone. unfold train_epoch. rewrite Hnone, bind_lift.
  cbn [for_each]. rewrite bind_ret. cbv beta iota.
  rewrite Z.mod_1_r. cbn [Z.eqb]. reflexivity.
Qed.

Lemma idle_epochs (eps : list Z) (w : Weights) :
  Py.range (Z.of_nat (Np.shape en_seq).1 - batch_size) batch_size = Ok [] →
  for_each eps one_epoch w
    = ((λ ep, PrintLine (EpochLoss (ep + 1) (mean []))) <$> eps, Ok w).
Proof.
  intros Hnone. induction eps as [|ep eps IH]; [reflexivity|].
  rewrite for_each_cons, idle_epoch, bind_pair, IH by done. reflexivity.
Qed.

(** X7. When the training data has at most [batch_size] rows (exactly
    [batch_size] rows included), or [batch_size] is negative, [train] trains
    nothing: it returns the model it was given, calls neither
    [train_on_batch] nor [evaluate], and prints for each of the epochs 1 to
    [n_epochs] the mean of an empty list of losses. *)
Theorem train_without_batches (full_model : Weights) (n_epochs : Z) :
  batch_size ≠ 0%Z →
  (batch_size < 0)%Z ∨ (Z.of_nat (Np.shape en_seq).1 ≤ batch_size)%Z →
  train full_model en_seq fr_seq batch_size n_epochs en_vsize fr_vsize
    = ((λ i, PrintLine (EpochLoss (Z.of_nat i + 1) (mean [])))
         <$> seq 0 (Z.to_nat n_epochs),
       Ok full_model).
Proof.
  intros Hnz Hcase. unfold train. rewrite epochs_range, bind_lift.
  rewrite idle_epochs by by apply no_batch_starts.
  by rewrite <- list_fmap_compose.
Qed.

Lemma count_batch_calls (p : call → bool) (bs : list batch) (n : nat) :
  (∀ b, length (List.filter p (batch_calls b)) = n) →
  length (List.filter p (concat (batch_calls <$> bs))) = length bs * n.
Proof.
  intros Hp. induction bs as [|b bs IH]; [done|].
  rewrite fmap_cons. cbn [concat]. rewrite List.filter_app, length_app, Hp, IH.
  simpl. lia.
Qed.

Lemma count_epoch_calls (p : call → bool) (n : nat) ep w w' :
  (0 < batch_size)%Z →
  (∀ b, length (List.filter p (batch_calls b)) = n) →
  (∀ e, p (PrintLine e) = false) →
  outcome (one_epoch ep w) = Ok w' →
  length (List.filter p (trace (one_epoch ep w)))
    = (length (rows en_seq) - 1) / Z.to_nat batch_size * n.
Proof.
  intros Hb Hp Hprint. unfold train_epoch.
  change (Np.shape en_seq).1 with (length (rows en_seq)).
  unfold Py.range.
  destruct (Z.eqb_spec batch_size 0); [lia|].
  destruct (Z.ltb_spec 0 batch_size); [|lia].
  rewrite bind_lift. intros Hok.
  apply bind_ok_inv in Hok as ([w1 losses] & Hloop & _ & ->).
  apply train_batches_run in Hloop as (bs & Hbs & ->).
  apply mapM_result_Forall2, Forall2_length in Hbs.
  unfold PySeq.range_pos in Hbs.
  rewrite length_fmap, length_seq, range_count_batches in Hbs by done.
  rewrite List.filter_app, length_app, (count_batch_calls p bs n Hp), <- Hbs.
  rewrite Z.mod_1_r. cbn [Z.eqb]. unfold print.
  rewrite trace_perform. cbn [trace mret M_ret fst List.filter].
  rewrite Hprint. simpl. lia.
Qed.

Lemma count_epochs_calls (p : call → bool) (n : nat) eps w w' :
  (0 < batch_size)%Z →
  (∀ b, length (List.filter p (batch_calls b)) = n) →
  (∀ e, p (PrintLine e) = false) →
  outcome (for_each eps one_epoch w) = Ok w' →
  length (List.filter p (trace (for_each eps one_epoch w)))
    = length eps * ((length (rows en_seq) - 1) / Z.to_nat batch_size * n).
Proof.
  intros Hb Hp Hprint. revert w. induction eps as [|ep eps IH]; intros w Hok.
  - reflexivity.
  - apply for_each_ok_cons in Hok as (w1 & H1 & Hrest & ->).
    rewrite List.filter_app, length_app.
    rewrite (count_epoch_calls p n ep w w1), (IH w1) by done.
    simpl. lia.
Qed.

(** X8. A run of [train] with a positive batch size that reaches its end
    has called [train_on_batch] exactly [n_epochs * ((N - 1) div batch_size)]
    times, and [evaluate] as often, [N] being the number of rows of the
    training data. When [N] is a positive multiple of [batch_size] this is
    one batch per epoch fewer than the [N div batch_size] full batches the
    data holds: the last [batch_size] rows are never trained on. *)
Theorem train_batch_count (full_model w' : Weights) (n_epochs : Z) :
  (0 < batch_size)%Z →
  outcome (train full_model en_seq fr_seq batch_size n_epochs en_vsize fr_vsize)
    = Ok w' →
  let N := length (rows en_seq) in
  let b := Z.to_nat batch_size in
  let calls :=
    trace (train full_model en_seq fr_seq batch_size n_epochs en_vsize fr_vsize) in
  length (List.filter is_train_call calls) = Z.to_nat n_epochs * ((N - 1) / b)
  ∧ length (List.filter is_evaluate_call calls) = Z.to_nat n_epochs * ((N - 1) / b)
  ∧ (0 < N → N `mod` b = 0 → (N - 1) / b = N / b - 1).
Proof.
  intros Hb Hok N b calls. unfold calls, train in Hok |- *.
  rewrite epochs_range, bind_lift in Hok |- *.
  split; [|split].
  - rewrite (count_epochs_calls is_train_call 1 _ _ w') by done.
    rewrite length_fmap, length_seq. fold N b. lia.
  - rewrite (count_epochs_calls is_evaluate_call 1 _ _ w') by done.
    rewrite length_fmap, length_seq. fold N b. lia.
  - intros HN Hmod.
    assert (Hbpos : 0 < b) by (unfold b; lia).
    assert (Hdiv : N = b * (N / b)).
    { rewrite (Nat.div_mod N b) at 1 by lia. lia. }
    assert (Hq : 0 < N / b) by (destruct (N / b); lia).
    symmetry. apply (Nat.div_unique _ _ _ (b - 1)); [lia|]. nia.
Qed.

Abbreviation update :=
  (λ (w : Weights) (b : batch), train_on_batch w b.1.1 b.1.2 b.2).
Abbreviation tensors_of :=
  (batch_tensors en_seq fr_seq batch_size en_vsize fr_vsize).





End TrainEdges.

(** ** Word ids without a word *)

Section NoKeyError.

Lemma bind_no_key_error {A B} (r : result A) (f : A → result B) :
  r ≠ Raise KeyError → (∀ a, f a ≠ Raise KeyError) → r ≫= f ≠ Raise KeyError.
Proof. destruct r; cbn; [intros _ H; apply H | congruence]. Qed.

Lemma fmap_no_key_error {A B} (f : A → B) (r : result A) :
  r ≠ Raise KeyError → f <$> r ≠ Raise KeyError.
Proof. destruct r; cbn; congruence. Qed.

Lemma mapM_no_key_error {A B} (f : A → result B) (l : list A) :
  (∀ x, f x ≠ Raise KeyError) → mapM f l ≠ Raise KeyError.
Proof.
  intros Hf. induction l as [|x l IH]; [done|]. cbn [mapM].
  apply bind_no_key_error; [apply Hf|]. intros y.
  apply bind_no_key_error; [apply IH | done].
Qed.

Lemma getitem_no_key_error {A} (l : list A) i : Py.getitem l i ≠ Raise KeyError.
Proof. unfold Py.getitem. by destruct (l !! i). Qed.

Lemma to_categorical_no_key_error y n : to_categorical y n ≠ Raise KeyError.
Proof.
  assert (Hone : ∀ m k, one_hot m k ≠ Raise KeyError).
  { intros m k. unfold one_hot. by case_match. }
  unfold to_categorical. apply bind_no_key_error.
  - case_match; [|done]. apply fmap_no_key_error. unfold Np.max. by destruct (Np.ravel y).
  - intros m. case_match; apply fmap_no_key_error, mapM_no_key_error; intros;
      try apply mapM_no_key_error; intros; apply Hone.
Qed.

Lemma argmax00_no_key_error `{F : Framework} dec_out :
  argmax00 dec_out ≠ Raise KeyError.
Proof.
  unfold argmax00. apply bind_no_key_error.
  - apply mapM_no_key_error. intros r. apply mapM_no_key_error. intros v.
    by destruct v.
  - intros a. apply bind_no_key_error; [apply getitem_no_key_error|].
    intros r. apply getitem_no_key_error.
Qed.

End NoKeyError.

Section MissingWord.

Context `{F : Framework}.
Variables (encoder_model decoder_model : Weights) (test_en_seq : array2 nat).
Variables (en_vsize fr_vsize : nat).
Variables (fr_tokenizer : Tokenizer) (fr_index2word : gmap nat string).

Abbreviation inference :=
  (infer_nmt encoder_model decoder_model test_en_seq en_vsize fr_vsize
     fr_tokenizer fr_index2word).
Abbreviation wordless := (λ (log : list (result nat * attention)) id a,
  id ≠ 0 ∧ fr_index2word !! id = None ∧ (Ok id, a) ∈ log).
Abbreviation key_error_at_wordless_id m :=
  ((outcome m = Raise KeyError ↔ ∃ id a, wordless (decode_log (trace m)) id a)
   ∧ (∀ id a, wordless (decode_log (trace m)) id a →
              last (decode_log (trace m)) = Some (Ok id, a))).

(** One decode step: what the decoder call predicted decides how the step
    ends. *)
Lemma decode_step_ends enc_outs i st x aw text :
  ∃ out,
    trace (decode_step decoder_model enc_outs fr_vsize fr_tokenizer
             fr_index2word i (st, x, aw, text)) = [DecoderPredict x out]
    ∧ match outcome (decode_step decoder_model enc_outs fr_vsize fr_tokenizer
                       fr_index2word i (st, x, aw, text)) with
      | Ok (Break _) => argmax00 out.1.1 = Ok 0
      | Ok (Continue _) =>
          ∃ id, argmax00 out.1.1 = Ok id ∧ is_Some (fr_index2word !! id)
      | Raise e =>
          e = KeyError
          ↔ ∃ id, argmax00 out.1.1 = Ok id ∧ id ≠ 0 ∧ fr_index2word !! id = None
      end.
Proof.
  unfold decode_step.
  destruct (decoder_predict decoder_model enc_outs st x)
    as [[dec_out attn] st'] eqn:Hout.
  exists (dec_out, attn, st'). rewrite bind_perform. cbn [fst snd].
  pose proof (argmax00_no_key_error dec_out) as Hno.
  destruct (argmax00 dec_out) as [dec_ind|e] eqn:Hind; rewrite bind_lift.
  2: { split; [done|]. cbn [outcome snd]. split; [congruence|].
       by intros (id & [=] & _). }
  destruct (Nat.eqb_spec dec_ind 0) as [->|Hne]; [done|].
  unfold Py.lookup_key.
  destruct (fr_index2word !! dec_ind) as [w|] eqn:Hw; rewrite bind_lift.
  2: { split; [done|]. cbn [outcome snd]. split; [by eauto | done]. }
  pose proof (to_categorical_no_key_error
    (sents2sequences fr_tokenizer [w] (truthy fr_vsize) Post None) fr_vsize) as Hcat.
  destruct (to_categorical _ fr_vsize) as [c|e]; cbn [fmap result_fmap];
    rewrite bind_lift.
  - split; [done|]. cbn [outcome snd mret M_ret]. exists dec_ind. by rewrite Hw.
  - split; [done|]. cbn [outcome snd]. split; [congruence|].
    intros (id & [= <-] & _ & Hnone). congruence.
Qed.

Lemma decode_loop_key_error enc_outs xs st x aw text :
  key_error_at_wordless_id
    (for_each_break xs
       (decode_step decoder_model enc_outs fr_vsize fr_tokenizer fr_index2word)
       (st, x, aw, text)).
Proof.
  revert st x aw text. induction xs as [|i xs IH]; intros st x aw text.
  { split; [split; [done|]|]; [intros (id & a & _ & _ & Hin)|intros id a (_ & _ & Hin)];
      by apply elem_of_nil in Hin. }
  cbn [for_each_break].
  destruct (decode_step_ends enc_outs i st x aw text) as (out & Htr & Hout).
  rewrite trace_bind, outcome_bind.
  destruct (decode_step _ _ _ _ _ i (st, x, aw, text))
    as [t [[[[[st1 x1] aw1] text1]|[[[st1 x1] aw1] text1]]|e]];
    cbn [trace outcome fst snd] in *; subst t.
  - (* the step went on *)
    destruct Hout as (id' & Hid' & [w Hw]).
    destruct (IH st1 x1 aw1 text1) as [Hiff Hlast].
    rewrite decode_log_predict, Hid'.
    assert (Htail : ∀ id a log,
      wordless ((Ok id', out.1.2) :: log) id a → wordless log id a).
    { intros id a log (Hne & Hnone & Hin). split; [done|]. split; [done|].
      apply elem_of_cons in Hin as [[= -> _]|Hin]; [congruence | done]. }
    split.
    + rewrite Hiff. split.
      * intros (id & a & Hne & Hnone & Hin). exists id, a.
        split; [done|]. split; [done|]. by apply list_elem_of_further.
      * intros (id & a & Hwl). exists id, a. by apply Htail.
    + intros id a Hwl. apply Htail in Hwl.
      pose proof (Hlast id a Hwl) as Hl.
      destruct (decode_log _) as [|h log] eqn:Hlog; [done|]. exact Hl.
  - (* the step left the loop *)
    rewrite decode_log_predict, Hout. cbn [trace mret M_ret fst decode_log omap].
    split; [split; [done|]|].
    + intros (id & a & Hne & _ & Hin).
      apply list_elem_of_singleton in Hin as [= -> _]. done.
    + intros id a (Hne & _ & Hin).
      apply list_elem_of_singleton in Hin as [= -> _]. done.
  - (* the step failed *)
    change (decode_log [DecoderPredict x out])
      with [(argmax00 out.1.1, out.1.2)].
    split.
    + split.
      * intros [= ->]. destruct Hout as [Hout _].
        destruct (Hout eq_refl) as (id & Hid & Hne & Hnone).
        exists id, out.1.2. rewrite Hid. split; [done|]. split; [done|].
        by apply list_elem_of_singleton.
      * intros (id & a & Hne & Hnone & Hin).
        apply list_elem_of_singleton in Hin as [= Hid _].
        f_equal. apply Hout. exists id. by rewrite <- Hid.
    + intros id a (_ & _ & Hin).
      apply list_elem_of_singleton in Hin as ->. reflexivity.
Qed.

(** X10. [infer_nmt] ends in a [KeyError] exactly when a decoder call
    predicted a non-zero word id that is not a key of [fr_index2word]; that
    call is then the last decoder call of the run. *)
Theorem infer_nmt_key_error :
  (outcome inference = Raise KeyError
   ↔ ∃ id a, id ≠ 0 ∧ fr_index2word !! id = None
             ∧ (Ok id, a) ∈ decode_log (trace inference))
  ∧ (∀ id a,
       id ≠ 0 ∧ fr_index2word !! id = None
       ∧ (Ok id, a) ∈ decode_log (trace inference) →
       last (decode_log (trace inference)) = Some (Ok id, a)).
Proof.
  assert (Hnone : ∀ e : exn,
    e ≠ KeyError →
    key_error_at_wordless_id (([], Raise e) : M call (string * list (nat * attention)))).
  { intros e He.
    split; [split; [cbn; congruence|]|];
      [intros (id & a & _ & _ & Hin)|intros id a (_ & _ & Hin)];
      by apply elem_of_nil in Hin. }
  unfold infer_nmt.
  pose proof (to_categorical_no_key_error test_en_seq en_vsize) as Hen.
  destruct (to_categorical test_en_seq en_vsize) as [en|e]; rewrite bind_lift;
    [|apply (Hnone e); congruence].
  pose proof (to_categorical_no_key_error
    (sents2sequences fr_tokenizer ["sos"] (truthy fr_vsize) Post None) fr_vsize)
    as Hfr.
  destruct (to_categorical _ fr_vsize) as [fr|e]; cbn [fmap result_fmap];
    rewrite bind_lift; [|apply (Hnone e); congruence].
  rewrite !trace_perform, !outcome_perform.
  destruct (encoder_predict encoder_model en) as [enc_outs enc_last_state].
  cbv beta iota.
  pose proof (decode_loop_key_error enc_outs (seq 0 20) enc_last_state
                (expand_dims1 fr) [] "") as Hloop.
  rewrite trace_bind, outcome_bind.
  destruct (for_each_break _ _ _) as [t [[[[st' x'] aw'] text']|e]];
    cbn [trace outcome fst snd] in *.
  - rewrite app_nil_r. destruct Hloop as [Hiff Hlast].
    split; [|exact Hlast]. split; [done|]. intros Hwl. by apply Hiff in Hwl.
  - destruct Hloop as [Hiff Hlast].
    split; [|exact Hlast]. split.
    + intros [= ->]. by apply Hiff.
    + intros Hwl. apply Hiff in Hwl. by injection Hwl as ->.
Qed.

End MissingWord.

(** ** Tick labels and the saved figure *)

Section TickLabels.

(** A list of tick labels is made when every id is 0 or has a word; the
    first id without a word fails the comprehension with a [KeyError]. *)
Lemma mapM_tick_label (d : gmap nat string) (ids : list nat) :
  match mapM (tick_label d) ids with
  | Ok ls =>
      Forall (λ k, k = 0 ∨ is_Some (d !! k)) ids
      ∧ Forall2 (λ k l, tick_label d k = Ok l) ids ls
  | Raise e => e = KeyError ∧ ¬ Forall (λ k, k = 0 ∨ is_Some (d !! k)) ids
  end.
Proof.
  induction ids as [|k ids IH]; [by split; constructor|]. cbn [mapM].
  assert (Hk : match tick_label d k with
               | Ok _ => k = 0 ∨ is_Some (d !! k)
               | Raise e => e = KeyError ∧ ¬ (k = 0 ∨ is_Some (d !! k))
               end).
  { unfold tick_label, Py.lookup_key.
    destruct (Nat.eqb_spec k 0) as [->|Hne]; simpl; [by left|].
    destruct (d !! k) as [w|] eqn:Hw; [by eauto|].
    split; [done|]. intros [?|[w Hw']]; [done | congruence]. }
  destruct (tick_label d k) as [l|e] eqn:Hl; cbn [mbind result_bind].
  2: { destruct Hk as [-> Hk]. split; [done|]. by intros [? _]%Forall_cons_1. }
  destruct (mapM (tick_label d) ids) as [ls|e]; cbn [mbind result_bind mret result_ret].
  - destruct IH as [Hall Hls]. split; by constructor.
  - destruct IH as [-> Hnot]. split; [done|]. by intros [_ ?]%Forall_cons_1.
Qed.

(** The labels of ids that have a word are the words. *)
Lemma mapM_tick_label_words {A} (d : gmap nat string) (aw : list (nat * A))
    (words : list string) :
  Forall (λ p, p.1 ≠ 0) aw →
  Forall2 (λ p w, d !! p.1 = Some w) aw words →
  mapM (tick_label d) aw.*1 = Ok words.
Proof.
  intros Hnz Hws. induction Hws as [|[id a] w aw words Hw _ IH]; [done|].
  apply Forall_cons_1 in Hnz as [Hid Hnz]. cbn [fst] in *.
  assert (Hl : tick_label d id = Ok w).
  { unfold tick_label, Py.lookup_key.
    destruct (Nat.eqb_spec id 0) as [|_]; [done|]. cbn [negb]. by rewrite Hw. }
  rewrite fmap_cons. cbn [mapM fst]. rewrite Hl, IH by done. reflexivity.
Qed.

End TickLabels.

Section Figure.

Context `{F : Framework}.
Variables (encoder_inputs : array2 nat) (en_id2word fr_id2word : gmap nat string).

Abbreviation plot_for := (λ aw,
  plot_attention_weights encoder_inputs aw en_id2word fr_id2word).
Abbreviation figure_calls := (λ (aw : list (nat * attention)) (L : nat),
  [Subplots;
   Imshow (Np.transpose (Array2 L ((λ p : nat * attention, reshape1 p.2) <$> aw)));
   SetXTicks (seq 0 (length aw)); SetYTicks (seq 0 L)]).

(** The whole run of the plot for attention arrays of one size [L]: there
    are as many x labels as x ticks, so only the y labels can be refused. *)
Lemma plot_run (aw : list (nat * attention)) (L : nat) :
  aw ≠ [] →
  Forall (λ p, length (reshape1 p.2) = L) aw →
  plot_for aw =
  match mapM (tick_label fr_id2word) aw.*1 with
  | Raise e => (figure_calls aw L, Raise e)
  | Ok xl =>
      match mapM (tick_label en_id2word) (Np.ravel encoder_inputs) with
      | Raise e => (figure_calls aw L ++ [SetXTickLabels xl], Raise e)
      | Ok yl =>
          match tick_labels_fit L yl with
          | Raise e => (figure_calls aw L ++ [SetXTickLabels xl], Raise e)
          | Ok _ =>
              (figure_calls aw L
                 ++ [SetXTickLabels xl; SetYTickLabels yl; TickParams; TickParams]
                 ++ (if path_exists "../results" then [] else [Mkdir "../results"])
                 ++ [Savefig "../results/attention.png"],
               Ok tt)
          end
      end
  end.
Proof.
  intros Hne Hrect.
  set (mats := (λ p : nat * attention, reshape1 p.2) <$> aw).
  assert (Hmats : Forall (λ r, length r = L) mats).
  { unfold mats. by rewrite Forall_fmap. }
  assert (Hlen : length mats = length aw) by apply length_fmap.
  unfold plot_attention_weights, assert.
  replace (negb (length aw =? 0)) with true
    by (destruct aw; [done | reflexivity]).
  rewrite bind_ret, plot_collect. cbn [app]. fold mats.
  rewrite (np_array_rectangular L mats) by (unfold mats; by destruct aw).
  cbn [fmap result_fmap]. rewrite bind_lift.
  assert (Hshape : Np.shape (Np.transpose (Array2 L mats)) = (L, length aw)).
  { unfold Np.shape, Np.transpose. cbn [rows ncols].
    by rewrite transpose_rows_length, Hlen. }
  rewrite Hshape. cbn [fst snd].
  destruct (mapM (tick_label fr_id2word) aw.*1) as [xl|e] eqn:Hxl; [|reflexivity].
  pose proof (tick_labels_of_ids _ _ _ Hxl) as Hfit.
  rewrite length_fmap in Hfit.
  rewrite !bind_perform, bind_lift. cbv beta iota. rewrite Hfit, bind_lift.
  cbv beta iota.
  destruct (mapM (tick_label en_id2word) _) as [yl|e]; [|reflexivity].
  rewrite bind_perform, bind_lift. cbv beta iota.
  destruct (tick_labels_fit L yl) as [[]|e]; [|reflexivity].
  by destruct (path_exists "../results").
Qed.

(** X11. For a non-empty [attention_weights] with attention arrays of one
    size [L], [plot_attention_weights] returns, having saved the figure,
    exactly when every decoded id and every encoder input id is 0 or a key
    of its dictionary and there are as many encoder input ids as y ticks,
    [L], or none at all. It ends in a [KeyError] exactly when some id has no
    word, and in the [ValueError] of [set_yticklabels] exactly when all ids
    have one but their number does not fit; in both cases nothing is saved.
    The directory "../results" is made only in a run that saves the figure,
    and only when it does not exist. *)
Theorem plot_saved_iff (aw : list (nat * attention)) (L : nat) :
  aw ≠ [] →
  Forall (λ p, length (reshape1 p.2) = L) aw →
  let resolvable :=
    Forall (λ p, p.1 = 0 ∨ is_Some (fr_id2word !! p.1)) aw
    ∧ Forall (λ k, k = 0 ∨ is_Some (en_id2word !! k)) (Np.ravel encoder_inputs) in
  let fitting :=
    length (Np.ravel encoder_inputs) = L ∨ Np.ravel encoder_inputs = [] in
  (outcome (plot_for aw) = Ok tt ↔ resolvable ∧ fitting)
  ∧ (outcome (plot_for aw) = Raise KeyError ↔ ¬ resolvable)
  ∧ (outcome (plot_for aw) = Raise ValueError ↔ resolvable ∧ ¬ fitting)
  ∧ (Savefig "../results/attention.png" ∈ trace (plot_for aw)
     ↔ resolvable ∧ fitting)
  ∧ (Mkdir "../results" ∈ trace (plot_for aw)
     ↔ (resolvable ∧ fitting) ∧ path_exists "../results" = false).
Proof.
  intros Hne Hrect resolvable fitting. unfold resolvable, fitting.
  rewrite (plot_run aw L Hne Hrect).
  pose proof (mapM_tick_label fr_id2word aw.*1) as Hx.
  pose proof (mapM_tick_label en_id2word (Np.ravel encoder_inputs)) as Hy.
  assert (Hfig : ∀ c, c ∈ figure_calls aw L →
    c ≠ Savefig "../results/attention.png" ∧ c ≠ Mkdir "../results").
  { intros c Hc. repeat (apply elem_of_cons in Hc as [->|Hc]; [done|]).
    by apply elem_of_nil in Hc. }
  assert (Hfigx : ∀ xl c, c ∈ figure_calls aw L ++ [SetXTickLabels xl] →
    c ≠ Savefig "../results/attention.png" ∧ c ≠ Mkdir "../results").
  { intros xl c [Hc|Hc]%elem_of_app; [by apply Hfig|].
    by apply list_elem_of_singleton in Hc as ->. }
  destruct (mapM (tick_label fr_id2word) aw.*1) as [xl|e];
    rewrite Forall_fmap in Hx.
  2: { destruct Hx as [-> Hx]. cbn [outcome trace fst snd].
       split; [split; [done | by intros [[? _] _]]|].
       split; [split; [by intros _ [? _] | done]|].
       split; [split; [done | by intros [[? _] _]]|].
       split; (split; [intros Hin; by destruct (Hfig _ Hin)|]).
       - by intros [[? _] _].
       - by intros [[[? _] _] _]. }
  destruct Hx as [Hx _].
  destruct (mapM (tick_label en_id2word) _) as [yl|e] eqn:Hyl.
  2: { destruct Hy as [-> Hy]. cbn [outcome trace fst snd].
       split; [split; [done | by intros [[_ ?] _]]|].
       split; [split; [by intros _ [_ ?] | done]|].
       split; [split; [done | by intros [[_ ?] _]]|].
       split; (split; [intros Hin; by destruct (Hfigx _ _ Hin)|]).
       - by intros [[_ ?] _].
       - by intros [[[_ ?] _] _]. }
  destruct Hy as [Hy _].
  assert (Hfit : tick_labels_fit L yl = Ok tt
                 ↔ length (Np.ravel encoder_inputs) = L
                   ∨ Np.ravel encoder_inputs = []).
  { rewrite tick_labels_fit_iff.
    apply mapM_result_Forall2, Forall2_length in Hyl. rewrite <- Hyl.
    split; (intros [?|Hnil]; [by left | right]).
    - apply nil_length_inv. rewrite Hyl. by rewrite Hnil.
    - apply nil_length_inv. rewrite <- Hyl. by rewrite Hnil. }
  destruct (tick_labels_fit L yl) as [[]|e] eqn:Hyfit.
  2: { assert (Hno : ¬ (length (Np.ravel encoder_inputs) = L
                        ∨ Np.ravel encoder_inputs = [])).
       { intros Hf. apply Hfit in Hf. discriminate Hf. }
       assert (e = ValueError) as ->.
       { assert (Hr : tick_labels_fit L yl ≠ Ok tt) by (rewrite Hyfit; done).
         apply tick_labels_fit_refused in Hr. congruence. }
       cbn [outcome trace fst snd].
       split; [split; [done | by intros [_ ?]]|].
       split; [split; [done | by intros []]|].
       split; [done|].
       split; (split; [intros Hin; by destruct (Hfigx _ _ Hin)|]).
       - by intros [_ ?].
       - by intros [[_ ?] _]. }
  assert (Hyes : length (Np.ravel encoder_inputs) = L
                 ∨ Np.ravel encoder_inputs = []) by by apply Hfit.
  cbn [outcome trace fst snd].
  split; [done|]. split; [split; [done | by intros []]|].
  split; [split; [done | by intros [_ ?]]|].
  split.
  - split; [done|]. intros _. rewrite !elem_of_app. right. right. right.
    by apply list_elem_of_singleton.
  - rewrite !elem_of_app. split.
    + intros [Hin|[Hin|[Hin|Hin]]].
      * by destruct (Hfig _ Hin).
      * repeat (apply elem_of_cons in Hin as [[=]|Hin]). by apply elem_of_nil in Hin.
      * destruct (path_exists "../results"); [by apply elem_of_nil in Hin | done].
      * by apply list_elem_of_singleton in Hin.
    + intros [_ ->]. right. right. left. by apply list_elem_of_singleton.
Qed.

End Figure.

(** ** From the translation to the figure *)

Section TranslationPlotted.

Context `{F : Framework}.
Variables (encoder_model decoder_model : Weights) (test_en_seq : array2 nat).
Variables (en_vsize fr_vsize : nat).
Variables (fr_tokenizer : Tokenizer) (en_index2word fr_index2word : gmap nat string).

Abbreviation translation :=
  (infer_nmt encoder_model decoder_model test_en_seq en_vsize fr_vsize
     fr_tokenizer fr_index2word).
Abbreviation plot_of_translation := (λ aw,
  plot_attention_weights test_en_seq aw en_index2word fr_index2word).

(** X12. What [infer_nmt] returns can be plotted with the dictionary it was
    decoded with: for a translation that is not the empty string and
    attention arrays of one size [L], [plot_attention_weights] passes its
    assertion and sets x tick labels, and these labels, each followed by a
    blank, make up the translation text. The plot then saves the figure
    exactly when every id of the encoder input is 0 or a key of the English
    dictionary and the encoder input has as many ids as an attention array
    has entries, or none. *)
Theorem plot_after_infer (fr_text : string) (aw : list (nat * attention))
    (L : nat) :
  outcome translation = Ok (fr_text, aw) →
  fr_text ≠ "" →
  Forall (λ p, length (reshape1 p.2) = L) aw →
  ∃ labels,
    SetXTickLabels labels ∈ trace (plot_of_translation aw)
    ∧ fr_text = join_words labels
    ∧ length labels = length aw
    ∧ (outcome (plot_of_translation aw) = Ok tt
       ↔ Forall (λ k, k = 0 ∨ is_Some (en_index2word !! k)) (Np.ravel test_en_seq)
         ∧ (length (Np.ravel test_en_seq) = L ∨ Np.ravel test_en_seq = [])).
Proof.
  intros Hrun Htext Hrect.
  destruct (infer_nmt_run encoder_model decoder_model test_en_seq en_vsize
              fr_vsize fr_tokenizer fr_index2word) as [_ Hok].
  destruct (Hok _ _ Hrun) as (words & Hnz & Hws & -> & _).
  assert (Hne : aw ≠ []).
  { intros ->. apply Forall2_nil_inv_l in Hws as ->. done. }
  exists words. rewrite (plot_run _ _ _ aw L Hne Hrect).
  rewrite (mapM_tick_label_words _ _ _ Hnz Hws).
  pose proof (mapM_tick_label en_index2word (Np.ravel test_en_seq)) as Hy.
  split; [|split; [done|split; [symmetry; by eapply Forall2_length|]]].
  - destruct (mapM (tick_label en_index2word) _) as [yl|e];
      [destruct (tick_labels_fit L yl) as [[]|e]|];
      cbn [trace fst]; rewrite !elem_of_app; right;
      [left; apply elem_of_cons; by left
      | by apply list_elem_of_singleton
      | by apply list_elem_of_singleton].
  - destruct (mapM (tick_label en_index2word) _) as [yl|e] eqn:Hyl;
      cbn [outcome snd].
    2: { destruct Hy as [_ Hy]. split; [done | by intros [? _]]. }
    destruct Hy as [Hy _].
    assert (Hfit : tick_labels_fit L yl = Ok tt
                   ↔ length (Np.ravel test_en_seq) = L
                     ∨ Np.ravel test_en_seq = []).
    { rewrite tick_labels_fit_iff.
      apply mapM_result_Forall2, Forall2_length in Hyl. rewrite <- Hyl.
      split; (intros [?|Hnil]; [by left | right]).
      - apply nil_length_inv. rewrite Hyl. by rewrite Hnil.
      - apply nil_length_inv. rewrite <- Hyl. by rewrite Hnil. }
    destruct (tick_labels_fit L yl) as [[]|e]; cbn [outcome snd].
    + split; [intros _; split; [done | by apply Hfit] | done].
    + split; [done|]. intros [_ Hf]. apply Hfit in Hf. discriminate Hf.
Qed.

End TranslationPlotted.

(** ** What the model is trained on *)

Section OneHot.

Context `{F : Framework}.
Variables (en_seq fr_seq : array2 nat) (batch_size n_epochs : Z).
Variables (en_vsize fr_vsize : nat).

Abbreviation one_hot_vector := (λ (n : nat) (v : list nat),
  ∃ k, k < n ∧ v = (λ j, if j =? k then 1 else 0) <$> seq 0 n).

Lemma mapM_result_Forall {A B} (f : A → result B) (P : B → Prop) l ys :
  (∀ x y, f x = Ok y → P y) → mapM f l = Ok ys → Forall P ys.
Proof.
  intros Hf Hl. apply mapM_result_Forall2 in Hl.
  induction Hl as [|x y l ys Hxy _ IH]; constructor; eauto.
Qed.

Lemma one_hot_ok n k v : one_hot n k = Ok v → one_hot_vector n v.
Proof.
  unfold one_hot. destruct (Nat.ltb_spec k n); [|done].
  intros [= <-]. by exists k.
Qed.

Lemma to_categorical_one_hot y n c :
  n ≠ 0 →
  to_categorical y n = Ok c →
  match c with
  | Cat3 t => Forall (Forall (one_hot_vector n)) t
  | Cat2 t => Forall (one_hot_vector n) t
  end.
Proof.
  intros Hn. unfold to_categorical.
  destruct (Nat.eqb_spec n 0) as [|_]; [done|]. cbn [mbind result_bind].
  destruct (ncols y =? 1).
  - destruct (mapM (one_hot n) _) as [t|e] eqn:Ht; [|done]. intros [= <-].
    eapply mapM_result_Forall; [|exact Ht]. apply one_hot_ok.
  - destruct (mapM (mapM (one_hot n)) _) as [t|e] eqn:Ht; [|done]. intros [= <-].
    eapply mapM_result_Forall; [|exact Ht]. intros r vs Hvs. cbv beta.
    eapply mapM_result_Forall; [|exact Hvs]. apply one_hot_ok.
Qed.

(** X13. With non-zero vocabulary sizes, everything [train] passes to
    [train_on_batch], in any run, is one-hot: every vector of the encoder
    input has [en_vsize] entries, and every vector of the decoder input and
    of the target has [fr_vsize] entries, a single 1 at the position of a
    word id below the vocabulary size and 0 elsewhere. A word id beyond the
    vocabulary size never reaches the model. *)
Theorem train_feeds_one_hot (full_model : Weights) (enc : categorical)
    (dec target : tensor3) :
  en_vsize ≠ 0 →
  fr_vsize ≠ 0 →
  TrainOnBatch enc dec target
    ∈ trace (train full_model en_seq fr_seq batch_size n_epochs en_vsize fr_vsize) →
  match enc with
  | Cat3 t => Forall (Forall (one_hot_vector en_vsize)) t
  | Cat2 t => Forall (one_hot_vector en_vsize) t
  end
  ∧ Forall (Forall (one_hot_vector fr_vsize)) dec
  ∧ Forall (Forall (one_hot_vector fr_vsize)) target.
Proof.
  intros Hen Hfr Hin.
  pose proof (train_calls_on_batches en_seq fr_seq batch_size en_vsize fr_vsize
                full_model n_epochs) as Hall.
  rewrite Forall_forall in Hall.
  destruct (Hall _ Hin eq_refl) as (bi & b & Hb & Hc).
  pose proof Hb as Hb'.
  apply batch_tensors_shift in Hb' as (fr & Hcat & Hdec & Htgt).
  unfold batch_calls in Hc. rewrite !elem_of_cons, elem_of_nil in Hc.
  destruct Hc as [[= -> -> ->]|[[=]|[]]].
  apply to_categorical_one_hot in Hcat; [|done].
  split; [|split].
  - unfold batch_tensors in Hb.
    destruct (to_categorical (Np.slice_rows _ _ en_seq) _) as [en|e] eqn:Hencat;
      cbn [mbind result_bind] in Hb; [|done].
    apply to_categorical_one_hot in Hencat; [|done].
    destruct (to_categorical (Np.slice_rows _ _ fr_seq) _) as [fr'|e];
      cbn [mbind result_bind] in Hb; [|done].
    destruct (slice_time None _ fr') as [d|e]; cbn [mbind result_bind] in Hb;
      [|done].
    destruct (slice_time (Some _) _ fr') as [g|e]; cbn [mbind result_bind] in Hb;
      [|done].
    injection Hb as <-. exact Hencat.
  - rewrite Hdec. apply Forall_fmap. eapply Forall_impl; [exact Hcat|].
    intros sent Hsent. by apply Forall_take.
  - rewrite Htgt. apply Forall_fmap. eapply Forall_impl; [exact Hcat|].
    intros sent Hsent. by apply Forall_drop.
Qed.

End OneHot.

(** ** Further concrete runs *)

Section FurtherRuns.

(** X1 at a sentence with a spaced full stop and at one without a full
    stop. *)
Lemma wrap_fr_tokens_witness :
  PyStr.split (wrap_fr "je suis .") = ["sos"; "je"; "suis"; "eos"; "."]
  ∧ PyStr.endswith "je suis" "." = false
  ∧ PyStr.split (wrap_fr "je suis") = ["sos"; "je"; "suis"; "eos"; "."].
Proof.
  destruct wrap_fr_tokens as [Hstop Hnone].
  split; [exact (Hstop "je suis")|]. split; [reflexivity|].
  apply (Hnone "je suis"). reflexivity.
Defined.

(** X2 at the small vocabulary, whose ids are 1 to 7. *)
Lemma index2word_inverts_witness :
  NoDup (@word_index Toy.small Toy.vocab).*2
  ∧ (@index2word Toy.small Toy.vocab !! 4 = Some "x"
     ↔ ("x", 4) ∈ @word_index Toy.small Toy.vocab).
Proof.
  assert (Hids : NoDup (@word_index Toy.small Toy.vocab).*2)
    by (apply (bool_decide_unpack _); vm_compute; exact I).
  split; [exact Hids|].
  exact (@index2word_inverts Toy.small Toy.vocab 4 "x" Hids).
Defined.

(** X3 at a corpus of four pairs: the seed of the script is taken, the seed
    -1 is not. *)
Lemma get_data_index_error_witness :
  (0 ≤ 100 ≤ 4294967295)%Z
  ∧ length (@read_data Toy.small "data/small_vocab_en.txt")
      ≤ length (@read_data Toy.small "data/small_vocab_fr.txt")
  ∧ (∃ r, outcome (@get_data Toy.small 3 100) = Ok r)
  ∧ outcome (@get_data Toy.small 3 (-1)) = Raise ValueError.
Proof.
  assert (Hseed : (0 ≤ 100 ≤ 4294967295)%Z) by lia.
  assert (Hlen : length (@read_data Toy.small "data/small_vocab_en.txt")
                 ≤ length (@read_data Toy.small "data/small_vocab_fr.txt"))
    by (simpl; lia).
  split; [exact Hseed|]. split; [exact Hlen|]. split.
  - destruct (@get_data_index_error Toy.small 3 100) as [_ [_ Hok]].
    apply Hok. split; [exact Hseed | exact Hlen].
  - destruct (@get_data_index_error Toy.small 3 (-1)) as [Hrefused _].
    apply Hrefused. lia.
Defined.

(** X4 at a training size of -1: all pairs but the last of the shuffled
    order are training pairs. *)
Lemma get_data_keeps_pairs_witness :
  (0 ≤ 100 ≤ 4294967295)%Z
  ∧ length (@read_data Toy.small "data/small_vocab_en.txt")
      ≤ length (@read_data Toy.small "data/small_vocab_fr.txt")
  ∧ ∃ tr_en_text tr_fr_text ts_en_text ts_fr_text,
      outcome (@get_data Toy.small (-1) 100)
        = Ok (tr_en_text, tr_fr_text, ts_en_text, ts_fr_text)
      ∧ zip (tr_en_text ++ ts_en_text) (tr_fr_text ++ ts_fr_text)
          ≡ₚ [("a b .", "sos x y eos ."); ("b a .", "sos y x eos .");
              ("a a .", "sos x x eos ."); ("b b .", "sos y y eos .")].
Proof.
  assert (Hseed : (0 ≤ 100 ≤ 4294967295)%Z) by lia.
  assert (Hlen : length (@read_data Toy.small "data/small_vocab_en.txt")
                 ≤ length (@read_data Toy.small "data/small_vocab_fr.txt"))
    by (simpl; lia).
  split; [exact Hseed|]. split; [exact Hlen|].
  destruct (@get_data_keeps_pairs Toy.small (-1) 100 Hseed Hlen)
    as (a & b & c & d & Hrun & _ & _ & Hperm & _).
  exists a, b, c, d. split; [exact Hrun | exact Hperm].
Defined.

(** X5 at the hyperparameters of the [__main__] block and a corpus of four
    pairs. *)
Lemma script_without_test_sentence_witness :
  (Z.of_nat (length (@read_data Toy.small "data/small_vocab_en.txt")) ≤ 100000)%Z
  ∧ outcome (@main Toy.small) = Raise IndexError.
Proof.
  assert (Hall : (Z.of_nat (length (@read_data Toy.small "data/small_vocab_en.txt"))
                  ≤ 100000)%Z) by (simpl; lia).
  split; [exact Hall|].
  destruct (@script_without_test_sentence Toy.small 100000 64 96 20 20 10 Hall)
    as (_ & _ & Hsaved).
  apply (Hsaved (SaveModel "../h5.models/nmt.h5")).
  apply (list_elem_of_lookup_2 _ 22). reflexivity.
Defined.

(** X6 at the small environment, with three training pairs: the figure is
    saved after the model. *)
Lemma script_saves_before_decoding_witness :
  (PlotAttention, Savefig "../results/attention.png")
    ∈ trace (@script Toy.small 3 1 96 3 5 2)
  ∧ ∃ before after,
      trace (@script Toy.small 3 1 96 3 5 2)
        = before ++ (SaveWeights, SaveModel "../h5.models/nmt.h5") :: after
      ∧ (PlotAttention, Savefig "../results/attention.png") ∈ after.
Proof.
  assert (Hin : (PlotAttention, Savefig "../results/attention.png")
                  ∈ trace (@script Toy.small 3 1 96 3 5 2))
    by (apply (list_elem_of_lookup_2 _ 38); reflexivity).
  split; [exact Hin|].
  destruct (@script_saves_before_decoding Toy.small 3 1 96 3 5 2 _ _ Hin
              (or_intror eq_refl))
    as (before & after & Htr & _ & Hafter).
  exists before, after. split; assumption.
Defined.

(** X7 at three sentences and a batch size of three. *)
Lemma train_without_batches_witness :
  3%Z ≠ 0%Z
  ∧ (Z.of_nat (Np.shape Toy.en3).1 ≤ 3)%Z
  ∧ @train Toy.small 0 Toy.en3 Toy.fr3 3 2 2 2
      = ([@PrintLine Toy.small (@EpochLoss Toy.small 1 0);
          @PrintLine Toy.small (@EpochLoss Toy.small 2 0)], Ok 0).
Proof.
  split; [lia|]. split; [simpl; lia|].
  apply (@train_without_batches Toy.small Toy.en3 Toy.fr3 3 2 2 0 2);
    [lia | right; simpl; lia].
Defined.

(** X8 at three sentences, batches of one and two epochs: two batches an
    epoch, not three. *)
Lemma train_batch_count_witness :
  (0 < 1)%Z
  ∧ outcome (@train Toy.small 0 Toy.en3 Toy.fr3 1 2 2 2) = Ok 4
  ∧ length (List.filter
              (λ c : @call Toy.small,
                 match c with TrainOnBatch _ _ _ => true | _ => false end)
              (trace (@train Toy.small 0 Toy.en3 Toy.fr3 1 2 2 2)))
      = 2 * 2.
Proof.
  split; [lia|]. split; [reflexivity|].
  destruct (@train_batch_count Toy.small Toy.en3 Toy.fr3 1 2 2 0 4 2)
    as (Hcount & _ & _); [lia | reflexivity |].
  exact Hcount.
Defined.


(** X10 at a dictionary that knows id 4 only: the second decoder call
    predicts id 5. *)
Lemma infer_nmt_key_error_witness :
  outcome (@infer_nmt Toy.small 0 0 (Array2 2 [[1; 1]]) 8 8 Toy.vocab
             (<[4 := "x"]> ∅))
    = Raise KeyError.
Proof.
  destruct (@infer_nmt_key_error Toy.small 0 0 (Array2 2 [[1; 1]]) 8 8 Toy.vocab
              (<[4 := "x"]> ∅)) as [[_ Hfail] _].
  apply Hfail. exists 5, [[[7; 8; 9]]].
  split; [lia|]. split; [reflexivity|].
  apply (list_elem_of_lookup_2 _ 1). reflexivity.
Defined.

(** X11 at two decode steps with attention over three source positions:
    with three encoder ids, the last one padding, the figure is saved; with
    two encoder ids the y labels are refused. *)
Lemma plot_saved_iff_witness :
  [(4, [[[7; 8; 9]]]); (5, [[[1; 2; 3]]])] ≠ ([] : list (nat * @attention Toy.small))
  ∧ Forall (λ p : nat * @attention Toy.small, length (reshape1 p.2) = 3)
      [(4, [[[7; 8; 9]]]); (5, [[[1; 2; 3]]])]
  ∧ outcome (@plot_attention_weights Toy.small (Array2 3 [[1; 2; 0]])
               [(4, [[[7; 8; 9]]]); (5, [[[1; 2; 3]]])]
               (@index2word Toy.small Toy.vocab)
               (@index2word Toy.small Toy.vocab)) = Ok tt
  ∧ outcome (@plot_attention_weights Toy.small (Array2 2 [[1; 1]])
               [(4, [[[7; 8; 9]]]); (5, [[[1; 2; 3]]])]
               (@index2word Toy.small Toy.vocab)
               (@index2word Toy.small Toy.vocab)) = Raise ValueError.
Proof.
  assert (Hne : [(4, [[[7; 8; 9]]]); (5, [[[1; 2; 3]]])]
                  ≠ ([] : list (nat * @attention Toy.small))) by done.
  assert (Hrect : Forall (λ p : nat * @attention Toy.small, length (reshape1 p.2) = 3)
                    [(4, [[[7; 8; 9]]]); (5, [[[1; 2; 3]]])])
    by (repeat constructor).
  split; [exact Hne|]. split; [exact Hrect|]. split.
  - destruct (@plot_saved_iff Toy.small (Array2 3 [[1; 2; 0]])
                (@index2word Toy.small Toy.vocab) (@index2word Toy.small Toy.vocab)
                _ 3 Hne Hrect) as (Hok & _).
    apply Hok. split; [|left; reflexivity].
    split; repeat constructor; by eauto.
  - destruct (@plot_saved_iff Toy.small (Array2 2 [[1; 1]])
                (@index2word Toy.small Toy.vocab) (@index2word Toy.small Toy.vocab)
                _ 3 Hne Hrect) as (_ & _ & Hrefused & _).
    apply Hrefused. split; [split; repeat constructor; by eauto|].
    intros [Hlen|Hnil]; [simpl in Hlen; lia | discriminate Hnil].
Defined.

(** X12 at the small environment, for a source sentence of three ids: the
    labels "x" and "y" for the translation "x y ", and the figure saved. *)
Lemma plot_after_infer_witness :
  outcome (@infer_nmt Toy.small 0 0 (Array2 3 [[1; 2; 0]]) 8 8 Toy.vocab
             (@index2word Toy.small Toy.vocab))
    = Ok ("x y ", [(4, [[[7; 8; 9]]]); (5, [[[7; 8; 9]]])])
  ∧ (∃ labels,
      SetXTickLabels labels
        ∈ trace (@plot_attention_weights Toy.small (Array2 3 [[1; 2; 0]])
                   [(4, [[[7; 8; 9]]]); (5, [[[7; 8; 9]]])]
                   (@index2word Toy.small Toy.vocab)
                   (@index2word Toy.small Toy.vocab))
      ∧ "x y " = join_words labels)
  ∧ outcome (@plot_attention_weights Toy.small (Array2 3 [[1; 2; 0]])
               [(4, [[[7; 8; 9]]]); (5, [[[7; 8; 9]]])]
               (@index2word Toy.small Toy.vocab)
               (@index2word Toy.small Toy.vocab)) = Ok tt.
Proof.
  assert (Hrun : outcome (@infer_nmt Toy.small 0 0 (Array2 3 [[1; 2; 0]]) 8 8
             Toy.vocab (@index2word Toy.small Toy.vocab))
    = Ok ("x y ", [(4, [[[7; 8; 9]]]); (5, [[[7; 8; 9]]])]))
    by (vm_compute; reflexivity).
  split; [exact Hrun|].
  destruct (@plot_after_infer Toy.small 0 0 (Array2 3 [[1; 2; 0]]) 8 8 Toy.vocab
              (@index2word Toy.small Toy.vocab) (@index2word Toy.small Toy.vocab)
              _ _ 3 Hrun)
    as (labels & Hin & Htext & _ & Hsaved); [done | repeat constructor |].
  split; [exists labels; split; assumption|].
  apply Hsaved. split; [|left; reflexivity].
  repeat constructor; by eauto.
Defined.

(** X13 at three sentences and batches of two. *)
Lemma train_feeds_one_hot_witness :
  2 ≠ 0
  ∧ TrainOnBatch (Cat3 [[[0; 1]; [1; 0]]; [[1; 0]; [0; 1]]])
        [[[0; 1]; [1; 0]]; [[1; 0]; [0; 1]]]
        [[[1; 0]; [0; 1]]; [[0; 1]; [0; 1]]]
      ∈ trace (@train Toy.small 0 Toy.en3 Toy.fr3 2 1 2 2)
  ∧ Forall (Forall (λ v, ∃ k, k < 2
                         ∧ v = (λ j, if j =? k then 1 else 0) <$> seq 0 2))
      [[[1; 0]; [0; 1]]; [[0; 1]; [0; 1]]].
Proof.
  assert (Hin : TrainOnBatch (Cat3 [[[0; 1]; [1; 0]]; [[1; 0]; [0; 1]]])
      [[[0; 1]; [1; 0]]; [[1; 0]; [0; 1]]]
      [[[1; 0]; [0; 1]]; [[0; 1]; [0; 1]]]
    ∈ trace (@train Toy.small 0 Toy.en3 Toy.fr3 2 1 2 2))
    by (apply (list_elem_of_lookup_2 _ 0); reflexivity).
  split; [lia|]. split; [exact Hin|].
  assert (Hen : 2 ≠ 0) by lia.
  destruct (@train_feeds_one_hot Toy.small Toy.en3 Toy.fr3 2 1 2 2 0 _ _ _
              Hen Hen Hin) as (_ & _ & Htarget).
  exact Htarget.
Defined.

End FurtherRuns.
